(** * camtrap-dp-py: the record kinds and their CSV / table converters

    A shallow embedding of [camtrapdp/deployments.py], [camtrapdp/media.py],
    [camtrapdp/observations.py] and of the package-root [__init__.py];
    then of the earlier [camtrapdp/deployment.py] and of the round-trip test
    of the test modules.

    The three dataclasses share one conversion API
    ([from_csv], [to_csv], [to_pandas], [from_pandas]); every method body is a
    call into CPython's [csv] module, the [dataclasses] module and pandas, so
    the embedding models what those calls do with the default dialect
    ([csv.excel]), with files opened the way the source opens them, and with a
    POSIX line separator.  Text is a sequence of Unicode code points, and a
    file read is the text it decodes to: I/O errors and the decoding of
    bytes are outside the model.  Of the encoding of the text written, the
    refusal of a lone surrogate is modelled. *)

From Stdlib Require Import String Ascii ZArith NArith Bool Lia.
From Stdlib Require Import List.
From Stdlib Require Import DecimalString.
From Stdlib Require Import PrimFloat SpecFloat FloatOps FloatAxioms.
Import ListNotations.
Local Open Scope string_scope.
Local Open Scope N_scope.
Local Open Scope list_scope.

(* ------------------------------------------------------------------ *)
(** ** Python text *)

(** A code point. *)
Definition pychar := N.

(** A Python [str]: a sequence of code points. *)
Definition pystr := list pychar.

(** The [str] written with the ASCII literal [s]. *)
Definition u (s : string) : pystr :=
  map N_of_ascii (list_ascii_of_string s).

Definition LF : pychar := 10.
Definition CR : pychar := 13.
Definition COMMA : pychar := 44.
Definition DQUOTE : pychar := 34.
Definition BOM : pychar := 65279.

Fixpoint pystr_eqb (a b : pystr) : bool :=
  match a, b with
  | [], [] => true
  | x :: a', y :: b' => (x =? y) && pystr_eqb a' b'
  | _, _ => false
  end.

Fixpoint mem (k : pystr) (l : list pystr) : bool :=
  match l with
  | [] => false
  | x :: l' => pystr_eqb k x || mem k l'
  end.

Fixpoint nodupb (l : list pystr) : bool :=
  match l with
  | [] => true
  | x :: l' => negb (mem x l') && nodupb l'
  end.

(** [sep.join(parts)]. *)
Fixpoint join (sep : pystr) (parts : list pystr) : pystr :=
  match parts with
  | [] => []
  | [p] => p
  | p :: rest => p ++ sep ++ join sep rest
  end.

(* ------------------------------------------------------------------ *)
(** ** Exceptions and results *)

(** The exception classes the conversions can meet.  [UnicodeEncodeError]
    is a subclass of [ValueError]; it is kept apart from the [ValueError]
    raised as such.  [FormatError] is the class the specification names; no
    statement of the source raises it. *)
Inductive PyExn :=
| TypeError
| ValueError
| UnicodeEncodeError
| CsvError
| NotImplementedError
| FormatError.

Inductive result (A : Type) :=
| Ok (a : A)
| Raise (e : PyExn).
Arguments Ok {A} a.
Arguments Raise {A} e.

Definition bind {A B} (r : result A) (k : A -> result B) : result B :=
  match r with
  | Ok a => k a
  | Raise e => Raise e
  end.

Notation "x <- c ;; k" := (bind c (fun x => k))
  (at level 61, c at next level, right associativity).

Fixpoint mapM {A B} (f : A -> result B) (l : list A) : result (list B) :=
  match l with
  | [] => Ok []
  | a :: l' => b <- f a ;; bs <- mapM f l' ;; Ok (b :: bs)
  end.

(* ------------------------------------------------------------------ *)
(** ** The enumerations of the source *)

Inductive FeatureType :=
| ROAD_PAVED | ROAD_DIRT | TRAIL_HIKING | TRAIL_GAME | ROAD_UNDERPASS
| ROAD_OVERPASS | ROAD_BRIDGE | CULVERT | BURROW | NEST_SITE | CARCASS
| WATER_SOURCE | FRUITING_TREE.

Inductive CaptureMethod := ACTIVITY_DETECTION | TIME_LAPSE.
Inductive ObservationLevel := EVENT | MEDIA.
Inductive ObservationType :=
| ANIMAL | HUMAN | VEHICLE | BLANK | UNKNOWN | UNCLASSIFIED.
Inductive CameraSetupType := SETUP | CALIBRATION.
Inductive LifeStage := ADULT | SUBADULT | JUVENILE.
(** [class Sex(Enum)] declares no member. *)
Inductive Sex := .
Inductive ClassificationMethod := CM_HUMAN | CM_MACHINE.

Inductive EnumClass :=
| EFeatureType | ECaptureMethod | EObservationLevel | EObservationType
| ECameraSetupType | ELifeStage | ESex | EClassificationMethod.

(** A member of one of the enumeration classes. *)
Inductive EnumMember :=
| MFeatureType (m : FeatureType)
| MCaptureMethod (m : CaptureMethod)
| MObservationLevel (m : ObservationLevel)
| MObservationType (m : ObservationType)
| MCameraSetupType (m : CameraSetupType)
| MLifeStage (m : LifeStage)
| MSex (m : Sex)
| MClassificationMethod (m : ClassificationMethod).

Definition enum_class (m : EnumMember) : EnumClass :=
  match m with
  | MFeatureType _ => EFeatureType
  | MCaptureMethod _ => ECaptureMethod
  | MObservationLevel _ => EObservationLevel
  | MObservationType _ => EObservationType
  | MCameraSetupType _ => ECameraSetupType
  | MLifeStage _ => ELifeStage
  | MSex _ => ESex
  | MClassificationMethod _ => EClassificationMethod
  end.

Definition enum_class_name (c : EnumClass) : string :=
  match c with
  | EFeatureType => "FeatureType"
  | ECaptureMethod => "CaptureMethod"
  | EObservationLevel => "ObservationLevel"
  | EObservationType => "ObservationType"
  | ECameraSetupType => "CameraSetupType"
  | ELifeStage => "LifeStage"
  | ESex => "Sex"
  | EClassificationMethod => "ClassificationMethod"
  end.

(** [FeatureType] is declared [class FeatureType(str, Enum)]: its members are
    [str] instances.  The other classes derive from [Enum] alone. *)
Definition enum_is_str (c : EnumClass) : bool :=
  match c with
  | EFeatureType => true
  | _ => false
  end.

(** The member's name and its declared string value. *)
Definition enum_name_value (m : EnumMember) : string * string :=
  match m with
  | MFeatureType ROAD_PAVED => ("ROAD_PAVED", "roadPaved")
  | MFeatureType ROAD_DIRT => ("ROAD_DIRT", "roadDirt")
  | MFeatureType TRAIL_HIKING => ("TRAIL_HIKING", "trailHiking")
  | MFeatureType TRAIL_GAME => ("TRAIL_GAME", "trailGame")
  | MFeatureType ROAD_UNDERPASS => ("ROAD_UNDERPASS", "roadUnderpass")
  | MFeatureType ROAD_OVERPASS => ("ROAD_OVERPASS", "roadOverpass")
  | MFeatureType ROAD_BRIDGE => ("ROAD_BRIDGE", "roadBridge")
  | MFeatureType CULVERT => ("CULVERT", "culvert")
  | MFeatureType BURROW => ("BURROW", "burrow")
  | MFeatureType NEST_SITE => ("NEST_SITE", "nestSite")
  | MFeatureType CARCASS => ("CARCASS", "carcass")
  | MFeatureType WATER_SOURCE => ("WATER_SOURCE", "waterSource")
  | MFeatureType FRUITING_TREE => ("FRUITING_TREE", "fruitingTree")
  | MCaptureMethod ACTIVITY_DETECTION => ("ACTIVITY_DETECTION", "activityDetection")
  | MCaptureMethod TIME_LAPSE => ("TIME_LAPSE", "timeLapse")
  | MObservationLevel EVENT => ("EVENT", "event")
  | MObservationLevel MEDIA => ("MEDIA", "media")
  | MObservationType ANIMAL => ("ANIMAL", "animal")
  | MObservationType HUMAN => ("HUMAN", "human")
  | MObservationType VEHICLE => ("VEHICLE", "vehicle")
  | MObservationType BLANK => ("BLANK", "blank")
  | MObservationType UNKNOWN => ("UNKNOWN", "unknown")
  | MObservationType UNCLASSIFIED => ("UNCLASSIFIED", "unclassified")
  | MCameraSetupType SETUP => ("SETUP", "setup")
  | MCameraSetupType CALIBRATION => ("CALIBRATION", "calibration")
  | MLifeStage ADULT => ("ADULT", "adult")
  | MLifeStage SUBADULT => ("SUBADULT", "subadult")
  | MLifeStage JUVENILE => ("JUVENILE", "juvenile")
  | MSex m => match m with end
  | MClassificationMethod CM_HUMAN => ("HUMAN", "human")
  | MClassificationMethod CM_MACHINE => ("MACHINE", "machine")
  end.

(** The members of a class, in declaration order. *)
Definition enum_members (c : EnumClass) : list EnumMember :=
  match c with
  | EFeatureType =>
      map MFeatureType
        [ROAD_PAVED; ROAD_DIRT; TRAIL_HIKING; TRAIL_GAME; ROAD_UNDERPASS;
         ROAD_OVERPASS; ROAD_BRIDGE; CULVERT; BURROW; NEST_SITE; CARCASS;
         WATER_SOURCE; FRUITING_TREE]
  | ECaptureMethod => map MCaptureMethod [ACTIVITY_DETECTION; TIME_LAPSE]
  | EObservationLevel => map MObservationLevel [EVENT; MEDIA]
  | EObservationType =>
      map MObservationType
        [ANIMAL; HUMAN; VEHICLE; BLANK; UNKNOWN; UNCLASSIFIED]
  | ECameraSetupType => map MCameraSetupType [SETUP; CALIBRATION]
  | ELifeStage => map MLifeStage [ADULT; SUBADULT; JUVENILE]
  | ESex => []
  | EClassificationMethod => map MClassificationMethod [CM_HUMAN; CM_MACHINE]
  end.

(** The declared value set of an enumeration class. *)
Definition enum_values (c : EnumClass) : list pystr :=
  map (fun m => u (snd (enum_name_value m))) (enum_members c).

(* ------------------------------------------------------------------ *)
(** ** Python values held by record fields *)

(** The dataclasses check no type at run time: a field holds whatever object
    the caller passed.  The model covers [None], [str], [bool], [int],
    [float] (IEEE binary64) and the members of the declared enumerations. *)
Inductive PyVal :=
| PyNone
| PyStr (s : pystr)
| PyBool (b : bool)
| PyInt (z : Z)
| PyFloat (f : float)
| PyEnum (m : EnumMember).

Definition is_text_or_none (v : PyVal) : bool :=
  match v with
  | PyNone | PyStr _ => true
  | _ => false
  end.

(* ------------------------------------------------------------------ *)
(** ** Dataclasses *)

(** The type written in a field's annotation. *)
Inductive FieldType :=
| TStr | TFloat | TInt | TBool | TDict
| TEnum (c : EnumClass).

(** An annotation: [Optional[...]] or not, and the type. *)
Definition Annotation : Type := bool * FieldType.
Definition required (t : FieldType) : Annotation := (false, t).
Definition optional (t : FieldType) : Annotation := (true, t).

(** What [@dataclass] gives a class: the ordered [__dataclass_fields__] (a
    dict, so no name occurs twice), the instance's field values in that
    order, and the positional constructor.  No field of the three classes has
    a default, so the generated [__init__] requires every one of them. *)
Class Dataclass (T : Type) := {
  dataclass_fields : list (string * Annotation);
  field_values : T -> list PyVal;
  make : list PyVal -> option T;
  make_values : forall r, make (field_values r) = Some r;
  values_make : forall vs r, make vs = Some r -> field_values r = vs;
  make_length : forall vs,
    make vs <> None <-> length vs = length dataclass_fields;
  fields_nodup :
    nodupb (map (fun f => u (fst f)) dataclass_fields) = true
}.

(** [cls.__dataclass_fields__.keys()]. *)
Definition fieldnames (T : Type) `{Dataclass T} : list pystr :=
  map (fun f => u (fst f)) dataclass_fields.

(** A keyword mapping: its items in iteration order. *)
Definition kwargs := list (pystr * PyVal).

Fixpoint lookup (k : pystr) (kw : kwargs) : option PyVal :=
  match kw with
  | [] => None
  | (k', v) :: kw' => if pystr_eqb k k' then Some v else lookup k kw'
  end.

(** Binding [**kw] to parameters that are all required: a repeated keyword,
    a keyword that names no parameter and a parameter left without a value
    are each a [TypeError]. *)
Definition bind_kwargs (params : list pystr) (kw : kwargs)
  : result (list PyVal) :=
  if negb (nodupb (map fst kw)) then Raise TypeError
  else if negb (forallb (fun k => mem k params) (map fst kw))
  then Raise TypeError
  else mapM (fun p => match lookup p kw with
                      | Some v => Ok v
                      | None => Raise TypeError
                      end) params.

(** [cls( **kw)]: the generated [__init__] stores each argument as given. *)
Definition init (T : Type) `{Dataclass T} (kw : kwargs) : result T :=
  vs <- bind_kwargs (fieldnames T) kw ;;
  match make vs with
  | Some r => Ok r
  | None => Raise TypeError
  end.

(** [instance.__dict__], and [dataclasses.asdict(instance)]: the fields in
    declared order.  [asdict] copies the values; the values of the model are
    immutable, so the copy is the value. *)
Definition instance_dict {T : Type} `{Dataclass T} (r : T) : kwargs :=
  combine (fieldnames T) (field_values r).

Definition asdict {T : Type} `{Dataclass T} (r : T) : kwargs :=
  instance_dict r.

Ltac dataclass_laws :=
  match goal with
  | |- forall r, _ = Some r => intros []; reflexivity
  | |- forall vs r, _ = Some r -> _ = vs =>
      intros vs r;
      repeat (destruct vs as [|? vs]; try discriminate);
      intros E; injection E as <-; reflexivity
  | |- forall vs, _ <-> _ =>
      intros vs; split;
      [ repeat (destruct vs as [|? vs];
                try (intros E; exfalso; apply E; reflexivity));
        reflexivity
      | repeat (destruct vs as [|? vs]; try discriminate);
        discriminate ]
  | |- nodupb _ = true => vm_compute; reflexivity
  end.

(** *** camtrapdp/deployments.py *)
Module Deployment.
Record t := mk {
  deploymentID : PyVal;
  locationID : PyVal;
  locationName : PyVal;
  latitude : PyVal;
  longitude : PyVal;
  coordinateUncertainty : PyVal;
  deploymentStart : PyVal;
  deploymentEnd : PyVal;
  setupBy : PyVal;
  cameraID : PyVal;
  cameraModel : PyVal;
  cameraDelay : PyVal;
  cameraHeight : PyVal;
  cameraDepth : PyVal;
  cameraTilt : PyVal;
  cameraHeading : PyVal;
  detectionDistance : PyVal;
  timestampIssues : PyVal;
  baitUse : PyVal;
  featureType : PyVal;
  habitat : PyVal;
  deploymentGroups : PyVal;
  deploymentTags : PyVal;
  deploymentComments : PyVal
}.

Definition fields : list (string * Annotation) :=
  [ ("deploymentID", required TStr);
    ("locationID", optional TStr);
    ("locationName", optional TStr);
    ("latitude", required TFloat);
    ("longitude", required TFloat);
    ("coordinateUncertainty", optional TFloat);
    ("deploymentStart", required TStr);
    ("deploymentEnd", required TStr);
    ("setupBy", optional TStr);
    ("cameraID", optional TStr);
    ("cameraModel", optional TStr);
    ("cameraDelay", optional TInt);
    ("cameraHeight", optional TFloat);
    ("cameraDepth", optional TFloat);
    ("cameraTilt", optional TInt);
    ("cameraHeading", optional TInt);
    ("detectionDistance", optional TFloat);
    ("timestampIssues", optional TBool);
    ("baitUse", optional TBool);
    ("featureType", optional (TEnum EFeatureType));
    ("habitat", optional TStr);
    ("deploymentGroups", optional TStr);
    ("deploymentTags", optional TStr);
    ("deploymentComments", optional TStr) ].

Definition values (d : t) : list PyVal :=
  [ deploymentID d; locationID d; locationName d; latitude d; longitude d;
    coordinateUncertainty d; deploymentStart d; deploymentEnd d; setupBy d;
    cameraID d; cameraModel d; cameraDelay d; cameraHeight d; cameraDepth d;
    cameraTilt d; cameraHeading d; detectionDistance d; timestampIssues d;
    baitUse d; featureType d; habitat d; deploymentGroups d;
    deploymentTags d; deploymentComments d ].

Definition of_values (vs : list PyVal) : option t :=
  match vs with
  | [ a1; a2; a3; a4; a5; a6; a7; a8; a9; a10; a11; a12; a13; a14; a15;
      a16; a17; a18; a19; a20; a21; a22; a23; a24 ] =>
      Some (mk a1 a2 a3 a4 a5 a6 a7 a8 a9 a10 a11 a12 a13 a14 a15
               a16 a17 a18 a19 a20 a21 a22 a23 a24)
  | _ => None
  end.
End Deployment.

#[export] Instance Deployment_dataclass : Dataclass Deployment.t.
Proof.
  refine {| dataclass_fields := Deployment.fields;
            field_values := Deployment.values;
            make := Deployment.of_values |}; dataclass_laws.
Defined.

(** *** camtrapdp/media.py *)
Module Media.
Record t := mk {
  mediaID : PyVal;
  deploymentID : PyVal;
  captureMethod : PyVal;
  timestamp : PyVal;
  filePath : PyVal;
  filePublic : PyVal;
  fileName : PyVal;
  fileMediatype : PyVal;
  exifData : PyVal;
  favorite : PyVal;
  mediaComments : PyVal
}.

Definition fields : list (string * Annotation) :=
  [ ("mediaID", required TStr);
    ("deploymentID", required TStr);
    ("captureMethod", optional (TEnum ECaptureMethod));
    ("timestamp", required TStr);
    ("filePath", required TStr);
    ("filePublic", required TBool);
    ("fileName", optional TStr);
    ("fileMediatype", required TStr);
    ("exifData", optional TDict);
    ("favorite", optional TBool);
    ("mediaComments", optional TStr) ].

Definition values (m : t) : list PyVal :=
  [ mediaID m; deploymentID m; captureMethod m; timestamp m; filePath m;
    filePublic m; fileName m; fileMediatype m; exifData m; favorite m;
    mediaComments m ].

Definition of_values (vs : list PyVal) : option t :=
  match vs with
  | [ a1; a2; a3; a4; a5; a6; a7; a8; a9; a10; a11 ] =>
      Some (mk a1 a2 a3 a4 a5 a6 a7 a8 a9 a10 a11)
  | _ => None
  end.
End Media.

#[export] Instance Media_dataclass : Dataclass Media.t.
Proof.
  refine {| dataclass_fields := Media.fields;
            field_values := Media.values;
            make := Media.of_values |}; dataclass_laws.
Defined.

(** *** camtrapdp/observations.py *)
Module Observation.
Record t := mk {
  observationID : PyVal;
  deploymentID : PyVal;
  mediaID : PyVal;
  eventID : PyVal;
  eventStart : PyVal;
  eventEnd : PyVal;
  observationLevel : PyVal;
  observationType : PyVal;
  cameraSetupType : PyVal;
  scientificName : PyVal;
  count : PyVal;
  lifeStage : PyVal;
  sex : PyVal;
  behavior : PyVal;
  individualID : PyVal;
  individualPositionRadius : PyVal;
  individualPositionAngle : PyVal;
  individualSpeed : PyVal;
  bboxX : PyVal;
  bboxY : PyVal;
  bboxWidth : PyVal;
  bboxHeight : PyVal;
  classificationMethod : PyVal;
  classifiedBy : PyVal;
  classificationTimestamp : PyVal;
  classificationProbability : PyVal;
  observationTags : PyVal;
  observationComments : PyVal
}.

Definition fields : list (string * Annotation) :=
  [ ("observationID", required TStr);
    ("deploymentID", required TStr);
    ("mediaID", optional TStr);
    ("eventID", optional TStr);
    ("eventStart", required TStr);
    ("eventEnd", required TStr);
    ("observationLevel", required (TEnum EObservationLevel));
    ("observationType", required (TEnum EObservationType));
    ("cameraSetupType", optional (TEnum ECameraSetupType));
    ("scientificName", optional TStr);
    ("count", optional TInt);
    ("lifeStage", optional (TEnum ELifeStage));
    ("sex", optional (TEnum ESex));
    ("behavior", optional TStr);
    ("individualID", optional TStr);
    ("individualPositionRadius", optional TFloat);
    ("individualPositionAngle", optional TFloat);
    ("individualSpeed", optional TFloat);
    ("bboxX", optional TFloat);
    ("bboxY", optional TFloat);
    ("bboxWidth", optional TFloat);
    ("bboxHeight", optional TFloat);
    ("classificationMethod", optional (TEnum EClassificationMethod));
    ("classifiedBy", optional TStr);
    ("classificationTimestamp", optional TStr);
    ("classificationProbability", optional TFloat);
    ("observationTags", optional TStr);
    ("observationComments", optional TStr) ].

Definition values (o : t) : list PyVal :=
  [ observationID o; deploymentID o; mediaID o; eventID o; eventStart o;
    eventEnd o; observationLevel o; observationType o; cameraSetupType o;
    scientificName o; count o; lifeStage o; sex o; behavior o;
    individualID o; individualPositionRadius o; individualPositionAngle o;
    individualSpeed o; bboxX o; bboxY o; bboxWidth o; bboxHeight o;
    classificationMethod o; classifiedBy o; classificationTimestamp o;
    classificationProbability o; observationTags o; observationComments o ].

Definition of_values (vs : list PyVal) : option t :=
  match vs with
  | [ a1; a2; a3; a4; a5; a6; a7; a8; a9; a10; a11; a12; a13; a14; a15;
      a16; a17; a18; a19; a20; a21; a22; a23; a24; a25; a26; a27; a28 ] =>
      Some (mk a1 a2 a3 a4 a5 a6 a7 a8 a9 a10 a11 a12 a13 a14 a15
               a16 a17 a18 a19 a20 a21 a22 a23 a24 a25 a26 a27 a28)
  | _ => None
  end.
End Observation.

#[export] Instance Observation_dataclass : Dataclass Observation.t.
Proof.
  refine {| dataclass_fields := Observation.fields;
            field_values := Observation.values;
            make := Observation.of_values |}; dataclass_laws.
Defined.

(* ------------------------------------------------------------------ *)
(** ** Text files *)

(** [open(path, "r", encoding="utf-8-sig")]: the decoder drops one leading
    byte-order mark. *)
Definition decode_utf8_sig (file : pystr) : pystr :=
  match file with
  | c :: rest => if c =? BOM then rest else file
  | [] => []
  end.

(** The source passes no [newline] argument to [open], so a file read in
    text mode has universal newlines: CR LF and a lone CR both reach the
    program as LF. *)
Fixpoint universal_newlines (t : pystr) : pystr :=
  match t with
  | [] => []
  | c :: rest =>
      if c =? CR then
        LF :: match rest with
              | d :: rest' =>
                  if d =? LF then universal_newlines rest'
                  else universal_newlines rest
              | [] => []
              end
      else c :: universal_newlines rest
  end.

(** Iterating a text file: the lines, each with its closing LF (the last
    line may have none).  [cur] is the line being collected. *)
Fixpoint readlines_from (cur : pystr) (t : pystr) : list pystr :=
  match t with
  | [] => match cur with [] => [] | _ => [cur] end
  | c :: rest =>
      if c =? LF then (cur ++ [c]) :: readlines_from [] rest
      else readlines_from (cur ++ [c]) rest
  end.

Definition readlines (t : pystr) : list pystr := readlines_from [] t.

(** [os.linesep] on POSIX. *)
Definition os_linesep : pystr := [LF].

(** A surrogate code point: the UTF-8 encoder refuses it. *)
Definition is_surrogate (c : pychar) : bool :=
  (55296 <=? c) && (c <=? 57343).

(** [file.write(t)] on a file opened with [open(path, "w")], without
    [encoding] and without [newline]: every LF written becomes
    [os.linesep], and the text is encoded at once with the locale's
    encoding, UTF-8 on the platform of the model, which raises on a
    surrogate.  The result is the text that reaches the file. *)
Definition write_text (t : pystr) : result pystr :=
  if existsb is_surrogate t then Raise UnicodeEncodeError
  else Ok (flat_map (fun c => if c =? LF then os_linesep else [c]) t).

(* ------------------------------------------------------------------ *)
(** ** csv.reader with the excel dialect

    delimiter comma, quotechar the double quote, doublequote, no escapechar, no
    skipinitialspace, not strict, QUOTE_MINIMAL: the states of
    [parse_process_char] that need an escapechar are left out. *)

Inductive ParserState :=
| START_RECORD | START_FIELD | IN_FIELD | IN_QUOTED_FIELD
| QUOTE_IN_QUOTED_FIELD | EAT_CRNL.

Record ReaderObj := mkReader {
  state : ParserState;
  fields : list pystr;      (* the fields of the record read so far *)
  field : pystr             (* the field being collected *)
}.

(** [csv.field_size_limit()], by default. *)
Definition field_limit : N := 131072.

Definition parse_reset : ReaderObj := mkReader START_RECORD [] [].

Definition set_state (r : ReaderObj) (s : ParserState) : ReaderObj :=
  mkReader s (fields r) (field r).

Definition parse_save_field (r : ReaderObj) : ReaderObj :=
  mkReader (state r) (fields r ++ [field r]) [].

Definition parse_add_char (r : ReaderObj) (c : pychar) : result ReaderObj :=
  if field_limit <=? N.of_nat (length (field r)) then Raise CsvError
  else Ok (mkReader (state r) (fields r) (field r ++ [c])).

Definition is_newline (c : pychar) : bool := (c =? LF) || (c =? CR).

(** One step of the parser; [None] is the end-of-line mark the reader feeds
    after the last character of each line. *)
Definition parse_process_char (r : ReaderObj) (c : option pychar)
  : result ReaderObj :=
  let after_newline r :=
    set_state r (match c with None => START_RECORD | Some _ => EAT_CRNL end) in
  let at_newline :=
    match c with None => true | Some c => is_newline c end in
  let start_field r :=
    if at_newline then Ok (after_newline (parse_save_field r))
    else match c with
         | None => Ok r
         | Some c =>
             if c =? DQUOTE then Ok (set_state r IN_QUOTED_FIELD)
             else if c =? COMMA then Ok (parse_save_field r)
             else r' <- parse_add_char r c ;; Ok (set_state r' IN_FIELD)
         end in
  match state r with
  | START_RECORD =>
      match c with
      | None => Ok r
      | Some c' =>
          if is_newline c' then Ok (set_state r EAT_CRNL)
          else start_field (set_state r START_FIELD)
      end
  | START_FIELD => start_field r
  | IN_FIELD =>
      if at_newline then Ok (after_newline (parse_save_field r))
      else match c with
           | None => Ok r
           | Some c =>
               if c =? COMMA
               then Ok (set_state (parse_save_field r) START_FIELD)
               else parse_add_char r c
           end
  | IN_QUOTED_FIELD =>
      match c with
      | None => Ok r
      | Some c =>
          if c =? DQUOTE then Ok (set_state r QUOTE_IN_QUOTED_FIELD)
          else parse_add_char r c
      end
  | QUOTE_IN_QUOTED_FIELD =>
      match c with
      | None => Ok (after_newline (parse_save_field r))
      | Some c' =>
          if c' =? DQUOTE
          then r' <- parse_add_char r c' ;; Ok (set_state r' IN_QUOTED_FIELD)
          else if c' =? COMMA
          then Ok (set_state (parse_save_field r) START_FIELD)
          else if is_newline c'
          then Ok (after_newline (parse_save_field r))
          else r' <- parse_add_char r c' ;; Ok (set_state r' IN_FIELD)
      end
  | EAT_CRNL =>
      match c with
      | None => Ok (set_state r START_RECORD)
      | Some c => if is_newline c then Ok r else Raise CsvError
      end
  end.

(** The characters of one line, then the end-of-line mark. *)
Fixpoint parse_line (r : ReaderObj) (line : pystr) : result ReaderObj :=
  match line with
  | [] => parse_process_char r None
  | c :: line' => r' <- parse_process_char r (Some c) ;; parse_line r' line'
  end.

Definition state_eqb (a b : ParserState) : bool :=
  match a, b with
  | START_RECORD, START_RECORD | START_FIELD, START_FIELD
  | IN_FIELD, IN_FIELD | IN_QUOTED_FIELD, IN_QUOTED_FIELD
  | QUOTE_IN_QUOTED_FIELD, QUOTE_IN_QUOTED_FIELD | EAT_CRNL, EAT_CRNL => true
  | _, _ => false
  end.

(** Iterating the reader over the lines of a file.  [Reader_iternext] takes
    lines until the parser is back at START_RECORD and returns the fields; at
    the end of the input it returns a last record if one was left open.  The
    reader is lazy: the result is the rows it yields, in order, and the
    exception that ends the iteration if there is one. *)
Fixpoint reader_rows (r : ReaderObj) (lines : list pystr)
  : list (list pystr) * option PyExn :=
  match lines with
  | [] =>
      if negb (N.of_nat (length (field r)) =? 0)
         || state_eqb (state r) IN_QUOTED_FIELD
      then ([fields (parse_save_field r)], None)
      else ([], None)
  | line :: lines' =>
      match parse_line r line with
      | Raise e => ([], Some e)
      | Ok r' =>
          if state_eqb (state r') START_RECORD then
            let '(rows, e) := reader_rows parse_reset lines' in
            (fields r' :: rows, e)
          else reader_rows r' lines'
      end
  end.

Definition csv_reader (lines : list pystr) : list (list pystr) * option PyExn :=
  reader_rows parse_reset lines.

(* ------------------------------------------------------------------ *)
(** ** csv.DictReader *)

(** The [str]-keyed part of a row dict: a value is a cell's text, or
    [restval] = [None] for a field the row is too short for. *)
Definition cells_dict := list (pystr * option pystr).

(** [d[k] = v]: a key already present keeps its place. *)
Fixpoint dict_set (d : cells_dict) (k : pystr) (v : option pystr)
  : cells_dict :=
  match d with
  | [] => [(k, v)]
  | (k', v') :: d' =>
      if pystr_eqb k k' then (k', v) :: d'
      else (k', v') :: dict_set d' k v
  end.

Definition dict_update (d : cells_dict) (items : cells_dict) : cells_dict :=
  fold_left (fun d kv => dict_set d (fst kv) (snd kv)) items d.

(** A row as [DictReader.__next__] builds it: the named cells, and under the
    key [restkey] = [None] the cells beyond the header, if any. *)
Record RowDict := mkRowDict {
  named : cells_dict;
  rest : option (list pystr)
}.

Definition DictReader_row (fieldnames row : list pystr) : RowDict :=
  let d := dict_update [] (combine fieldnames (map Some row)) in
  let lf := length fieldnames in
  let lr := length row in
  if Nat.ltb lf lr then mkRowDict d (Some (skipn lf row))
  else mkRowDict
         (dict_update d (map (fun k => (k, None)) (skipn lr fieldnames)))
         None.

Definition cell_value (c : option pystr) : PyVal :=
  match c with
  | Some s => PyStr s
  | None => PyNone
  end.

(** [**row]: a key that is not a [str] (here: [None]) is a [TypeError]. *)
Definition unpack (row : RowDict) : result kwargs :=
  match rest row with
  | Some _ => Raise TypeError
  | None => Ok (map (fun kv => (fst kv, cell_value (snd kv))) (named row))
  end.

Definition is_blank (row : list pystr) : bool :=
  match row with [] => true | _ => false end.

(** [[cls( **row) for row in reader]] over the rows after the header:
    [DictReader] skips the rows that are [[]]; [err] is the exception, if
    any, that the underlying reader raises after the last of [data]. *)
Fixpoint construct_rows (T : Type) `{Dataclass T}
    (header : list pystr) (data : list (list pystr)) (err : option PyExn)
  : result (list T) :=
  match data with
  | [] => match err with Some e => Raise e | None => Ok [] end
  | row :: data' =>
      if is_blank row then construct_rows T header data' err
      else
        kw <- unpack (DictReader_row header row) ;;
        r <- init T kw ;;
        rs <- construct_rows T header data' err ;;
        Ok (r :: rs)
  end.

(** The raw rows of a file as the source opens it. *)
Definition file_rows (file : pystr) : list (list pystr) * option PyExn :=
  csv_reader (readlines (universal_newlines (decode_utf8_sig file))).

(** [from_csv]:
    [with open(file_path, "r", encoding="utf-8-sig") as file:
       reader = DictReader(file); return [cls( **row) for row in reader]].
    The first row the reader yields is the header. *)
Definition from_csv (T : Type) `{Dataclass T} (file : pystr)
  : result (list T) :=
  match file_rows file with
  | ([], err) => match err with Some e => Raise e | None => Ok [] end
  | (header :: data, err) => construct_rows T header data err
  end.

(* ------------------------------------------------------------------ *)
(** ** The text of a float

    [float.__repr__]: the shortest decimal digits that read back as the same
    binary64 value, laid out in fixed or in exponent notation.  The digits
    are computed on exact integers by the free-format algorithm of Steele
    and White: [r / s] is the value left to print, [mp / s] and [mm / s] the
    distances to the midpoints with the next and the previous float. *)

Section FloatRepr.

Local Open Scope Z_scope.

(** The power of ten above the value: [s] grows until [r + mp] is below. *)
Fixpoint scale_up (fuel : nat) (even : bool) (r s mp : Z) (k : Z) : Z * Z :=
  match fuel with
  | O => (s, k)
  | S fuel' =>
      if (if even then s <=? r + mp else s <? r + mp)
      then scale_up fuel' even r (s * 10) mp (k + 1)
      else (s, k)
  end.

(** The power of ten below the value, for a value below one. *)
Fixpoint scale_down (fuel : nat) (even : bool) (r s mp mm : Z) (k : Z)
  : Z * Z * Z * Z :=
  match fuel with
  | O => (r, mp, mm, k)
  | S fuel' =>
      if (if even then (r + mp) * 10 <? s else (r + mp) * 10 <=? s)
      then scale_down fuel' even (r * 10) s (mp * 10) (mm * 10) (k - 1)
      else (r, mp, mm, k)
  end.

(** The digits, until what is left identifies the float: the test of
    [dtoa.c] in mode 0.  [j] compares what is left with the distance to
    the float below, [j1] what is left plus the distance to the float above
    with one unit of the digit.  When both the digit and the next one
    identify the float, the nearer to the value is taken, and of two that
    are as near the even one. *)
Fixpoint generate (fuel : nat) (even : bool) (r s mp mm : Z) : list Z :=
  match fuel with
  | O => []
  | S fuel' =>
      let d := (r * 10) / s in
      let r' := (r * 10) mod s in
      let mp' := mp * 10 in
      let mm' := mm * 10 in
      let j := r' ?= mm' in
      let j1 := r' + mp' ?= s in
      match j1, even with
      | Eq, true => match j with Gt => [d + 1] | _ => [d] end
      | _, _ =>
          if match j with Lt => true | Eq => even | Gt => false end then
            match j1 with
            | Gt =>
                match r' * 2 ?= s with
                | Gt => [d + 1]
                | Eq => if Z.odd d then [d + 1] else [d]
                | Lt => [d]
                end
            | _ => [d]
            end
          else
            match j1 with
            | Gt => [d + 1]
            | _ => d :: generate fuel' even r' s mp' mm'
            end
      end
  end.

(** The digits of [m * 2 ^ e] and the place of the decimal point: the value
    is [0.d1 d2 ...] times ten to the second component. *)
Definition shortest_digits (m : positive) (e : Z) : list Z * Z :=
  let f := Z.pos m in
  let even := Z.even f in
  let boundary := (f =? 2 ^ 52) && negb (e =? -1074) in
  let '(r, s, mp, mm) :=
    if 0 <=? e then
      if boundary then (f * 2 ^ (e + 1) * 2, 4, 2 ^ (e + 1), 2 ^ e)
      else (f * 2 ^ e * 2, 2, 2 ^ e, 2 ^ e)
    else
      if boundary then (f * 4, 2 ^ (- e + 1) * 2, 2, 1)
      else (f * 2, 2 ^ (- e) * 2, 1, 1) in
  let '(s1, k1) := scale_up 400 even r s mp 0 in
  let '(r2, mp2, mm2, k2) := scale_down 400 even r s1 mp mm k1 in
  (generate 30 even r2 s1 mp2 mm2, k2).

Definition digit_char (d : Z) : pychar := Z.to_N (48 + d).

Definition zeros (n : Z) : pystr := repeat 48%N (Z.to_nat n).

(** The layout of [repr]: exponent notation when the decimal point is more
    than sixteen places to the right or more than three to the left of the
    first digit, with an exponent of two digits at least; fixed notation
    otherwise, with [.0] after a whole number. *)
Definition format_repr (neg : bool) (ds : list Z) (decpt : Z) : pystr :=
  let n := Z.of_nat (length ds) in
  let body :=
    if (decpt <=? -4) || (16 <? decpt) then
      let ex := decpt - 1 in
      let exs := u (NilZero.string_of_uint (N.to_uint (Z.to_N (Z.abs ex)))) in
      let exs := if Z.abs ex <? 10 then 48%N :: exs else exs in
      match ds with
      | [] => []
      | d :: rest =>
          [digit_char d]
          ++ match rest with
             | [] => []
             | _ => 46%N :: map digit_char rest
             end
          ++ [101%N] ++ (if ex <? 0 then [45%N] else [43%N]) ++ exs
      end
    else if decpt <=? 0
    then u "0." ++ zeros (- decpt) ++ map digit_char ds
    else if n <=? decpt
    then map digit_char ds ++ zeros (decpt - n) ++ u ".0"
    else map digit_char (firstn (Z.to_nat decpt) ds) ++ [46%N]
         ++ map digit_char (skipn (Z.to_nat decpt) ds) in
  (if neg then [45%N] else []) ++ body.

(** [repr(x)], which is also [str(x)]. *)
Definition float_repr (x : float) : pystr :=
  match Prim2SF x with
  | S754_nan => u "nan"
  | S754_infinity s => if s then u "-inf" else u "inf"
  | S754_zero s => if s then u "-0.0" else u "0.0"
  | S754_finite s m e =>
      let '(ds, k) := shortest_digits m e in format_repr s ds k
  end.

End FloatRepr.

(* ------------------------------------------------------------------ *)
(** ** csv.writer and csv.DictWriter with the excel dialect *)

(** [sys.get_int_max_str_digits()], by default (CPython 3.11). *)
Definition int_max_str_digits : N := 4300.

(** [str(z)] for an [int]: the decimal digits, with a minus sign before
    them for a negative number; a number of more digits than the limit is a
    [ValueError]. *)
Definition int_str (z : Z) : result pystr :=
  let text := u (NilZero.string_of_int (Z.to_int z)) in
  let digits := N.of_nat (length text) - (if (z <? 0)%Z then 1 else 0) in
  if int_max_str_digits <? digits then Raise ValueError else Ok text.

(** [str(v)]. *)
Definition py_str (v : PyVal) : result pystr :=
  match v with
  | PyNone => Ok (u "None")
  | PyStr s => Ok s
  | PyBool true => Ok (u "True")
  | PyBool false => Ok (u "False")
  | PyInt z => int_str z
  | PyFloat f => Ok (float_repr f)
  | PyEnum m =>
      Ok (u (enum_class_name (enum_class m)) ++ u "."
            ++ u (fst (enum_name_value m)))
  end.

(** The text [writerow] takes for one field: the characters of a [str]
    (a member of a [str]-derived enumeration is one, and its characters
    are its value), nothing for [None], [str(v)] for the rest. *)
Definition csv_field (v : PyVal) : result pystr :=
  match v with
  | PyNone => Ok []
  | PyStr s => Ok s
  | PyEnum m =>
      if enum_is_str (enum_class m) then Ok (u (snd (enum_name_value m)))
      else py_str v
  | _ => py_str v
  end.

(** QUOTE_MINIMAL: a field is quoted when it holds the delimiter, the
    quotechar or a character of the lineterminator CR LF. *)
Definition special (c : pychar) : bool :=
  (c =? COMMA) || (c =? DQUOTE) || (c =? CR) || (c =? LF).

Definition needs_quotes (s : pystr) : bool := existsb special s.

(** doublequote: a quotechar inside a field is written twice. *)
Definition double_quotes (s : pystr) : pystr :=
  flat_map (fun c => if c =? DQUOTE then [DQUOTE; DQUOTE] else [c]) s.

Definition join_append (s : pystr) : pystr :=
  if needs_quotes s then DQUOTE :: double_quotes s ++ [DQUOTE] else s.

Definition lineterminator : pystr := [CR; LF].

(** [writer.writerow(cells)]: a record that would be empty although it has
    a field (one empty field) is written as a pair of quotes. *)
Definition writer_writerow (cells : list pystr) : pystr :=
  let rec := join [COMMA] (map join_append cells) in
  match cells, rec with
  | _ :: _, [] => [DQUOTE; DQUOTE] ++ lineterminator
  | _, _ => rec ++ lineterminator
  end.

(** [DictWriter._dict_to_list] with [extrasaction="raise"] and the empty
    [str] as [restval]. *)
Definition dict_to_list (fieldnames : list pystr) (rowdict : kwargs)
  : result (list PyVal) :=
  if forallb (fun k => mem k fieldnames) (map fst rowdict)
  then Ok (map (fun k => match lookup k rowdict with
                         | Some v => v
                         | None => PyStr []
                         end) fieldnames)
  else Raise ValueError.

(** [DictWriter.writerow(rowdict)]: the fields are turned into text one
    after the other, then the row is written to the file.  The result is
    the text that reaches the file. *)
Definition DictWriter_writerow (fieldnames : list pystr) (rowdict : kwargs)
  : result pystr :=
  vs <- dict_to_list fieldnames rowdict ;;
  cells <- mapM csv_field vs ;;
  write_text (writer_writerow cells).

(** [writeheader]: the row [dict(zip(fieldnames, fieldnames))]. *)
Definition DictWriter_writeheader (fieldnames : list pystr)
  : result pystr :=
  DictWriter_writerow fieldnames
    (combine fieldnames (map PyStr fieldnames)).

(** [to_csv]:
    [with open(file_path, "w") as file:
       writer = DictWriter(file, fieldnames=cls.__dataclass_fields__.keys())
       writer.writeheader()
       writer.writerows([asdict(m) for m in records])].
    The result is the content of the file afterwards, as text. *)
Definition to_csv {T : Type} `{Dataclass T} (records : list T)
  : result pystr :=
  header <- DictWriter_writeheader (fieldnames T) ;;
  rows <- mapM (fun r => DictWriter_writerow (fieldnames T) (asdict r))
               records ;;
  Ok (header ++ concat rows).


(* ------------------------------------------------------------------ *)
(** ** pandas.DataFrame

    The part of pandas (1.x, 2.x) the two table methods go through: building
    a frame from a list of dicts, with the column typing that construction
    applies, and [iterrows].  Column labels are [str]. *)

Inductive DType := Object | Float64 | Int64 | BoolDType.

(** A frame: its typed columns, and its rows (one cell per column). *)
Record DataFrame := mkDataFrame {
  columns : list (pystr * DType);
  rows : list (list PyVal)
}.

(** The binary64 value nearest to an integer. *)
Definition float_of_Z (z : Z) : float :=
  SF2Prim (binary_normalize prec emax z 0 false).

Definition in_int64 (z : Z) : bool :=
  ((- 2 ^ 63 <=? z) && (z <? 2 ^ 63))%Z.

(** What the type inference sees in a cell.  A [str] and an enumeration
    member are plain objects.  An integer is followed within int64 only
    ([within_int64] below): outside it pandas decides between uint64,
    float64 and object by the other cells of the column and their order,
    which [is_object] does not follow; the properties of tables that admit
    integers take [within_int64] as a hypothesis. *)
Definition is_null (v : PyVal) : bool :=
  match v with PyNone => true | _ => false end.
Definition is_bool (v : PyVal) : bool :=
  match v with PyBool _ => true | _ => false end.
Definition is_int (v : PyVal) : bool :=
  match v with PyInt _ => true | _ => false end.
Definition is_float (v : PyVal) : bool :=
  match v with PyFloat _ => true | _ => false end.
Definition is_object (v : PyVal) : bool :=
  match v with
  | PyStr _ | PyEnum _ => true
  | PyInt z => negb (in_int64 z)
  | _ => false
  end.

(** The field values the type inference is followed on: every value but an
    [int] outside int64. *)
Definition within_int64 (v : PyVal) : bool :=
  match v with
  | PyInt z => in_int64 z
  | _ => true
  end.

(** The dtype a column of Python objects is given
    ([lib.maybe_convert_objects]): numbers with a missing value among them
    become float64, booleans with anything else stay objects. *)
Definition infer_dtype (col : list PyVal) : DType :=
  if existsb is_object col then Object
  else if existsb is_bool col
  then (if forallb is_bool col then BoolDType else Object)
  else if existsb is_float col then Float64
  else if existsb is_int col
  then (if existsb is_null col then Float64 else Int64)
  else Object.

(** Storing a cell in a float64 array: [None] becomes NaN, an integer its
    nearest float. *)
Definition to_float64 (v : PyVal) : PyVal :=
  match v with
  | PyNone => PyFloat nan
  | PyInt z => PyFloat (float_of_Z z)
  | _ => v
  end.

Definition store (dt : DType) (v : PyVal) : PyVal :=
  match dt with
  | Float64 => to_float64 v
  | _ => v
  end.

(** The union of the dicts' keys, in order of first appearance. *)
Definition add_key (acc : list pystr) (k : pystr) : list pystr :=
  if mem k acc then acc else acc ++ [k].

Definition union_keys (dicts : list kwargs) : list pystr :=
  fold_left (fun acc d => fold_left add_key (map fst d) acc) dicts [].

(** A key a dict lacks reads as NaN. *)
Definition dict_cell (k : pystr) (d : kwargs) : PyVal :=
  match lookup k d with
  | Some v => v
  | None => PyFloat nan
  end.

(** [DataFrame(dicts)]. *)
Definition DataFrame_of_dicts (dicts : list kwargs) : DataFrame :=
  let cols :=
    map (fun k => (k, infer_dtype (map (dict_cell k) dicts)))
        (union_keys dicts) in
  mkDataFrame cols
    (map (fun d => map (fun c => store (snd c) (dict_cell (fst c) d)) cols)
         dicts).

(** The dtype of [frame.values], the array [iterrows] cuts its rows from:
    the columns' own if they agree, float64 for integers with floats, object
    otherwise. *)
Definition dtype_eqb (a b : DType) : bool :=
  match a, b with
  | Object, Object | Float64, Float64 | Int64, Int64
  | BoolDType, BoolDType => true
  | _, _ => false
  end.

Definition is_numeric_dtype (d : DType) : bool :=
  match d with Float64 | Int64 => true | _ => false end.

Definition common_dtype (dts : list DType) : DType :=
  match dts with
  | [] => Object
  | d :: ds =>
      if forallb (dtype_eqb d) ds then d
      else if forallb is_numeric_dtype dts then Float64
      else Object
  end.

(** [frame.iterrows()]: each row as a Series, here the items of the mapping
    that [**row] unpacks. *)
Definition iterrows (df : DataFrame) : list kwargs :=
  let dt := common_dtype (map snd (columns df)) in
  map (fun row => combine (map fst (columns df)) (map (store dt) row))
      (rows df).

(** [to_pandas]: [DataFrame([r.__dict__ for r in records])] in deployments.py
    and observations.py, [DataFrame([asdict(m) for m in media])] in
    media.py. *)
Definition to_pandas {T : Type} `{Dataclass T} (records : list T)
  : DataFrame :=
  DataFrame_of_dicts (map instance_dict records).

(** [from_pandas]: [[cls( **row) for index, row in dataframe.iterrows()]]. *)
Definition from_pandas (T : Type) `{Dataclass T} (df : DataFrame)
  : result (list T) :=
  mapM (init T) (iterrows df).

(* ------------------------------------------------------------------ *)
(** ** The package root, __init__.py

    A second [Deployment] dataclass whose two conversion methods are plain
    functions without parameters. *)
Module Root.
Definition fields : list (string * Annotation) :=
  [ ("deploymentID", required TStr);
    ("locationID", optional TStr);
    ("locationName", optional TStr);
    ("latitude", required TFloat);
    ("longitude", required TFloat);
    ("coordinateUncertainty", optional TFloat);
    ("deploymentStart", required TStr);
    ("deploymentEnd", required TStr);
    ("setupBy", optional TStr);
    ("cameraID", optional TStr);
    ("cameraModel", optional TStr);
    ("cameraDelay", optional TInt);
    ("cameraHeight", optional TFloat);
    ("cameraDepth", optional TFloat);
    ("cameraTilt", optional TInt);
    ("cameraHeading", optional TInt);
    ("detectionDistance", optional TFloat);
    ("timestampIssues", optional TBool);
    ("baitUse", optional TBool);
    ("featureType", optional (TEnum EFeatureType));
    ("habitatType", optional TStr);
    ("deploymentGroups", optional TStr);
    ("deploymentTags", optional TStr);
    ("deploymentComments", optional TStr) ].

(** How a method is reached: [Deployment.from_csv(...)] on the class, or
    [d.from_csv(...)] on an instance, which passes [d] first. *)
Inductive Receiver := OnClass | OnInstance.

(** The positional arguments that reach the function. *)
Definition passed (rcv : Receiver) (args : list PyVal) : nat :=
  match rcv with
  | OnClass => length args
  | OnInstance => S (length args)
  end.

(** Calling [def f(): body]: any argument is a [TypeError], raised
    before the body runs. *)
Definition call_nullary {A} (body : result A)
    (rcv : Receiver) (args : list PyVal) : result A :=
  match passed rcv args with
  | O => body
  | S _ => Raise TypeError
  end.

(** [def from_csv(): raise NotImplementedError]. *)
Definition from_csv : Receiver -> list PyVal -> result (list PyVal) :=
  call_nullary (Raise NotImplementedError).

(** [def to_csv(): raise NotImplementedError]. *)
Definition to_csv : Receiver -> list PyVal -> result pystr :=
  call_nullary (Raise NotImplementedError).
End Root.

(* ------------------------------------------------------------------ *)
(** ** The three record kinds *)

Inductive Kind := KDeployment | KMedia | KObservation.

Definition record (k : Kind) : Type :=
  match k with
  | KDeployment => Deployment.t
  | KMedia => Media.t
  | KObservation => Observation.t
  end.

#[export] Instance record_dataclass (k : Kind) : Dataclass (record k) :=
  match k with
  | KDeployment => Deployment_dataclass
  | KMedia => Media_dataclass
  | KObservation => Observation_dataclass
  end.

(** The value of the field called [name], if the class has it. *)
Definition getattr {T : Type} `{Dataclass T} (r : T) (name : pystr)
  : option PyVal :=
  lookup name (instance_dict r).

(* ------------------------------------------------------------------ *)
(** ** Vocabulary of the specification *)

(** A text the specification calls well formed for a class: the reader
    yields a header and data rows without error, the header names each field
    of the class once and nothing else (in any order), and every data row
    has as many cells as the header. *)
Definition well_formed (T : Type) `{Dataclass T} (file : pystr) : Prop :=
  exists header data,
    file_rows file = (header :: data, None)
    /\ NoDup header
    /\ (forall name, In name header <-> In name (fieldnames T))
    /\ Forall (fun row => length row = length header) data.

(** The header and the data rows of a well-formed text. *)
Definition header_of (file : pystr) : list pystr :=
  hd [] (fst (file_rows file)).

Definition data_rows (file : pystr) : list (list pystr) :=
  tl (fst (file_rows file)).

(** Texts that the coercion of section 4.2 of the specification accepts. *)
Definition is_digit (c : pychar) : bool := (48 <=? c) && (c <=? 57).

Definition is_space (c : pychar) : bool :=
  (c =? 32) || ((9 <=? c) && (c <=? 13)).

Fixpoint lstrip (s : pystr) : pystr :=
  match s with
  | c :: s' => if is_space c then lstrip s' else s
  | [] => []
  end.

Definition strip (s : pystr) : pystr := rev (lstrip (rev (lstrip s))).

(** Digits, with single underscores between them. *)
Fixpoint digits_from (seen_digit : bool) (s : pystr) : bool :=
  match s with
  | [] => seen_digit
  | c :: s' =>
      if is_digit c then digits_from true s'
      else (c =? 95) && seen_digit
           && match s' with d :: _ => is_digit d | [] => false end
           && digits_from false s'
  end.

Definition digits (s : pystr) : bool := digits_from false s.

Definition unsigned (s : pystr) : pystr :=
  match s with
  | c :: s' => if (c =? 43) || (c =? 45) then s' else s
  | [] => []
  end.

(** What [int(s)] accepts. *)
Definition int_text (s : pystr) : bool := digits (unsigned (strip s)).

Fixpoint split_at (p : pychar -> bool) (s : pystr) : pystr * option pystr :=
  match s with
  | [] => ([], None)
  | c :: s' =>
      if p c then ([], Some s')
      else let '(a, b) := split_at p s' in (c :: a, b)
  end.

Definition lower (c : pychar) : pychar :=
  if (65 <=? c) && (c <=? 90) then c + 32 else c.

(** What [float(s)] accepts. *)
Definition float_text (s : pystr) : bool :=
  let body := unsigned (strip s) in
  let word := map lower body in
  if mem word [u "inf"; u "infinity"; u "nan"] then true
  else
    let '(mantissa, exponent) :=
      split_at (fun c => (c =? 101) || (c =? 69)) body in
    let '(whole, fraction) := split_at (fun c => c =? 46) mantissa in
    match fraction with
    | None => digits whole
    | Some f =>
        match whole, f with
        | [], [] => false
        | [], _ => digits f
        | _, [] => digits whole
        | _, _ => digits whole && digits f
        end
    end
    && match exponent with
       | None => true
       | Some e => digits (unsigned e)
       end.

Definition bool_text (s : pystr) : bool :=
  mem s [u "True"; u "False"; u "true"; u "false"].

(** Whether the text of a cell can be coerced to the type a field is
    annotated with; an empty cell stands for an absent optional value. *)
Definition coercible (a : Annotation) (s : pystr) : bool :=
  (fst a && match s with [] => true | _ => false end)
  || match snd a with
     | TStr | TDict => true
     | TFloat => float_text s
     | TInt => int_text s
     | TBool => bool_text s
     | TEnum c => mem s (enum_values c)
     end.

(** The value bound to [p], or [None] when there is none. *)
Definition bound (kw : kwargs) (p : pystr) : PyVal :=
  match lookup p kw with
  | Some v => v
  | None => PyNone
  end.

(** The cells of a row under a header of [n] names, [None] where the row
    has no cell. *)
Definition padded (n : nat) (row : list pystr) : list (option pystr) :=
  map Some row ++ repeat None (n - length row).

(** The rows [DictReader] does not skip. *)
Definition nonblank (data : list (list pystr)) : list (list pystr) :=
  filter (fun row => negb (is_blank row)) data.

(** A field value read from [row]: the text of one of its cells as a
    [str], or [None]. *)
Definition raw_cell (row : list pystr) (v : PyVal) : Prop :=
  v = PyNone \/ exists s, v = PyStr s /\ In s row.

(** The record a data row becomes. *)
Definition row_record (T : Type) `{Dataclass T}
    (header row : list pystr) : result T :=
  kw <- unpack (DictReader_row header row) ;; init T kw.

(** Each field of [r] named in [header] holds the cell of [row] under that
    name as a [str], and [None] where the row ends before that column. *)
Definition cells_under_names {T : Type} `{Dataclass T}
    (header row : list pystr) (r : T) : Prop :=
  forall i name,
    nth_error header i = Some name ->
    getattr r name = Some (cell_value (nth_error row i)).

(** Every field of [r] holds raw text of [row] or [None]; when no name is
    repeated in [header], the text is that of the cell under the field's
    name. *)
Definition bound_to_raw_cells {T : Type} `{Dataclass T}
    (header row : list pystr) (r : T) : Prop :=
  Forall (raw_cell row) (field_values r)
  /\ (NoDup header -> cells_under_names header row r).

(* ------------------------------------------------------------------ *)
(** ** The reader, character by character *)

(** The parser fed the characters of [s], without an end-of-line mark. *)
Fixpoint feed (r : ReaderObj) (s : pystr) : result ReaderObj :=
  match s with
  | [] => Ok r
  | c :: s' => r' <- parse_process_char r (Some c) ;; feed r' s'
  end.

(** What the reader yields when the input ends. *)
Definition at_end (r : ReaderObj) : list (list pystr) * option PyExn :=
  if negb (N.of_nat (length (field r)) =? 0)
     || state_eqb (state r) IN_QUOTED_FIELD
  then ([fields (parse_save_field r)], None)
  else ([], None).

(** The reader over a text whose lines all end in LF, without cutting the
    text into lines first: the end-of-line mark follows each LF. *)
Fixpoint stream (r : ReaderObj) (t : pystr)
  : list (list pystr) * option PyExn :=
  match t with
  | [] => at_end r
  | c :: t' =>
      match parse_process_char r (Some c) with
      | Raise e => ([], Some e)
      | Ok r1 =>
          if c =? LF then
            match parse_process_char r1 None with
            | Raise e => ([], Some e)
            | Ok r2 =>
                if state_eqb (state r2) START_RECORD then
                  let '(rows, e) := stream parse_reset t' in
                  (fields r2 :: rows, e)
                else stream r2 t'
            end
          else stream r1 t'
      end
  end.

(** A text that is empty or ends in LF. *)
Definition ends_lines (t : pystr) : Prop :=
  t = [] \/ exists a, t = a ++ [LF].

(** A cell that comes back from a file as it is: no carriage return in it,
    and no longer than the reader's field limit. *)
Definition no_cr (s : pystr) : bool := forallb (fun c => negb (c =? CR)) s.

Definition fits (s : pystr) : bool :=
  N.of_nat (length s) <=? field_limit.

Definition cell_ok (s : pystr) : bool := no_cr s && fits s.

(** One row of a file read with universal newlines. *)
Definition read_row (cells : list pystr) : pystr :=
  join [COMMA] (map join_append cells) ++ [LF].

(** The text [to_csv] takes for a field value, where it takes one. *)
Definition cell_text (v : PyVal) : pystr :=
  match csv_field v with
  | Ok s => s
  | Raise _ => []
  end.

(** The texts [to_csv] takes for the fields of a record, before quoting. *)
Definition cell_texts {T : Type} `{Dataclass T} (r : T) : list pystr :=
  map cell_text (field_values r).

(** A text the file's encoder takes. *)
Definition encodable (s : pystr) : bool := negb (existsb is_surrogate s).


(** A field value [to_csv] can write: it has a text, and the encoder takes
    the text. *)
Definition writable_value (v : PyVal) : bool :=
  match csv_field v with
  | Ok s => encodable s
  | Raise _ => false
  end.

(** A record [to_csv] can write. *)
Definition writable {T : Type} `{Dataclass T} (r : T) : bool :=
  forallb writable_value (field_values r).

(* ------------------------------------------------------------------ *)
(** ** Sample data *)

Definition media_header : pystr :=
  u "mediaID,deploymentID,captureMethod,timestamp,filePath,filePublic,fileName,fileMediatype,exifData,favorite,mediaComments".

(** A media record with typed fields, and the file [to_csv] writes for it. *)
Definition media_typed : Media.t :=
  Media.mk (PyStr (u "m1")) (PyStr (u "d1")) PyNone
    (PyStr (u "2020-07-01T10:00:00Z")) (PyStr (u "m1.jpg")) (PyBool true)
    PyNone (PyStr (u "image/jpeg")) PyNone (PyBool false) PyNone.

Definition media_typed_file : pystr :=
  media_header ++ [CR; LF]
  ++ u "m1,d1,,2020-07-01T10:00:00Z,m1.jpg,True,,image/jpeg,,False,"
  ++ [CR; LF].

(** A media record whose comment has a line break in it, as typed on
    Windows; the file [to_csv] writes for it; the record [from_csv] reads
    from that file; the file [to_csv] writes for the record read. *)
Definition media_two_lines : Media.t :=
  Media.mk (PyStr (u "m1")) (PyStr (u "d1")) (PyStr (u "timeLapse"))
    (PyStr (u "2020-07-01T10:00:00Z")) (PyStr (u "m1.jpg")) (PyStr (u "true"))
    (PyStr []) (PyStr (u "image/jpeg")) (PyStr []) (PyStr [])
    (PyStr (u "fox" ++ [CR; LF] ++ u "at dusk")).

Definition media_two_lines_file : pystr :=
  media_header ++ [CR; LF]
  ++ u "m1,d1,timeLapse,2020-07-01T10:00:00Z,m1.jpg,true,,image/jpeg,,,"
  ++ [DQUOTE] ++ u "fox" ++ [CR; LF] ++ u "at dusk" ++ [DQUOTE]
  ++ [CR; LF].

Definition media_two_lines_read : Media.t :=
  Media.mk (PyStr (u "m1")) (PyStr (u "d1")) (PyStr (u "timeLapse"))
    (PyStr (u "2020-07-01T10:00:00Z")) (PyStr (u "m1.jpg")) (PyStr (u "true"))
    (PyStr []) (PyStr (u "image/jpeg")) (PyStr []) (PyStr [])
    (PyStr (u "fox" ++ [LF] ++ u "at dusk")).

Definition media_two_lines_rewritten : pystr :=
  media_header ++ [CR; LF]
  ++ u "m1,d1,timeLapse,2020-07-01T10:00:00Z,m1.jpg,true,,image/jpeg,,,"
  ++ [DQUOTE] ++ u "fox" ++ [LF] ++ u "at dusk" ++ [DQUOTE]
  ++ [CR; LF].

(** A media file whose only data row stops after two cells, and the record
    read from it. *)
Definition media_short_file : pystr :=
  media_header ++ [CR; LF] ++ u "m1,d1" ++ [CR; LF].

Definition media_short_read : Media.t :=
  Media.mk (PyStr (u "m1")) (PyStr (u "d1")) PyNone PyNone PyNone PyNone
    PyNone PyNone PyNone PyNone PyNone.

(** A media file whose header spells one column differently. *)
Definition media_renamed_file : pystr :=
  u "mediaID,deploymentID,captureMethod,timestamp,filePath,filePublic,fileName,fileMediatype,exifData,favourite,mediaComments"
  ++ [CR; LF]
  ++ u "m1,d1,,2020-07-01T10:00:00Z,m1.jpg,true,,image/jpeg,,,"
  ++ [CR; LF].

(** The same header without any data row. *)
Definition media_renamed_header_only : pystr :=
  u "mediaID,deploymentID,captureMethod,timestamp,filePath,filePublic,fileName,fileMediatype,exifData,favourite,mediaComments"
  ++ [CR; LF].

(** A media file with a data row of twelve cells. *)
Definition media_long_file : pystr :=
  media_header ++ [CR; LF]
  ++ u "m1,d1,,2020-07-01T10:00:00Z,m1.jpg,true,,image/jpeg,,,,extra"
  ++ [CR; LF].

(** A deployment file whose cells under [latitude] (a float), under
    [timestampIssues] (a boolean) and under [featureType] (an enumeration)
    cannot be coerced, and the record read from it. *)
Definition deployment_header : pystr :=
  u "deploymentID,locationID,locationName,latitude,longitude,coordinateUncertainty,deploymentStart,deploymentEnd,setupBy,cameraID,cameraModel,cameraDelay,cameraHeight,cameraDepth,cameraTilt,cameraHeading,detectionDistance,timestampIssues,baitUse,featureType,habitat,deploymentGroups,deploymentTags,deploymentComments".

Definition deployment_untyped_file : pystr :=
  deployment_header ++ [CR; LF]
  ++ u "d1,,,north,4.5,,2020-07-01T10:00:00Z,2020-08-01T10:00:00Z,,,,,,,,,,perhaps,,volcano,,,,"
  ++ [CR; LF].

Definition deployment_untyped_read : Deployment.t :=
  Deployment.mk (PyStr (u "d1")) (PyStr []) (PyStr []) (PyStr (u "north"))
    (PyStr (u "4.5")) (PyStr []) (PyStr (u "2020-07-01T10:00:00Z"))
    (PyStr (u "2020-08-01T10:00:00Z")) (PyStr []) (PyStr []) (PyStr [])
    (PyStr []) (PyStr []) (PyStr []) (PyStr []) (PyStr []) (PyStr [])
    (PyStr (u "perhaps")) (PyStr []) (PyStr (u "volcano")) (PyStr [])
    (PyStr []) (PyStr []) (PyStr []).

(** A table with the columns of a media record but [mediaID], with one row
    and with none. *)
Definition media_columns_without_id : list (pystr * DType) :=
  map (fun name => (name, Object)) (tl (fieldnames Media.t)).

Definition media_frame_without_id : DataFrame :=
  mkDataFrame media_columns_without_id
    [tl (field_values media_two_lines_read)].

Definition media_frame_without_id_empty : DataFrame :=
  mkDataFrame media_columns_without_id [].

(** Two deployments, the first without a coordinate uncertainty, the second
    with one; and the first as it comes back from the table. *)
Definition deployment_plain : Deployment.t :=
  Deployment.mk (PyStr (u "d1")) PyNone PyNone (PyFloat 52.5) (PyFloat 4.5)
    PyNone (PyStr (u "2020-07-01T10:00:00Z"))
    (PyStr (u "2020-08-01T10:00:00Z")) PyNone PyNone PyNone PyNone PyNone
    PyNone PyNone PyNone PyNone PyNone PyNone PyNone PyNone PyNone PyNone
    PyNone.

Definition deployment_uncertain : Deployment.t :=
  Deployment.mk (PyStr (u "d2")) PyNone PyNone (PyFloat 52.5) (PyFloat 4.5)
    (PyFloat 1.5) (PyStr (u "2020-07-01T10:00:00Z"))
    (PyStr (u "2020-08-01T10:00:00Z")) PyNone PyNone PyNone PyNone PyNone
    PyNone PyNone PyNone PyNone PyNone PyNone PyNone PyNone PyNone PyNone
    PyNone.

Definition deployment_plain_back : Deployment.t :=
  Deployment.mk (PyStr (u "d1")) PyNone PyNone (PyFloat 52.5) (PyFloat 4.5)
    (PyFloat nan) (PyStr (u "2020-07-01T10:00:00Z"))
    (PyStr (u "2020-08-01T10:00:00Z")) PyNone PyNone PyNone PyNone PyNone
    PyNone PyNone PyNone PyNone PyNone PyNone PyNone PyNone PyNone PyNone
    PyNone.

(** A deployment with a camera delay, a flag and a feature type. *)
Definition deployment_delayed : Deployment.t :=
  Deployment.mk (PyStr (u "d3")) PyNone PyNone (PyFloat 52.5) (PyFloat 4.5)
    PyNone (PyStr (u "2020-07-01T10:00:00Z"))
    (PyStr (u "2020-08-01T10:00:00Z")) PyNone PyNone PyNone (PyInt 30)
    PyNone PyNone PyNone PyNone PyNone (PyBool true) PyNone
    (PyEnum (MFeatureType CULVERT)) PyNone PyNone PyNone
    PyNone.

(** The field list of deployments.py with [habitat] renamed. *)
Definition rename_habitat (f : string * Annotation) : string * Annotation :=
  if String.eqb (fst f) "habitat" then ("habitatType", snd f) else f.

(** The file [to_csv] writes for the two deployments. *)
Definition deployments_typed_file : pystr :=
  deployment_header ++ [CR; LF]
  ++ u "d1,,,52.5,4.5,,2020-07-01T10:00:00Z,2020-08-01T10:00:00Z,,,,,,,,,,,,,,,,"
  ++ [CR; LF]
  ++ u "d2,,,52.5,4.5,1.5,2020-07-01T10:00:00Z,2020-08-01T10:00:00Z,,,,,,,,,,,,,,,,"
  ++ [CR; LF].

(** A text one character longer than the reader's field limit, and a media
    record that has it as its comment. *)
Definition long_text_prefix : pystr := repeat 122 (N.to_nat field_limit).

Definition long_text : pystr := long_text_prefix ++ [122].

Definition media_long_comment : Media.t :=
  Media.mk (PyStr (u "m1")) (PyStr (u "d1")) (PyStr (u "timeLapse"))
    (PyStr (u "2020-07-01T10:00:00Z")) (PyStr (u "m1.jpg")) (PyStr (u "true"))
    (PyStr []) (PyStr (u "image/jpeg")) (PyStr []) (PyStr [])
    (PyStr long_text).

(** The file written for the media record with typed fields followed by
    the one with the long comment. *)
Definition media_long_comment_file : pystr :=
  media_typed_file
  ++ u "m1,d1,timeLapse,2020-07-01T10:00:00Z,m1.jpg,true,,image/jpeg,,,"
  ++ long_text ++ [CR; LF].



(** The text of one cell of a written row. *)
Definition written_cell (v : PyVal) : pystr :=
  join_append (cell_text v).

(** One written row. *)
Definition written_row (cells : list pystr) : pystr :=
  join [COMMA] cells ++ lineterminator.

(* ------------------------------------------------------------------ *)
(** ** camtrapdp/deployment.py

    The module's [Deployment] declares the fields of deployments.py, in the
    same order, so its instances are those of [Deployment.t].  Its methods
    differ in how they are written: [from_csv] opens the file without an
    [encoding] and collects the records in a loop, [to_csv] writes the
    records one by one from their [__dict__]. *)
Module deployment_py.

(** The raw rows of a file opened with [open(file_path, "r")]: the
    encoding is the locale's, UTF-8 on the platform of the model, whose
    decoder keeps a byte-order mark. *)
Definition file_rows (file : pystr) : list (list pystr) * option PyExn :=
  csv_reader (readlines (universal_newlines file)).

(** [for row in reader: deployments.append(Deployment( **row))]. *)
Fixpoint append_rows (deployments : list Deployment.t)
    (header : list pystr) (data : list (list pystr)) (err : option PyExn)
  : result (list Deployment.t) :=
  match data with
  | [] => match err with Some e => Raise e | None => Ok deployments end
  | row :: data' =>
      if is_blank row then append_rows deployments header data' err
      else
        kw <- unpack (DictReader_row header row) ;;
        deployment <- init Deployment.t kw ;;
        append_rows (deployments ++ [deployment]) header data' err
  end.

(** [from_csv]:
    [deployments = []
     with open(file_path, "r") as file:
       reader = DictReader(file)
       for row in reader: deployments.append(Deployment( **row))
     return deployments]. *)
Definition from_csv (file : pystr) : result (list Deployment.t) :=
  match file_rows file with
  | ([], err) => match err with Some e => Raise e | None => Ok [] end
  | (header :: data, err) => append_rows [] header data err
  end.

(** [for deployment in observations: writer.writerow(deployment.__dict__)];
    [written] is the content of the file so far. *)
Fixpoint writerow_each (written : pystr) (observations : list Deployment.t)
  : result pystr :=
  match observations with
  | [] => Ok written
  | deployment :: rest =>
      line <- DictWriter_writerow (fieldnames Deployment.t)
                (instance_dict deployment) ;;
      writerow_each (written ++ line) rest
  end.

(** [to_csv]:
    [with open(file_path, "w") as file:
       writer = DictWriter(file, fieldnames=...)
       writer.writeheader()
       for deployment in observations: writer.writerow(deployment.__dict__)]. *)
Definition to_csv (observations : list Deployment.t) : result pystr :=
  header <- DictWriter_writeheader (fieldnames Deployment.t) ;;
  writerow_each header observations.

(** [to_pandas]: [DataFrame([d.__dict__ for d in observations])]. *)
Definition to_pandas (observations : list Deployment.t) : DataFrame :=
  DataFrame_of_dicts (map instance_dict observations).

(** [for index, row in dataframe.iterrows():
       deployments.append(Deployment( **row))]. *)
Fixpoint append_series (deployments : list Deployment.t)
    (series : list kwargs) : result (list Deployment.t) :=
  match series with
  | [] => Ok deployments
  | row :: series' =>
      deployment <- init Deployment.t row ;;
      append_series (deployments ++ [deployment]) series'
  end.

Definition from_pandas (dataframe : DataFrame)
  : result (list Deployment.t) :=
  append_series [] (iterrows dataframe).

End deployment_py.

(* ------------------------------------------------------------------ *)
(** ** The test modules *)

(** [open(path, "r", encoding="utf-8-sig").read()]. *)
Definition read_text (file : pystr) : pystr :=
  universal_newlines (decode_utf8_sig file).

(** How a test opens the two files it compares:
    [open(path, "r", encoding="utf-8-sig")] in
    src/src/camtrapdp/test_deployment.py and test_observation.py,
    [open(path, "r")], which decodes with the locale's encoding (UTF-8) and
    keeps a byte-order mark as the first character, in
    src/camtrapdp/test_deployment.py, test_media.py and
    test_observation.py. *)
Inductive Encoding := utf_8_sig | locale.

Definition open_read (encoding : Encoding) (file : pystr) : pystr :=
  match encoding with
  | utf_8_sig => read_text file
  | locale => universal_newlines file
  end.

(** [test_write_to_csv] of these test modules, on the fixture with the
    content [fixture]: the records read from it with [from_csv] are written
    to a fresh file with [to_csv], and the test asserts that the two files,
    opened with [encoding], read the same as text.  [Ok true]: the
    assertion holds; [Ok false]: it fails. *)
Definition test_write_to_csv (T : Type) `{Dataclass T} (encoding : Encoding)
    (fixture : pystr) : result bool :=
  records <- from_csv T fixture ;;
  written <- to_csv records ;;
  Ok (pystr_eqb (open_read encoding fixture) (open_read encoding written)).

(** A cell as it comes back from a file: its line breaks are LF. *)
Definition read_back (cell : pystr) : pystr := universal_newlines cell.

(** A text whose first character is a byte-order mark. *)
Definition starts_with_bom (s : pystr) : bool :=
  match s with
  | c :: _ => c =? BOM
  | [] => false
  end.

(** The reader has the first field of a record in hand, or behind it, and
    that field starts with a byte-order mark. *)
Definition marked (r : ReaderObj) : Prop :=
  match fields r with
  | f :: _ => starts_with_bom f = true
  | [] => starts_with_bom (field r) = true /\ state r = IN_FIELD
  end.

(** What a field value may come back as from a table: itself, but for
    [None], which may be NaN, and an [int], which may be its nearest
    float. *)
Definition survives (v v' : PyVal) : Prop :=
  match v with
  | PyNone => v' = PyNone \/ v' = PyFloat nan
  | PyInt z => v' = PyInt z \/ v' = PyFloat (float_of_Z z)
  | _ => v' = v
  end.

(** A frame whose rows have one cell per column. *)
Definition rectangular (df : DataFrame) : Prop :=
  Forall (fun row => length row = length (columns df)) (rows df).

(** A media record taken by time lapse, and the file [to_csv] writes for
    it. *)
Definition media_time_lapse : Media.t :=
  Media.mk (PyStr (u "m1")) (PyStr (u "d1"))
    (PyEnum (MCaptureMethod TIME_LAPSE))
    (PyStr (u "2020-07-01T10:00:00Z")) (PyStr (u "m1.jpg")) (PyBool true)
    PyNone (PyStr (u "image/jpeg")) PyNone PyNone PyNone.

Definition media_time_lapse_file : pystr :=
  media_header ++ [CR; LF]
  ++ u "m1,d1,CaptureMethod.TIME_LAPSE,2020-07-01T10:00:00Z,m1.jpg,True,,image/jpeg,,,"
  ++ [CR; LF].

(** A media fixture with a byte-order mark and LF line ends, the record
    [from_csv] reads from it and the file [to_csv] writes for the
    record. *)
Definition media_fixture : pystr :=
  [BOM] ++ media_header ++ [LF]
  ++ u "m1,d1,timeLapse,2020-07-01T10:00:00Z,m1.jpg,true,,image/jpeg,,,"
  ++ [DQUOTE] ++ u "fox, at dusk" ++ [DQUOTE] ++ [LF].

Definition media_fixture_read : Media.t :=
  Media.mk (PyStr (u "m1")) (PyStr (u "d1")) (PyStr (u "timeLapse"))
    (PyStr (u "2020-07-01T10:00:00Z")) (PyStr (u "m1.jpg")) (PyStr (u "true"))
    (PyStr []) (PyStr (u "image/jpeg")) (PyStr []) (PyStr [])
    (PyStr (u "fox, at dusk")).

Definition media_fixture_written : pystr :=
  media_header ++ [CR; LF]
  ++ u "m1,d1,timeLapse,2020-07-01T10:00:00Z,m1.jpg,true,,image/jpeg,,,"
  ++ [DQUOTE] ++ u "fox, at dusk" ++ [DQUOTE] ++ [CR; LF].

(** A deployments fixture with a byte-order mark and LF line ends, and the
    same without the mark. *)
Definition deployment_fixture_text : pystr :=
  deployment_header ++ [LF]
  ++ u "d1,,,52.1,4.5,,2020-07-01T10:00:00Z,2020-08-01T10:00:00Z,,,,,,,,,,true,,culvert,,,,"
  ++ [DQUOTE] ++ u "oak, by the brook" ++ [DQUOTE] ++ [LF].

Definition deployment_fixture : pystr := BOM :: deployment_fixture_text.

Definition deployment_fixture_rows : list (list pystr) :=
  [[u "d1"; []; []; u "52.1"; u "4.5"; []; u "2020-07-01T10:00:00Z";
    u "2020-08-01T10:00:00Z"; []; []; []; []; []; []; []; []; [];
    u "true"; []; u "culvert"; []; []; []; u "oak, by the brook"]].

(** A table of one row with the columns of a media record. *)
Definition media_frame : DataFrame :=
  mkDataFrame (map (fun name => (name, Object)) (fieldnames Media.t))
    [field_values media_short_read].

(** The position of the last column called [name] in a header. *)
Fixpoint last_index (name : pystr) (header : list pystr) : option nat :=
  match header with
  | [] => None
  | h :: rest =>
      match last_index name rest with
      | Some i => Some (S i)
      | None => if pystr_eqb name h then Some 0%nat else None
      end
  end.

(** Each field of [r] named in [header] holds the cell of [row] under the
    last column of that name, and [None] where the row ends before it. *)
Definition cells_under_last_names {T : Type} `{Dataclass T}
    (header row : list pystr) (r : T) : Prop :=
  forall name i,
    last_index name header = Some i ->
    getattr r name = Some (cell_value (nth_error row i)).

(** A media file with a second [mediaID] column after the others, and the
    record read from it. *)
Definition media_repeated_file : pystr :=
  media_header ++ u ",mediaID" ++ [CR; LF]
  ++ u "m1,d1,,2020-07-01T10:00:00Z,m1.jpg,true,,image/jpeg,,,,m2"
  ++ [CR; LF].

Definition media_repeated_read : Media.t :=
  Media.mk (PyStr (u "m2")) (PyStr (u "d1")) (PyStr [])
    (PyStr (u "2020-07-01T10:00:00Z")) (PyStr (u "m1.jpg")) (PyStr (u "true"))
    (PyStr []) (PyStr (u "image/jpeg")) (PyStr []) (PyStr []) (PyStr []).

(** A file with a data row the constructor refuses: a row that is not
    blank under a header that does not name exactly the fields of the
    class, or a row longer than the header. *)
Definition refused (T : Type) `{Dataclass T} (file : pystr) : Prop :=
  (nonblank (data_rows file) <> []
   /\ ~ (forall name, In name (header_of file) <-> In name (fieldnames T)))
  \/ (exists row, In row (data_rows file)
                  /\ (length (header_of file) < length row)%nat).

(** The fields the reader has in hand hold no carriage return and are
    within the field limit. *)
Definition clean (r : ReaderObj) : Prop :=
  Forall (fun s => cell_ok s = true) (fields r) /\ cell_ok (field r) = true.

(** The fields the reader has in hand hold no surrogate. *)
Definition encodable_fields (r : ReaderObj) : Prop :=
  Forall (fun s => encodable s = true) (fields r)
  /\ encodable (field r) = true.

(* ================================================================== *)
(** * Properties *)

(** ** Names, lookups and keyword binding *)

Lemma pystr_eqb_eq (a b : pystr) : pystr_eqb a b = true <-> a = b.
Proof.
  revert b; induction a as [|x a IH]; intros [|y b]; simpl;
    try (split; [discriminate | intros E; discriminate E]);
    try (split; reflexivity).
  rewrite andb_true_iff, N.eqb_eq, IH. split.
  - intros [-> ->]; reflexivity.
  - intros E; injection E as -> ->; split; reflexivity.
Qed.

Lemma pystr_eqb_refl (a : pystr) : pystr_eqb a a = true.
Proof. apply pystr_eqb_eq; reflexivity. Qed.

Lemma pystr_eqb_neq (a b : pystr) : pystr_eqb a b = false <-> a <> b.
Proof.
  rewrite <- pystr_eqb_eq. destruct (pystr_eqb a b); split; congruence.
Qed.

Lemma mem_In (k : pystr) (l : list pystr) : mem k l = true <-> In k l.
Proof.
  induction l as [|x l IH]; simpl.
  - split; [discriminate | intros []].
  - rewrite orb_true_iff, IH, pystr_eqb_eq. split; intros [E | E]; auto.
Qed.

Lemma mem_not_In (k : pystr) (l : list pystr) : mem k l = false <-> ~ In k l.
Proof.
  rewrite <- mem_In. destruct (mem k l); split; congruence.
Qed.

Lemma nodupb_NoDup (l : list pystr) : nodupb l = true <-> NoDup l.
Proof.
  induction l as [|x l IH]; simpl.
  - split; [constructor | reflexivity].
  - rewrite andb_true_iff, negb_true_iff, mem_not_In, IH. split.
    + intros [Hx Hl]; constructor; assumption.
    + intros Hn; inversion Hn; subst; split; assumption.
Qed.

Lemma forallb_mem (ks l : list pystr) :
  forallb (fun k => mem k l) ks = true <-> (forall k, In k ks -> In k l).
Proof.
  rewrite forallb_forall. split; intros Hk k Hin.
  - apply mem_In, Hk, Hin.
  - apply mem_In, Hk, Hin.
Qed.

Lemma lookup_None (k : pystr) (kw : kwargs) :
  lookup k kw = None <-> ~ In k (map fst kw).
Proof.
  induction kw as [|[k' v] kw IH]; simpl.
  - split; [intros _ [] | reflexivity].
  - destruct (pystr_eqb k k') eqn:E.
    + apply pystr_eqb_eq in E; subst. split; [discriminate|].
      intros Hn; exfalso; apply Hn; left; reflexivity.
    + apply pystr_eqb_neq in E. rewrite IH. split.
      * intros Hn [Hk | Hk]; [congruence | exact (Hn Hk)].
      * intros Hn Hk; apply Hn; right; exact Hk.
Qed.

Lemma lookup_In (k : pystr) (kw : kwargs) (v : PyVal) :
  lookup k kw = Some v -> In (k, v) kw.
Proof.
  induction kw as [|[k' v'] kw IH]; simpl; [discriminate|].
  destruct (pystr_eqb k k') eqn:E.
  - apply pystr_eqb_eq in E; subst. intros [= ->]; left; reflexivity.
  - intros Hl; right; apply IH, Hl.
Qed.

Lemma map_fst_combine {A B} (ks : list A) (vs : list B) :
  length ks = length vs -> map fst (combine ks vs) = ks.
Proof.
  revert vs; induction ks as [|k ks IH]; intros [|v vs]; simpl;
    try discriminate; try reflexivity.
  intros [= E]; rewrite IH by exact E; reflexivity.
Qed.

Lemma map_snd_combine {A B} (ks : list A) (vs : list B) :
  length ks = length vs -> map snd (combine ks vs) = vs.
Proof.
  revert vs; induction ks as [|k ks IH]; intros [|v vs]; simpl;
    try discriminate; try reflexivity.
  intros [= E]; rewrite IH by exact E; reflexivity.
Qed.

Lemma mapM_ext {A B} (f g : A -> result B) (l : list A) :
  (forall a, In a l -> f a = g a) -> mapM f l = mapM g l.
Proof.
  induction l as [|a l IH]; simpl; intros Hfg; [reflexivity|].
  rewrite (Hfg a) by (left; reflexivity).
  rewrite IH by (intros b Hb; apply Hfg; right; exact Hb). reflexivity.
Qed.

Lemma mapM_Ok {A B} (f : A -> B) (l : list A) :
  mapM (fun a => Ok (f a)) l = Ok (map f l).
Proof.
  induction l as [|a l IH]; simpl; [reflexivity|]. rewrite IH; reflexivity.
Qed.

(** A failure of [mapM] is the failure of one of the calls. *)
Lemma mapM_Raise {A B} (f : A -> result B) (l : list A) (e : PyExn) :
  mapM f l = Raise e -> exists a, In a l /\ f a = Raise e.
Proof.
  induction l as [|a l IH]; simpl; [discriminate|].
  destruct (f a) as [b|e'] eqn:Ea; simpl.
  - destruct (mapM f l) as [bs|e'] eqn:El; simpl; [discriminate|].
    intros [= ->]. destruct (IH eq_refl) as (a' & Hin & Ha').
    exists a'; split; [right; exact Hin | exact Ha'].
  - intros [= ->]. exists a; split; [left; reflexivity | exact Ea].
Qed.

Lemma mapM_Ok_Forall2 {A B} (f : A -> result B) (l : list A) (bs : list B) :
  mapM f l = Ok bs -> Forall2 (fun a b => f a = Ok b) l bs.
Proof.
  revert bs; induction l as [|a l IH]; simpl; intros bs.
  - intros [= <-]; constructor.
  - destruct (f a) as [b|] eqn:Ea; simpl; [|discriminate].
    destruct (mapM f l) as [bs'|]; simpl; [|discriminate].
    intros [= <-]. constructor; [exact Ea | apply IH; reflexivity].
Qed.

Lemma mapM_map {A B C} (f : B -> result C) (g : A -> B) (l : list A) :
  mapM f (map g l) = mapM (fun a => f (g a)) l.
Proof.
  induction l as [|a l IH]; simpl; [reflexivity|]. rewrite IH; reflexivity.
Qed.

Lemma bind_kwargs_ok (params : list pystr) (kw : kwargs) :
  NoDup (map fst kw) ->
  (forall k, In k (map fst kw) <-> In k params) ->
  bind_kwargs params kw = Ok (map (bound kw) params).
Proof.
  intros Hnd Hset. unfold bind_kwargs.
  apply nodupb_NoDup in Hnd; rewrite Hnd; simpl.
  assert (Hall : forallb (fun k => mem k params) (map fst kw) = true).
  { apply forallb_mem; intros k Hk; apply Hset, Hk. }
  rewrite Hall; simpl.
  rewrite <- mapM_Ok. apply mapM_ext. intros p Hp. unfold bound.
  destruct (lookup p kw) eqn:E; [reflexivity|].
  apply lookup_None in E. exfalso; apply E, Hset, Hp.
Qed.

Lemma bind_kwargs_only_TypeError (params : list pystr) (kw : kwargs)
    (e : PyExn) :
  bind_kwargs params kw = Raise e -> e = TypeError.
Proof.
  unfold bind_kwargs.
  destruct (negb (nodupb (map fst kw))); [intros [= <-]; reflexivity|].
  destruct (negb (forallb _ _)); [intros [= <-]; reflexivity|].
  intros Hm; apply mapM_Raise in Hm as (p & _ & Hp).
  destruct (lookup p kw); [discriminate|]. injection Hp as <-; reflexivity.
Qed.

(** The keywords bound by a successful call are exactly the parameters. *)
Lemma bind_kwargs_Ok_inv (params : list pystr) (kw : kwargs)
    (vs : list PyVal) :
  bind_kwargs params kw = Ok vs ->
  NoDup (map fst kw)
  /\ (forall k, In k (map fst kw) <-> In k params)
  /\ vs = map (bound kw) params.
Proof.
  intros Hb. unfold bind_kwargs in Hb.
  destruct (nodupb (map fst kw)) eqn:Hnd; simpl in Hb; [|discriminate].
  destruct (forallb (fun k => mem k params) (map fst kw)) eqn:Hall;
    simpl in Hb; [|discriminate].
  apply nodupb_NoDup in Hnd.
  assert (Hsub : forall k, In k (map fst kw) -> In k params)
    by (apply forallb_mem; exact Hall).
  assert (Hsup : forall p, In p params -> In p (map fst kw)).
  { intros p Hp. destruct (lookup p kw) eqn:E.
    - apply lookup_In in E. apply (in_map fst) in E; exact E.
    - exfalso. clear Hsub Hall. revert vs Hb.
      induction params as [|q params IH]; intros vs Hb; [destruct Hp|].
      simpl in Hb. destruct Hp as [-> | Hp].
      + rewrite E in Hb; discriminate.
      + destruct (lookup q kw); [|discriminate]. simpl in Hb.
        destruct (mapM _ params) as [vs'|] eqn:Em; [|discriminate].
        apply (IH Hp vs'); reflexivity. }
  assert (Hset : forall k, In k (map fst kw) <-> In k params)
    by (intros k; split; auto).
  split; [exact Hnd|]. split; [exact Hset|].
  pose proof (bind_kwargs_ok params kw Hnd Hset) as Hok.
  unfold bind_kwargs in Hok.
  rewrite (proj2 (nodupb_NoDup _) Hnd), Hall in Hok; simpl in Hok.
  congruence.
Qed.

(** ** The generated constructor *)

Section Constructor.

Context {T : Type} `{D : Dataclass T}.

Lemma fieldnames_NoDup : NoDup (fieldnames T).
Proof. apply nodupb_NoDup, fields_nodup. Qed.

Lemma fieldnames_length : length (fieldnames T) = length dataclass_fields.
Proof. unfold fieldnames; apply length_map. Qed.

Lemma field_values_length (r : T) :
  length (field_values r) = length (fieldnames T).
Proof.
  rewrite fieldnames_length. apply make_length.
  rewrite make_values; discriminate.
Qed.

Lemma make_injective (r r' : T) :
  field_values r = field_values r' -> r = r'.
Proof.
  intros E. pose proof (make_values r) as H1.
  rewrite E, make_values in H1. congruence.
Qed.

Lemma init_only_TypeError (kw : kwargs) (e : PyExn) :
  init T kw = Raise e -> e = TypeError.
Proof.
  unfold init. destruct (bind_kwargs (fieldnames T) kw) as [vs|e'] eqn:Eb;
    simpl.
  - destruct (make vs); [discriminate | intros [= <-]; reflexivity].
  - intros [= <-]. eapply bind_kwargs_only_TypeError, Eb.
Qed.

Lemma init_ok (kw : kwargs) :
  NoDup (map fst kw) ->
  (forall k, In k (map fst kw) <-> In k (fieldnames T)) ->
  exists r, init T kw = Ok r
            /\ field_values r = map (bound kw) (fieldnames T).
Proof.
  intros Hnd Hset. unfold init.
  rewrite (bind_kwargs_ok _ _ Hnd Hset); simpl.
  destruct (make (map (bound kw) (fieldnames T))) as [r|] eqn:Em.
  - exists r; split; [reflexivity|]. apply values_make, Em.
  - exfalso. revert Em. apply make_length.
    rewrite length_map. apply fieldnames_length.
Qed.

Lemma init_Ok_inv (kw : kwargs) (r : T) :
  init T kw = Ok r ->
  NoDup (map fst kw)
  /\ (forall k, In k (map fst kw) <-> In k (fieldnames T))
  /\ field_values r = map (bound kw) (fieldnames T).
Proof.
  unfold init. destruct (bind_kwargs (fieldnames T) kw) as [vs|e] eqn:Eb;
    simpl; [|discriminate].
  destruct (make vs) as [r'|] eqn:Em; [|discriminate]. intros [= <-].
  apply bind_kwargs_Ok_inv in Eb as (Hnd & Hset & ->).
  repeat split; try assumption; try apply Hset. apply values_make, Em.
Qed.

(** A field without a keyword, and a keyword without a field. *)
Lemma init_missing (kw : kwargs) (p : pystr) :
  In p (fieldnames T) -> ~ In p (map fst kw) -> init T kw = Raise TypeError.
Proof.
  intros Hp Hn. destruct (init T kw) as [r|e] eqn:E.
  - apply init_Ok_inv in E as (_ & Hset & _). exfalso; apply Hn, Hset, Hp.
  - apply init_only_TypeError in E; subst; reflexivity.
Qed.

Lemma init_unexpected (kw : kwargs) (k : pystr) :
  In k (map fst kw) -> ~ In k (fieldnames T) -> init T kw = Raise TypeError.
Proof.
  intros Hk Hn. destruct (init T kw) as [r|e] eqn:E.
  - apply init_Ok_inv in E as (_ & Hset & _). exfalso; apply Hn, Hset, Hk.
  - apply init_only_TypeError in E; subst; reflexivity.
Qed.

Lemma bound_combine (ks : list pystr) (vs : list PyVal) :
  NoDup ks -> length ks = length vs ->
  map (bound (combine ks vs)) ks = vs.
Proof.
  revert vs; induction ks as [|k ks IH]; intros [|v vs] Hnd Hlen;
    simpl in *; try discriminate; [reflexivity|].
  inversion Hnd as [|? ? Hk Hnd']; subst. injection Hlen as Hlen.
  unfold bound at 1; simpl. rewrite pystr_eqb_refl. f_equal.
  rewrite <- (IH vs Hnd' Hlen) at 2. apply map_ext_in. intros p Hp.
  unfold bound; simpl. destruct (pystr_eqb p k) eqn:E; [|reflexivity].
  apply pystr_eqb_eq in E; subst. contradiction.
Qed.

Lemma instance_dict_keys (r : T) :
  map fst (instance_dict r) = fieldnames T.
Proof.
  unfold instance_dict. apply map_fst_combine.
  symmetry; apply field_values_length.
Qed.

(** Building an instance from the dict of an instance gives it back. *)
Lemma init_instance_dict (r : T) : init T (instance_dict r) = Ok r.
Proof.
  destruct (init_ok (instance_dict r)) as (r' & Hi & Hv).
  - rewrite instance_dict_keys. apply fieldnames_NoDup.
  - rewrite instance_dict_keys. intros k; reflexivity.
  - rewrite Hi. f_equal. apply make_injective. rewrite Hv.
    unfold instance_dict. apply bound_combine.
    + apply fieldnames_NoDup.
    + symmetry; apply field_values_length.
Qed.

End Constructor.

(** ** Writing *)

Lemma write_text_posix (t : pystr) :
  encodable t = true -> write_text t = Ok t.
Proof.
  unfold encodable, write_text. intros H. apply negb_true_iff in H.
  rewrite H. f_equal.
  induction t as [|c t IH]; simpl in *; [reflexivity|].
  apply orb_false_iff in H as [_ H]. rewrite (IH H).
  destruct (c =? LF) eqn:E; [|reflexivity].
  apply N.eqb_eq in E; subst; reflexivity.
Qed.

Lemma write_text_Ok_inv (t w : pystr) :
  write_text t = Ok w -> encodable t = true /\ w = t.
Proof.
  intros H. destruct (encodable t) eqn:E.
  - rewrite (write_text_posix t E) in H. injection H as <-. auto.
  - unfold encodable in E. apply negb_false_iff in E.
    unfold write_text in H. rewrite E in H. discriminate.
Qed.

Lemma encodable_app (a b : pystr) :
  encodable (a ++ b) = encodable a && encodable b.
Proof. unfold encodable. rewrite existsb_app. apply negb_orb. Qed.

Lemma encodable_double_quotes (s : pystr) :
  encodable (double_quotes s) = encodable s.
Proof.
  unfold encodable, double_quotes. f_equal.
  induction s as [|c s IH]; [reflexivity|]. cbn [flat_map existsb].
  rewrite existsb_app, IH. destruct (c =? DQUOTE) eqn:E.
  - apply N.eqb_eq in E; subst. reflexivity.
  - simpl. rewrite orb_false_r. reflexivity.
Qed.

Lemma encodable_join_append (s : pystr) :
  encodable (join_append s) = encodable s.
Proof.
  unfold join_append. destruct (needs_quotes s); [|reflexivity].
  change (DQUOTE :: double_quotes s ++ [DQUOTE])
    with ([DQUOTE] ++ double_quotes s ++ [DQUOTE]).
  rewrite !encodable_app, encodable_double_quotes.
  change (encodable [DQUOTE]) with true. rewrite andb_true_r. reflexivity.
Qed.

Lemma encodable_join (parts : list pystr) :
  encodable (join [COMMA] parts) = forallb encodable parts.
Proof.
  induction parts as [|a [|b l] IH]; [reflexivity | |].
  - cbn [join forallb]. rewrite andb_true_r. reflexivity.
  - change (join [COMMA] (a :: b :: l))
      with (a ++ [COMMA] ++ join [COMMA] (b :: l)).
    rewrite !encodable_app, IH. reflexivity.
Qed.

Lemma encodable_written_row (cells : list pystr) :
  encodable (written_row (map join_append cells)) = forallb encodable cells.
Proof.
  unfold written_row. rewrite encodable_app, encodable_join.
  change (encodable lineterminator) with true. rewrite andb_true_r.
  induction cells as [|c cells IH]; [reflexivity|].
  cbn [map forallb]. rewrite IH, encodable_join_append. reflexivity.
Qed.

(** The fields of a row, turned into text. *)
Lemma csv_fields_Ok_inv (vs : list PyVal) (cells : list pystr) :
  mapM csv_field vs = Ok cells -> cells = map cell_text vs.
Proof.
  intros H. apply mapM_Ok_Forall2 in H.
  induction H as [|v c vs cs Hv _ IH]; [reflexivity|].
  cbn [map]. unfold cell_text at 1. rewrite Hv, IH. reflexivity.
Qed.

Lemma csv_fields_writable (vs : list PyVal) :
  forallb writable_value vs = true ->
  mapM csv_field vs = Ok (map cell_text vs)
  /\ forallb encodable (map cell_text vs) = true.
Proof.
  induction vs as [|v vs IH]; [split; reflexivity|].
  cbn [forallb]. intros H. apply andb_true_iff in H as [Hv Hvs].
  destruct (IH Hvs) as [IH1 IH2].
  unfold writable_value in Hv. cbn [mapM map forallb].
  unfold cell_text at 1 3.
  destruct (csv_field v) as [c|e]; [|discriminate].
  cbn [bind]. rewrite IH1. cbn [bind]. rewrite Hv, IH2. split; reflexivity.
Qed.

Lemma csv_fields_Ok_writable (vs : list PyVal) (cells : list pystr) :
  mapM csv_field vs = Ok cells ->
  forallb encodable cells = true ->
  forallb writable_value vs = true.
Proof.
  intros H. apply mapM_Ok_Forall2 in H.
  induction H as [|v c vs cs Hv _ IH]; [reflexivity|].
  cbn [forallb]. intros Hc. apply andb_true_iff in Hc as [Hc Hcs].
  unfold writable_value at 1. rewrite Hv, Hc, (IH Hcs). reflexivity.
Qed.

Lemma join_cons2 (sep a b : pystr) (l : list pystr) :
  join sep (a :: b :: l) = a ++ sep ++ join sep (b :: l).
Proof. reflexivity. Qed.

(** A row of two cells or more is never the empty record. *)
Lemma writer_writerow_many (a b : pystr) (l : list pystr) :
  writer_writerow (a :: b :: l)
  = written_row (map join_append (a :: b :: l)).
Proof.
  unfold writer_writerow, written_row.
  destruct (join [COMMA] (map join_append (a :: b :: l))) eqn:E;
    [|reflexivity].
  exfalso. simpl map in E. rewrite join_cons2 in E.
  apply app_eq_nil in E as [_ E]. discriminate E.
Qed.

Lemma dict_to_list_combine (ks : list pystr) (vs : list PyVal) :
  NoDup ks -> length ks = length vs ->
  dict_to_list ks (combine ks vs) = Ok vs.
Proof.
  intros Hnd Hlen. unfold dict_to_list.
  rewrite map_fst_combine by exact Hlen.
  assert (Hall : forallb (fun k => mem k ks) ks = true)
    by (apply forallb_mem; auto).
  rewrite Hall. f_equal.
  transitivity (map (bound (combine ks vs)) ks);
    [|apply bound_combine; assumption].
  apply map_ext_in. intros k Hk. unfold bound.
  destruct (lookup k (combine ks vs)) eqn:E; [reflexivity|].
  apply lookup_None in E. rewrite map_fst_combine in E by exact Hlen.
  contradiction.
Qed.

Section Writing.

Context {T : Type} `{D : Dataclass T}.

(** The class has two fields or more, and its field names need no quotes
    and hold no surrogate. *)
Hypothesis two_fields : (2 <= length (fieldnames T))%nat.
Hypothesis plain_names :
  forallb (fun n => negb (needs_quotes n)) (fieldnames T) = true.
Hypothesis names_encodable : forallb encodable (fieldnames T) = true.

Lemma plain_names_unquoted : map join_append (fieldnames T) = fieldnames T.
Proof.
  transitivity (map (fun n : pystr => n) (fieldnames T)); [|apply map_id].
  apply map_ext_in. intros n Hn. unfold join_append.
  rewrite forallb_forall in plain_names. specialize (plain_names n Hn).
  apply negb_true_iff in plain_names. rewrite plain_names; reflexivity.
Qed.

Lemma writeheader_eq :
  DictWriter_writeheader (fieldnames T)
  = Ok (written_row (fieldnames T)).
Proof.
  unfold DictWriter_writeheader, DictWriter_writerow.
  rewrite dict_to_list_combine;
    [| apply fieldnames_NoDup | symmetry; apply length_map ].
  cbn [bind]. rewrite mapM_map.
  rewrite (mapM_Ok (fun n : pystr => n)), map_id. cbn [bind].
  pose proof plain_names_unquoted as Hc.
  pose proof (encodable_written_row (fieldnames T)) as He.
  rewrite Hc, names_encodable in He.
  destruct (fieldnames T) as [|a [|b l]] eqn:E; simpl in two_fields;
    try lia.
  rewrite writer_writerow_many, Hc. apply write_text_posix, He.
Qed.

(** A row is written when every field has a text the encoder takes, and
    only then. *)
Lemma writerow_eq (r : T) :
  writable r = true ->
  DictWriter_writerow (fieldnames T) (asdict r)
  = Ok (written_row (map written_cell (field_values r))).
Proof.
  intros Hw. unfold DictWriter_writerow, asdict, instance_dict.
  rewrite dict_to_list_combine;
    [| apply fieldnames_NoDup | symmetry; apply field_values_length ].
  cbn [bind]. destruct (csv_fields_writable (field_values r) Hw) as [Hm He].
  rewrite Hm. cbn [bind].
  pose proof (field_values_length r) as Hl.
  assert (Hrow : writer_writerow (map cell_text (field_values r))
                 = written_row (map written_cell (field_values r))).
  { destruct (field_values r) as [|a [|b l]] eqn:E; simpl in Hl; try lia.
    cbn [map]. rewrite writer_writerow_many. cbn [map].
    unfold written_cell. rewrite map_map. reflexivity. }
  rewrite Hrow. apply write_text_posix.
  unfold written_cell. rewrite <- (map_map cell_text join_append).
  rewrite encodable_written_row. exact He.
Qed.

Lemma writerow_Ok_inv (r : T) (line : pystr) :
  DictWriter_writerow (fieldnames T) (asdict r) = Ok line ->
  writable r = true.
Proof.
  unfold DictWriter_writerow, asdict, instance_dict.
  rewrite dict_to_list_combine;
    [| apply fieldnames_NoDup | symmetry; apply field_values_length ].
  cbn [bind].
  destruct (mapM csv_field (field_values r)) as [cells|e] eqn:Em;
    [|discriminate].
  cbn [bind]. intros Hw. apply write_text_Ok_inv in Hw as [He _].
  apply (csv_fields_Ok_writable _ cells Em).
  pose proof (field_values_length r) as Hl.
  assert (Hc : length cells = length (field_values r)).
  { rewrite (csv_fields_Ok_inv _ _ Em). apply length_map. }
  destruct cells as [|a [|b l]]; simpl in Hc; try lia.
  rewrite writer_writerow_many, encodable_written_row in He. exact He.
Qed.

(** The file [to_csv] leaves: the header row, then the row of each record. *)
Lemma to_csv_rows (records : list T) :
  Forall (fun r => writable r = true) records ->
  to_csv records
  = Ok (written_row (fieldnames T)
        ++ concat (map (fun r => written_row
                                   (map (written_cell)
                                        (field_values r)))
                       records)).
Proof.
  intros Hw. unfold to_csv. rewrite writeheader_eq. cbn [bind].
  rewrite (mapM_ext _ (fun r => Ok (written_row
            (map (written_cell) (field_values r))))).
  - rewrite mapM_Ok. reflexivity.
  - intros r Hr. apply writerow_eq.
    rewrite Forall_forall in Hw. apply Hw, Hr.
Qed.

(** [to_csv] writes the file only when it can write every record. *)
Lemma to_csv_Ok_inv (records : list T) (file : pystr) :
  to_csv records = Ok file ->
  Forall (fun r => writable r = true) records.
Proof.
  unfold to_csv. rewrite writeheader_eq. cbn [bind].
  destruct (mapM _ records) as [rows|e] eqn:Em; [|discriminate].
  intros _. apply mapM_Ok_Forall2 in Em.
  induction Em as [|r row rs rows' Hr _ IH]; constructor; [|exact IH].
  apply (writerow_Ok_inv r row Hr).
Qed.

(** A record [to_csv] cannot write: the call raises. *)
Lemma to_csv_unwritable (records : list T) :
  Exists (fun r => writable r = false) records ->
  exists e, to_csv records = Raise e.
Proof.
  intros Hex. destruct (to_csv records) as [file|e] eqn:E;
    [|exists e; reflexivity].
  exfalso. apply to_csv_Ok_inv in E. rewrite Forall_forall in E.
  apply Exists_exists in Hex as (r & Hr & Hw).
  rewrite (E r Hr) in Hw. discriminate.
Qed.

End Writing.

Lemma kind_two_fields (k : Kind) :
  (2 <= length (fieldnames (record k)))%nat.
Proof. destruct k; vm_compute; repeat constructor. Qed.

Lemma kind_plain_names (k : Kind) :
  forallb (fun n => negb (needs_quotes n)) (fieldnames (record k)) = true.
Proof. destruct k; vm_compute; reflexivity. Qed.

Lemma kind_names_encodable (k : Kind) :
  forallb encodable (fieldnames (record k)) = true.
Proof. destruct k; vm_compute; reflexivity. Qed.

(** ** The characters of the text of a float *)

Section FloatText.

Local Open Scope Z_scope.
















End FloatText.

(** ** What [to_csv] writes *)




(** Two deployments with floats and absent optional fields. *)
Example to_csv_of_typed_deployments :
  to_csv [deployment_plain; deployment_uncertain] = Ok deployments_typed_file.
Proof. vm_compute; reflexivity. Qed.

(** C6, as the code has it: in every file [to_csv] writes, a field that
    holds the boolean [True] or [False] is written with Python's [str],
    that is as [True] or [False] with a capital; the cell is never the
    lowercase word. *)
Theorem C6_to_csv_bool_capitalised :
  forall (k : Kind) (records : list (record k)) (file : pystr),
    to_csv records = Ok file ->
    file
    = written_row (fieldnames (record k))
      ++ concat (map (fun r => written_row
                                 (map (written_cell)
                                      (field_values r)))
                     records)
    /\ (forall (r : record k) i b,
          nth_error (field_values r) i = Some (PyBool b) ->
          nth_error (map (written_cell) (field_values r)) i
          = Some (u (if b then "True" else "False"))).
Proof.
  intros k records file Hfile. split.
  - pose proof (to_csv_Ok_inv (kind_two_fields k) (kind_plain_names k)
                  (kind_names_encodable k) records file Hfile) as Hw.
    rewrite (to_csv_rows (kind_two_fields k) (kind_plain_names k)
               (kind_names_encodable k) records Hw) in Hfile.
    injection Hfile as <-. reflexivity.
  - intros r i b Hi. rewrite nth_error_map, Hi. destruct b; reflexivity.
Qed.

(** The media record with typed fields is written. *)
Lemma C6_media_typed_written_with_capitals :
  to_csv [media_typed] = Ok media_typed_file
  /\ media_typed_file
     = written_row (fieldnames (record KMedia))
       ++ concat (map (fun r => written_row
                                  (map (written_cell) (field_values r)))
                      [media_typed])
  /\ (forall (r : record KMedia) i b,
        nth_error (field_values r) i = Some (PyBool b) ->
        nth_error (map (written_cell) (field_values r)) i
        = Some (u (if b then "True" else "False"))).
Proof.
  assert (H : to_csv [media_typed] = Ok media_typed_file)
    by (vm_compute; reflexivity).
  split; [exact H|].
  exact (C6_to_csv_bool_capitalised KMedia [media_typed] media_typed_file H).
Defined.

(** C6 fails as stated: the media record whose [filePublic] is [True] and
    whose [favorite] is [False] is written with the cells [True] and
    [False], which are not the lowercase words. *)
Lemma C6_bool_written_with_capital :
  to_csv [media_typed] = Ok media_typed_file
  /\ written_cell (Media.filePublic media_typed) = u "True"
  /\ written_cell (Media.filePublic media_typed) <> u "true"
  /\ written_cell (Media.favorite media_typed) <> u "false".
Proof.
  repeat split; try reflexivity; vm_compute; discriminate.
Qed.

(** A comment with a CR LF in it.  [to_csv] writes the cell in quotes with
    the CR LF inside; [from_csv], which reads with universal newlines, gets
    a LF alone; writing the record read gives a file that differs from the
    first one. *)
Lemma round_trip_loses_carriage_return :
  to_csv [media_two_lines] = Ok media_two_lines_file
  /\ from_csv Media.t media_two_lines_file = Ok [media_two_lines_read]
  /\ to_csv [media_two_lines_read] = Ok media_two_lines_rewritten
  /\ media_two_lines_rewritten <> media_two_lines_file.
Proof.
  repeat split; try (vm_compute; reflexivity). vm_compute; discriminate.
Qed.

(** ** Row dicts *)

Lemma dict_set_keys (d : cells_dict) (k : pystr) (v : option pystr) (x : pystr) :
  In x (map fst (dict_set d k v)) <-> x = k \/ In x (map fst d).
Proof.
  induction d as [|[k' v'] d IH]; simpl.
  - split; intros [E | E]; auto.
  - destruct (pystr_eqb k k') eqn:E; simpl.
    + apply pystr_eqb_eq in E; subst. intuition congruence.
    + rewrite IH. intuition congruence.
Qed.

Lemma dict_update_keys (items d : cells_dict) (x : pystr) :
  In x (map fst (dict_update d items))
  <-> In x (map fst d) \/ In x (map fst items).
Proof.
  revert d; induction items as [|[k v] items IH]; intros d; simpl.
  - tauto.
  - unfold dict_update in *; simpl. rewrite IH, dict_set_keys.
    split; intros H; intuition auto.
Qed.

Lemma dict_set_values (P : option pystr -> Prop) (d : cells_dict)
    (k : pystr) (v : option pystr) :
  Forall P (map snd d) -> P v -> Forall P (map snd (dict_set d k v)).
Proof.
  induction d as [|[k' v'] d IH]; simpl; intros Hd Hv.
  - constructor; [exact Hv | constructor].
  - inversion Hd; subst. destruct (pystr_eqb k k'); simpl.
    + constructor; assumption.
    + constructor; [assumption | apply IH; assumption].
Qed.

Lemma dict_update_values (P : option pystr -> Prop) (items d : cells_dict) :
  Forall P (map snd d) -> Forall P (map snd items) ->
  Forall P (map snd (dict_update d items)).
Proof.
  revert d; induction items as [|[k v] items IH]; intros d Hd Hi; simpl.
  - exact Hd.
  - inversion Hi; subst. unfold dict_update in *; simpl.
    apply IH; [apply dict_set_values|]; assumption.
Qed.

Lemma dict_set_absent (d : cells_dict) (k : pystr) (v : option pystr) :
  ~ In k (map fst d) -> dict_set d k v = d ++ [(k, v)].
Proof.
  induction d as [|[k' v'] d IH]; simpl; intros Hn; [reflexivity|].
  destruct (pystr_eqb k k') eqn:E.
  - apply pystr_eqb_eq in E; subst. exfalso; apply Hn; left; reflexivity.
  - rewrite IH; [reflexivity|]. intros Hk; apply Hn; right; exact Hk.
Qed.

Lemma dict_update_fresh (items d : cells_dict) :
  NoDup (map fst items) ->
  (forall k, In k (map fst items) -> ~ In k (map fst d)) ->
  dict_update d items = d ++ items.
Proof.
  revert d; induction items as [|[k v] items IH]; intros d Hnd Hfresh;
    simpl in *.
  - symmetry; apply app_nil_r.
  - inversion Hnd as [|? ? Hk Hnd']; subst.
    unfold dict_update in *; simpl.
    rewrite dict_set_absent by (apply Hfresh; left; reflexivity).
    rewrite IH; [rewrite <- app_assoc; reflexivity | exact Hnd' |].
    intros x Hx. rewrite map_app, in_app_iff. simpl.
    intros [Hd | [-> | []]].
    + apply (Hfresh x); [right; exact Hx | exact Hd].
    + contradiction.
Qed.

Lemma NoDup_app_disjoint {A} (l1 l2 : list A) (a : A) :
  NoDup (l1 ++ l2) -> In a l1 -> ~ In a l2.
Proof.
  induction l1 as [|x l1 IH]; simpl; intros Hnd Hin; [destruct Hin|].
  inversion Hnd as [|? ? Hx Hnd']; subst. destruct Hin as [-> | Hin].
  - intros Ha; apply Hx, in_or_app; right; exact Ha.
  - apply IH; assumption.
Qed.

Lemma map_fst_combine_firstn {A B} (ks : list A) (vs : list B) :
  map fst (combine ks vs) = firstn (length vs) ks.
Proof.
  revert vs; induction ks as [|k ks IH]; intros [|v vs]; simpl;
    try reflexivity.
  rewrite IH; reflexivity.
Qed.

Lemma combine_repeat {A B} (ks : list A) (d : B) :
  map (fun k => (k, d)) ks = combine ks (repeat d (length ks)).
Proof.
  induction ks as [|k ks IH]; simpl; [reflexivity|].
  rewrite IH; reflexivity.
Qed.

Lemma combine_pad {A B} (ks : list A) (vs : list B) (d : B) :
  (length vs <= length ks)%nat ->
  combine ks vs ++ map (fun k => (k, d)) (skipn (length vs) ks)
  = combine ks (vs ++ repeat d (length ks - length vs)).
Proof.
  revert vs; induction ks as [|k ks IH]; intros [|v vs] Hlen; simpl in *;
    try reflexivity; try lia.
  - rewrite combine_repeat; reflexivity.
  - rewrite IH by lia; reflexivity.
Qed.

Lemma padded_length (n : nat) (row : list pystr) :
  (length row <= n)%nat -> length (padded n row) = n.
Proof.
  intros Hlen. unfold padded.
  rewrite length_app, length_map, repeat_length. lia.
Qed.

Lemma padded_nth (n : nat) (row : list pystr) (i : nat) :
  (length row <= n)%nat -> (i < n)%nat ->
  nth_error (padded n row) i = Some (nth_error row i).
Proof.
  intros Hlen Hi. unfold padded. rewrite nth_error_app, length_map.
  destruct (Nat.ltb i (length row)) eqn:E.
  - apply Nat.ltb_lt in E. rewrite nth_error_map.
    destruct (nth_error row i) eqn:En; [reflexivity|].
    apply nth_error_None in En; lia.
  - apply Nat.ltb_ge in E. rewrite nth_error_repeat by lia.
    f_equal. symmetry; apply nth_error_None; exact E.
Qed.

(** The dict of a row no longer than a header without repeated names: the
    names in order, each with its cell, or [None] past the end of the
    row. *)
Lemma DictReader_row_padded (header row : list pystr) :
  NoDup header -> (length row <= length header)%nat ->
  DictReader_row header row
  = mkRowDict (combine header (padded (length header) row)) None.
Proof.
  intros Hnd Hlen. unfold DictReader_row.
  assert (Hlt : Nat.ltb (length header) (length row) = false)
    by (apply Nat.ltb_ge; exact Hlen).
  rewrite Hlt. f_equal.
  assert (Hsplit : NoDup (firstn (length row) header
                          ++ skipn (length row) header))
    by (rewrite firstn_skipn; exact Hnd).
  rewrite (dict_update_fresh (combine header (map Some row)) []).
  - simpl. rewrite dict_update_fresh.
    + unfold padded. rewrite <- (length_map Some row) at 1.
      rewrite combine_pad by (rewrite length_map; exact Hlen).
      rewrite length_map; reflexivity.
    + rewrite map_map; simpl. rewrite map_id.
      eapply NoDup_app_remove_l, Hsplit.
    + intros k. rewrite map_map; simpl. rewrite map_id.
      rewrite map_fst_combine_firstn, length_map. intros Hk Hk'.
      exact (NoDup_app_disjoint _ _ k Hsplit Hk' Hk).
  - rewrite map_fst_combine_firstn, length_map.
    eapply NoDup_app_remove_r, Hsplit.
  - intros k _ [].
Qed.

Lemma lookup_combine_map (f : pystr -> PyVal) (ks : list pystr) (p : pystr) :
  In p ks -> lookup p (combine ks (map f ks)) = Some (f p).
Proof.
  induction ks as [|k ks IH]; simpl; intros Hp; [destruct Hp|].
  destruct (pystr_eqb p k) eqn:E.
  - apply pystr_eqb_eq in E; subst; reflexivity.
  - apply IH. destruct Hp as [-> | Hp]; [|exact Hp].
    rewrite pystr_eqb_refl in E; discriminate.
Qed.

Lemma lookup_nth (ks : list pystr) (vs : list PyVal) (i : nat) (name : pystr) :
  NoDup ks -> length vs = length ks -> nth_error ks i = Some name ->
  lookup name (combine ks vs) = nth_error vs i.
Proof.
  revert vs i; induction ks as [|k ks IH]; intros [|v vs] i Hnd Hlen Hi;
    simpl in *; try discriminate; try (destruct i; discriminate).
  inversion Hnd as [|? ? Hk Hnd']; subst. destruct i as [|i]; simpl in *.
  - injection Hi as ->. rewrite pystr_eqb_refl; reflexivity.
  - destruct (pystr_eqb name k) eqn:E.
    + apply pystr_eqb_eq in E; subst. exfalso; apply Hk.
      eapply nth_error_In, Hi.
    + apply IH; [exact Hnd' | lia | exact Hi].
Qed.

Lemma combine_map_snd {A B C} (f : B -> C) (ks : list A) (vs : list B) :
  map (fun kv => (fst kv, f (snd kv))) (combine ks vs)
  = combine ks (map f vs).
Proof.
  revert vs; induction ks as [|k ks IH]; intros [|v vs]; simpl;
    try reflexivity.
  rewrite IH; reflexivity.
Qed.

Section Rows.

Context {T : Type} `{D : Dataclass T}.

Lemma unpack_keys (header row : list pystr) (kw : kwargs) :
  unpack (DictReader_row header row) = Ok kw ->
  (length row <= length header)%nat
  /\ (forall name, In name (map fst kw) <-> In name header)
  /\ Forall (raw_cell row) (map snd kw).
Proof.
  unfold unpack, DictReader_row.
  destruct (Nat.ltb (length header) (length row)) eqn:Hlt; simpl;
    [discriminate|].
  apply Nat.ltb_ge in Hlt. intros [= <-]. split; [exact Hlt|]. split.
  - intros name. rewrite map_map; simpl.
    rewrite dict_update_keys, dict_update_keys. simpl.
    rewrite map_fst_combine_firstn, length_map, map_map; simpl.
    rewrite map_id. rewrite <- (firstn_skipn (length row) header) at 3.
    rewrite in_app_iff. tauto.
  - rewrite map_map; simpl. rewrite Forall_map.
    apply (Forall_map snd (fun c => raw_cell row (cell_value c))).
    apply dict_update_values; [apply dict_update_values|].
    + constructor.
    + rewrite Forall_forall. intros c Hc. apply in_map_iff in Hc.
      destruct Hc as ([k c'] & <- & Hc). apply in_combine_r in Hc.
      apply in_map_iff in Hc as (s & <- & Hs).
      right; exists s; split; [reflexivity | exact Hs].
    + rewrite map_map; simpl. rewrite Forall_forall. intros c Hc.
      apply in_map_iff in Hc as (k & <- & _). left; reflexivity.
Qed.

Lemma row_record_only_TypeError (header row : list pystr) (e : PyExn) :
  row_record T header row = Raise e -> e = TypeError.
Proof.
  unfold row_record, unpack.
  destruct (rest (DictReader_row header row)); simpl.
  - intros [= <-]; reflexivity.
  - apply init_only_TypeError.
Qed.

(** What an accepted row tells about the header, and about the record. *)
Lemma row_record_Ok_inv (header row : list pystr) (r : T) :
  row_record T header row = Ok r ->
  (length row <= length header)%nat
  /\ (forall name, In name header <-> In name (fieldnames T))
  /\ Forall (raw_cell row) (field_values r).
Proof.
  unfold row_record.
  destruct (unpack (DictReader_row header row)) as [kw|e] eqn:Eu; simpl;
    [|discriminate].
  intros Hi. apply unpack_keys in Eu as (Hlen & Hkeys & Hvals).
  apply init_Ok_inv in Hi as (_ & Hset & Hv).
  split; [exact Hlen|]. split.
  - intros name. rewrite <- Hkeys. apply Hset.
  - rewrite Hv, Forall_forall. intros v Hin.
    apply in_map_iff in Hin as (p & <- & _). unfold bound.
    destruct (lookup p kw) as [v|] eqn:El; [|left; reflexivity].
    apply lookup_In in El. rewrite Forall_forall in Hvals.
    apply Hvals. apply (in_map snd) in El; exact El.
Qed.

Lemma row_record_long (header row : list pystr) :
  (length header < length row)%nat ->
  row_record T header row = Raise TypeError.
Proof.
  intros Hlt. destruct (row_record T header row) as [r|e] eqn:E.
  - apply row_record_Ok_inv in E as (Hlen & _). lia.
  - apply row_record_only_TypeError in E; subst; reflexivity.
Qed.

Lemma row_record_mismatch (header row : list pystr) :
  ~ (forall name, In name header <-> In name (fieldnames T)) ->
  row_record T header row = Raise TypeError.
Proof.
  intros Hn. destruct (row_record T header row) as [r|e] eqn:E.
  - apply row_record_Ok_inv in E as (_ & Hset & _). contradiction.
  - apply row_record_only_TypeError in E; subst; reflexivity.
Qed.

(** A row no longer than a matching header is accepted, and each field
    holds the cell under its name, or [None] past the end of the row. *)
Lemma row_record_ok (header row : list pystr) :
  NoDup header ->
  (forall name, In name header <-> In name (fieldnames T)) ->
  (length row <= length header)%nat ->
  exists r,
    row_record T header row = Ok r
    /\ forall i name,
         nth_error header i = Some name ->
         getattr r name = Some (cell_value (nth_error row i)).
Proof.
  intros Hnd Hset Hlen. unfold row_record, unpack.
  rewrite DictReader_row_padded by assumption. simpl.
  rewrite combine_map_snd.
  set (vs := map cell_value (padded (length header) row)).
  assert (Hvs : length vs = length header)
    by (unfold vs; rewrite length_map; apply padded_length; exact Hlen).
  destruct (init_ok (combine header vs)) as (r & Hi & Hv).
  - rewrite map_fst_combine by (symmetry; exact Hvs). exact Hnd.
  - rewrite map_fst_combine by (symmetry; exact Hvs). exact Hset.
  - exists r. split; [exact Hi|]. intros i name Hname.
    unfold getattr, instance_dict. rewrite Hv.
    rewrite lookup_combine_map
      by (apply Hset; eapply nth_error_In, Hname).
    f_equal. unfold bound.
    rewrite (lookup_nth header vs i name Hnd Hvs Hname).
    unfold vs. rewrite nth_error_map, padded_nth; [reflexivity | exact Hlen |].
    apply nth_error_Some. rewrite Hname; discriminate.
Qed.

End Rows.

(** ** Reading *)

Lemma mapM_all_Ok {A B} (f : A -> result B) (P : A -> B -> Prop)
    (l : list A) :
  (forall a, In a l -> exists b, f a = Ok b /\ P a b) ->
  exists bs, mapM f l = Ok bs /\ Forall2 P l bs.
Proof.
  induction l as [|a l IH]; simpl; intros Hall.
  - exists []; split; [reflexivity | constructor].
  - destruct (Hall a) as (b & Hb & Pb); [left; reflexivity|].
    destruct IH as (bs & Hbs & Pbs);
      [intros a' Ha'; apply Hall; right; exact Ha'|].
    exists (b :: bs). rewrite Hb, Hbs; simpl.
    split; [reflexivity | constructor; assumption].
Qed.

(** When every failure is the exception [e] and one call fails, the whole
    fails with [e]. *)
Lemma mapM_one_Raise {A B} (f : A -> result B) (l : list A) (e : PyExn)
    (a : A) :
  (forall a' e', f a' = Raise e' -> e' = e) ->
  In a l -> f a = Raise e -> mapM f l = Raise e.
Proof.
  intros Hall. induction l as [|x l IH]; simpl; intros Hin Ha;
    [destruct Hin|].
  destruct (f x) as [b|e'] eqn:Ex; simpl.
  - destruct Hin as [-> | Hin]; [congruence|].
    rewrite (IH Hin Ha); reflexivity.
  - apply Hall in Ex; subst; reflexivity.
Qed.

Lemma parse_add_char_only_CsvError (r : ReaderObj) (c : pychar)
    (e : PyExn) :
  parse_add_char r c = Raise e -> e = CsvError.
Proof.
  unfold parse_add_char. destruct (field_limit <=? _); [|discriminate].
  intros [= <-]; reflexivity.
Qed.

Lemma parse_process_char_only_CsvError (r : ReaderObj) (c : option pychar)
    (e : PyExn) :
  parse_process_char r c = Raise e -> e = CsvError.
Proof.
  unfold parse_process_char, parse_add_char.
  destruct (state r), c as [c|]; simpl;
    repeat match goal with
           | |- context [if ?b then _ else _] => destruct b; simpl
           end;
    try discriminate; intros [= <-]; reflexivity.
Qed.

Lemma parse_line_only_CsvError (line : pystr) (r : ReaderObj) (e : PyExn) :
  parse_line r line = Raise e -> e = CsvError.
Proof.
  revert r; induction line as [|c line IH]; intros r; simpl.
  - apply parse_process_char_only_CsvError.
  - destruct (parse_process_char r (Some c)) as [r'|e'] eqn:Ec; simpl.
    + apply IH.
    + intros [= <-]. eapply parse_process_char_only_CsvError, Ec.
Qed.

Lemma reader_rows_only_CsvError (lines : list pystr) (r : ReaderObj)
    (rows : list (list pystr)) (e : PyExn) :
  reader_rows r lines = (rows, Some e) -> e = CsvError.
Proof.
  revert r rows; induction lines as [|line lines IH]; intros r rows; simpl.
  - destruct (_ || _); discriminate.
  - destruct (parse_line r line) as [r'|e'] eqn:El.
    + destruct (state_eqb (state r') START_RECORD).
      * destruct (reader_rows parse_reset lines) as [rows' e'] eqn:Er.
        intros [= _ ->]. eapply IH, Er.
      * apply IH.
    + intros [= _ <-]. eapply parse_line_only_CsvError, El.
Qed.

Section Reading.

Context {T : Type} `{D : Dataclass T}.

(** The records are built row by row, blank rows skipped; an exception of
    the reader comes after the rows it yielded. *)
Lemma construct_rows_mapM (header : list pystr) (data : list (list pystr))
    (err : option PyExn) :
  construct_rows T header data err
  = (rs <- mapM (row_record T header) (nonblank data) ;;
     match err with Some e => Raise e | None => Ok rs end).
Proof.
  induction data as [|row data IH]; simpl.
  - destruct err; reflexivity.
  - destruct (is_blank row) eqn:Eb; simpl; [exact IH|].
    unfold row_record at 1.
    destruct (unpack (DictReader_row header row)) as [kw|e]; simpl;
      [|reflexivity].
    destruct (init T kw) as [r|e]; simpl; [|reflexivity].
    rewrite IH.
    destruct (mapM (row_record T header) (nonblank data)); simpl;
      [|reflexivity].
    destruct err; reflexivity.
Qed.

Lemma from_csv_only_TypeError_CsvError (file : pystr) (e : PyExn) :
  from_csv T file = Raise e -> e = TypeError \/ e = CsvError.
Proof.
  unfold from_csv. destruct (file_rows file) as [rows err] eqn:Ef.
  assert (Herr : forall e', err = Some e' -> e' = CsvError).
  { intros e' ->. unfold file_rows, csv_reader in Ef.
    eapply reader_rows_only_CsvError, Ef. }
  destruct rows as [|header data].
  - destruct err as [e'|]; [|discriminate].
    intros [= <-]. right; apply Herr; reflexivity.
  - rewrite construct_rows_mapM.
    destruct (mapM (row_record T header) (nonblank data)) as [rs|e'] eqn:Em;
      simpl.
    + destruct err as [e'|]; [|discriminate].
      intros [= <-]. right; apply Herr; reflexivity.
    + intros [= <-]. apply mapM_Raise in Em as (row & _ & Hrow).
      left. eapply row_record_only_TypeError, Hrow.
Qed.

(** What a successful [from_csv] tells: the reader raised nothing, and the
    records are those of the rows that are not blank, in order. *)
Lemma from_csv_Ok_inv (file : pystr) (rs : list T) :
  from_csv T file = Ok rs ->
  snd (file_rows file) = None
  /\ Forall2 (fun row r => row_record T (header_of file) row = Ok r)
             (nonblank (data_rows file)) rs.
Proof.
  unfold from_csv, header_of, data_rows.
  destruct (file_rows file) as [rows err] eqn:Ef. simpl.
  destruct rows as [|header data]; simpl.
  - destruct err; [discriminate|]. intros [= <-].
    split; [reflexivity | constructor].
  - rewrite construct_rows_mapM.
    destruct (mapM (row_record T header) (nonblank data)) as [rs'|] eqn:Em;
      simpl; [|discriminate].
    destruct err; [discriminate|]. intros [= <-].
    split; [reflexivity | apply mapM_Ok_Forall2, Em].
Qed.

End Reading.

Section ReadingRows.

Context {T : Type} `{D : Dataclass T}.

(** A header that names the fields, without error of the reader and with no
    row longer than the header: every row that is not blank becomes a
    record. *)
Lemma from_csv_rows_accepted (file : pystr) (header : list pystr)
    (data : list (list pystr)) :
  file_rows file = (header :: data, None) ->
  NoDup header ->
  (forall name, In name header <-> In name (fieldnames T)) ->
  Forall (fun row => (length row <= length header)%nat) data ->
  exists rs,
    from_csv T file = Ok rs
    /\ Forall2 (cells_under_names header) (nonblank data) rs.
Proof.
  intros Ef Hnd Hset Hlen. unfold from_csv. rewrite Ef.
  rewrite construct_rows_mapM.
  destruct (mapM_all_Ok (row_record T header) (cells_under_names header)
              (nonblank data)) as (rs & Hm & Hrs).
  - intros row Hrow. apply filter_In in Hrow as [Hrow _].
    rewrite Forall_forall in Hlen.
    apply row_record_ok; [exact Hnd | exact Hset | apply Hlen, Hrow].
  - exists rs. rewrite Hm. split; [reflexivity | exact Hrs].
Qed.

Lemma nonblank_full (n : nat) (data : list (list pystr)) :
  Forall (fun row => length row = S n) data -> nonblank data = data.
Proof.
  induction 1 as [|row data Hrow _ IH]; simpl; [reflexivity|].
  destruct row; [discriminate|]. simpl. rewrite IH; reflexivity.
Qed.

(** A well-formed text: one record per data row. *)
Lemma from_csv_well_formed (file : pystr) :
  fieldnames T <> [] ->
  well_formed T file ->
  exists rs,
    from_csv T file = Ok rs
    /\ Forall2 (cells_under_names (header_of file)) (data_rows file) rs.
Proof.
  intros Hne (header & data & Ef & Hnd & Hset & Hlen).
  unfold header_of, data_rows. rewrite Ef. simpl.
  assert (Hh : exists n, length header = S n).
  { destruct header as [|h header]; [|exists (length header); reflexivity].
    exfalso. destruct (fieldnames T) as [|f fs]; [apply Hne; reflexivity|].
    apply (Hset f). left; reflexivity. }
  destruct Hh as (n & Hn).
  assert (Hnb : nonblank data = data).
  { apply (nonblank_full n).
    eapply Forall_impl; [|exact Hlen]. intros row ->. exact Hn. }
  destruct (from_csv_rows_accepted file header data Ef Hnd Hset)
    as (rs & Hrs & Hall).
  - eapply Forall_impl; [|exact Hlen]. intros row ->. lia.
  - exists rs. rewrite Hnb in Hall. split; assumption.
Qed.

(** A header that does not name the fields: the first row that is not
    blank is refused. *)
Lemma from_csv_header_mismatch (file : pystr) :
  ~ (forall name, In name (header_of file) <-> In name (fieldnames T)) ->
  nonblank (data_rows file) <> [] ->
  from_csv T file = Raise TypeError.
Proof.
  unfold from_csv, header_of, data_rows.
  destruct (file_rows file) as [[|header data] err]; simpl;
    intros Hn Hrows; [exfalso; apply Hrows; reflexivity|].
  rewrite construct_rows_mapM.
  destruct (nonblank data) as [|row rows'] eqn:En;
    [exfalso; apply Hrows; reflexivity|].
  simpl. rewrite (row_record_mismatch header row Hn). reflexivity.
Qed.

(** A row longer than the header is refused. *)
Lemma from_csv_long_row (file : pystr) (row : list pystr) :
  In row (data_rows file) ->
  (length (header_of file) < length row)%nat ->
  from_csv T file = Raise TypeError.
Proof.
  unfold from_csv, header_of, data_rows.
  destruct (file_rows file) as [[|header data] err]; simpl;
    intros Hin Hlt; [destruct Hin|].
  rewrite construct_rows_mapM.
  rewrite (mapM_one_Raise (row_record T header) (nonblank data)
             TypeError row).
  - reflexivity.
  - intros row' e' Hr. eapply row_record_only_TypeError, Hr.
  - apply filter_In. split; [exact Hin|].
    destruct row; [simpl in Hlt; lia | reflexivity].
  - apply row_record_long, Hlt.
Qed.

End ReadingRows.

Lemma kind_has_fields (k : Kind) : fieldnames (record k) <> [].
Proof. destruct k; discriminate. Qed.

(** ** What [from_csv] returns *)




Lemma row_record_bound_to_raw_cells {T : Type} `{D : Dataclass T}
    (header row : list pystr) (r : T) :
  row_record T header row = Ok r -> bound_to_raw_cells header row r.
Proof.
  intros Hr. destruct (row_record_Ok_inv header row r Hr)
    as (Hlen & Hset & Hraw).
  split; [exact Hraw|]. intros Hnd.
  destruct (row_record_ok header row Hnd Hset Hlen) as (r' & Hr' & Hc).
  rewrite Hr in Hr'. injection Hr' as <-. exact Hc.
Qed.

(** C9: whenever [from_csv] accepts a file, every field of every record
    holds raw text of the row the record was read from, as a [str], or
    [None]; no field holds a number, a boolean or an enumeration member,
    whatever its annotation.  When no column name is repeated, a field holds
    the cell under its name (an empty cell is the empty [str]) and [None]
    when the row ends before that column. *)
Theorem C9_from_csv_binds_raw_text :
  forall (k : Kind) (file : pystr) (rs : list (record k)),
    from_csv (record k) file = Ok rs ->
    Forall2 (bound_to_raw_cells (header_of file))
            (nonblank (data_rows file)) rs.
Proof.
  intros k file rs Hrs. apply from_csv_Ok_inv in Hrs as [_ Hall].
  eapply Forall2_impl; [|exact Hall].
  intros row r. apply row_record_bound_to_raw_cells.
Qed.

(** C9 at the media file whose row stops after two cells. *)
Lemma C9_short_row_bound_to_raw_cells :
  Forall2 (bound_to_raw_cells (header_of media_short_file))
          (nonblank (data_rows media_short_file)) [media_short_read].
Proof.
  apply (C9_from_csv_binds_raw_text KMedia media_short_file
           [media_short_read]).
  vm_compute; reflexivity.
Defined.

(** C3, as the code has it: [from_csv] never raises a FormatError.  A
    header that does not name exactly the fields of the class is refused
    with a TypeError, by the constructor, once a data row that is not blank
    is read; so is a data row with more cells than the header.  A data row
    with fewer cells than the header is accepted: the fields without a cell
    are [None]. *)
Theorem C3_from_csv_refuses_with_TypeError :
  forall (k : Kind) (file : pystr),
    from_csv (record k) file <> Raise FormatError
    /\ (~ (forall name, In name (header_of file)
                        <-> In name (fieldnames (record k))) ->
        nonblank (data_rows file) <> [] ->
        from_csv (record k) file = Raise TypeError)
    /\ (forall row,
          In row (data_rows file) ->
          (length (header_of file) < length row)%nat ->
          from_csv (record k) file = Raise TypeError)
    /\ (forall header data,
          file_rows file = (header :: data, None) ->
          NoDup header ->
          (forall name, In name header <-> In name (fieldnames (record k))) ->
          Forall (fun row => (length row <= length header)%nat) data ->
          exists rs,
            from_csv (record k) file = Ok rs
            /\ Forall2 (cells_under_names header) (nonblank data) rs).
Proof.
  intros k file. split; [|split; [|split]].
  - intros He. apply from_csv_only_TypeError_CsvError in He as [He | He];
      discriminate He.
  - apply from_csv_header_mismatch.
  - apply from_csv_long_row.
  - apply from_csv_rows_accepted.
Qed.

(** C3 fails as stated: a data row of two cells under the header of eleven
    names is accepted; a header with a misspelt column is refused with a
    TypeError when a data row follows, and is accepted when none does. *)
Lemma C3_short_row_accepted_and_TypeError :
  from_csv Media.t media_short_file = Ok [media_short_read]
  /\ header_of media_short_file = fieldnames Media.t
  /\ data_rows media_short_file = [[u "m1"; u "d1"]]
  /\ from_csv Media.t media_renamed_file = Raise TypeError
  /\ from_csv Media.t media_renamed_header_only = Ok []
  /\ from_csv Media.t media_long_file = Raise TypeError.
Proof.
  repeat split; vm_compute; reflexivity.
Qed.

(** C2, as the code has it: [from_csv] never raises a ValueError, and in a
    well-formed text every cell is stored as the [str] it is, whatever the
    annotation of its field and whether or not the text could be coerced
    to it. *)
Theorem C2_from_csv_coerces_nothing :
  forall (k : Kind) (file : pystr),
    from_csv (record k) file <> Raise ValueError
    /\ (well_formed (record k) file ->
        exists rs,
          from_csv (record k) file = Ok rs
          /\ Forall2
               (fun row r =>
                  forall i name s,
                    nth_error (header_of file) i = Some name ->
                    nth_error row i = Some s ->
                    getattr r name = Some (PyStr s))
               (data_rows file) rs).
Proof.
  intros k file. split.
  - intros He. apply from_csv_only_TypeError_CsvError in He as [He | He];
      discriminate He.
  - intros Hwf.
    destruct (from_csv_well_formed file (kind_has_fields k) Hwf)
      as (rs & Hrs & Hall).
    exists rs. split; [exact Hrs|].
    eapply Forall2_impl; [|exact Hall].
    intros row r Hc i name s Hname Hs.
    rewrite (Hc i name Hname), Hs. reflexivity.
Qed.

(** C2 fails as stated: the deployment file with [north] under latitude,
    [perhaps] under timestampIssues and [volcano] under featureType, none of
    which can be coerced, is read without error and the three texts are in
    the record. *)
Lemma C2_uncoercible_text_is_kept :
  from_csv Deployment.t deployment_untyped_file
  = Ok [deployment_untyped_read]
  /\ coercible (required TFloat) (u "north") = false
  /\ coercible (optional TBool) (u "perhaps") = false
  /\ coercible (optional (TEnum EFeatureType)) (u "volcano") = false
  /\ Deployment.latitude deployment_untyped_read = PyStr (u "north")
  /\ Deployment.timestampIssues deployment_untyped_read
     = PyStr (u "perhaps")
  /\ Deployment.featureType deployment_untyped_read = PyStr (u "volcano").
Proof.
  repeat split; vm_compute; reflexivity.
Qed.

(** ** Tables *)

Lemma add_key_present (acc ks : list pystr) :
  (forall k, In k ks -> In k acc) -> fold_left add_key ks acc = acc.
Proof.
  induction ks as [|k ks IH]; simpl; intros Hin; [reflexivity|].
  unfold add_key at 2.
  rewrite (proj2 (mem_In k acc)) by (apply Hin; left; reflexivity).
  apply IH. intros x Hx; apply Hin; right; exact Hx.
Qed.

Lemma add_key_fresh (ks acc : list pystr) :
  NoDup (acc ++ ks) -> fold_left add_key ks acc = acc ++ ks.
Proof.
  revert acc; induction ks as [|k ks IH]; intros acc Hnd; simpl.
  - symmetry; apply app_nil_r.
  - unfold add_key at 2.
    assert (Hk : mem k acc = false).
    { apply mem_not_In. intros Hk.
      apply (NoDup_app_disjoint acc (k :: ks) k Hnd Hk). left; reflexivity. }
    rewrite Hk. rewrite IH; rewrite <- app_assoc; [reflexivity | exact Hnd].
Qed.

(** Dicts that all have the keys [ks]: the columns are [ks]. *)
Lemma union_keys_same (ks : list pystr) (dicts : list kwargs) :
  NoDup ks -> dicts <> [] ->
  Forall (fun d => map fst d = ks) dicts ->
  union_keys dicts = ks.
Proof.
  intros Hnd Hne Hall. unfold union_keys.
  destruct dicts as [|d dicts]; [contradiction|].
  inversion Hall as [|? ? Hd Hrest]; subst. simpl.
  rewrite add_key_fresh by exact Hnd. simpl.
  clear Hne Hall. induction dicts as [|d' dicts IH]; simpl; [reflexivity|].
  inversion Hrest as [|? ? Hd' Hrest']; subst.
  rewrite Hd', add_key_present by auto. apply IH, Hrest'.
Qed.

Lemma text_column_sees_no_number (col : list PyVal) :
  forallb is_text_or_none col = true ->
  existsb is_bool col = false
  /\ existsb is_float col = false
  /\ existsb is_int col = false.
Proof.
  induction col as [|v col IH]; simpl; [auto|].
  rewrite andb_true_iff. intros [Hv Hcol].
  destruct (IH Hcol) as (-> & -> & ->).
  destruct v; try discriminate; auto.
Qed.

(** A column of texts and [None] is an object column. *)
Lemma infer_dtype_text (col : list PyVal) :
  forallb is_text_or_none col = true -> infer_dtype col = Object.
Proof.
  intros Hcol. unfold infer_dtype.
  destruct (existsb is_object col); [reflexivity|].
  destruct (text_column_sees_no_number col Hcol) as (-> & -> & ->).
  reflexivity.
Qed.

Lemma common_dtype_objects (dts : list DType) :
  Forall (fun d => d = Object) dts -> common_dtype dts = Object.
Proof.
  intros Hall. destruct dts as [|d ds]; [reflexivity|].
  inversion Hall as [|? ? -> Hds]; subst. simpl.
  assert (H : forallb (dtype_eqb Object) ds = true).
  { apply forallb_forall. rewrite Forall_forall in Hds.
    intros d Hd. rewrite (Hds d Hd). reflexivity. }
  rewrite H; reflexivity.
Qed.

Lemma dict_cell_combine (ks : list pystr) (vs : list PyVal) :
  NoDup ks -> length ks = length vs ->
  map (fun k => dict_cell k (combine ks vs)) ks = vs.
Proof.
  intros Hnd Hlen.
  transitivity (map (bound (combine ks vs)) ks);
    [|apply bound_combine; assumption].
  apply map_ext_in. intros k Hk. unfold dict_cell, bound.
  destruct (lookup k (combine ks vs)) eqn:E; [reflexivity|].
  apply lookup_None in E. rewrite map_fst_combine in E by exact Hlen.
  contradiction.
Qed.

Section Tables.

Context {T : Type} `{D : Dataclass T}.

Lemma iterrows_keys (df : DataFrame) (kw : kwargs) (name : pystr) :
  In kw (iterrows df) -> In name (map fst kw) ->
  In name (map fst (columns df)).
Proof.
  unfold iterrows. intros Hkw Hname.
  apply in_map_iff in Hkw as (row & <- & _).
  rewrite map_fst_combine_firstn in Hname.
  rewrite <- (firstn_skipn (length (map (store
    (common_dtype (map snd (columns df)))) row)) (map fst (columns df))).
  apply in_or_app; left; exact Hname.
Qed.

End Tables.

Section TableRoundTrip.

Context {T : Type} `{D : Dataclass T}.

Lemma from_pandas_only_TypeError (df : DataFrame) (e : PyExn) :
  from_pandas T df = Raise e -> e = TypeError.
Proof.
  unfold from_pandas. intros Hm.
  apply mapM_Raise in Hm as (kw & _ & Hkw).
  eapply init_only_TypeError, Hkw.
Qed.

(** A table with a row and without a column for one of the fields. *)
Lemma from_pandas_missing_column (df : DataFrame) (name : pystr) :
  In name (fieldnames T) ->
  ~ In name (map fst (columns df)) ->
  rows df <> [] ->
  from_pandas T df = Raise TypeError.
Proof.
  intros Hname Hcol Hrows. unfold from_pandas.
  destruct (iterrows df) as [|kw kws] eqn:Ei.
  - unfold iterrows in Ei. destruct (rows df); [contradiction|discriminate].
  - apply (mapM_one_Raise (init T) (kw :: kws) TypeError kw).
    + intros kw' e'. apply init_only_TypeError.
    + left; reflexivity.
    + apply (init_missing kw name Hname). intros Hk. apply Hcol.
      apply (iterrows_keys df kw name); [|exact Hk].
      rewrite Ei; left; reflexivity.
Qed.

Lemma from_pandas_no_rows (df : DataFrame) :
  rows df = [] -> from_pandas T df = Ok [].
Proof.
  intros Hrows. unfold from_pandas, iterrows. rewrite Hrows. reflexivity.
Qed.

(** The table of records that hold texts and [None] only: object columns,
    and the field values as they are. *)
Lemma to_pandas_text (records : list T) :
  records <> [] ->
  Forall (fun r => forallb is_text_or_none (field_values r) = true)
         records ->
  to_pandas records
  = mkDataFrame (map (fun name => (name, Object)) (fieldnames T))
                (map field_values records).
Proof.
  intros Hne Htext. unfold to_pandas, DataFrame_of_dicts.
  rewrite (union_keys_same (fieldnames T)).
  - assert (Hcols :
      map (fun k => (k, infer_dtype
                          (map (dict_cell k) (map instance_dict records))))
          (fieldnames T)
      = map (fun name => (name, Object)) (fieldnames T)).
    { apply map_ext_in. intros k Hk. f_equal. apply infer_dtype_text.
      apply forallb_forall. intros v Hv.
      apply in_map_iff in Hv as (d & <- & Hd).
      apply in_map_iff in Hd as (r & <- & Hr).
      rewrite Forall_forall in Htext. specialize (Htext r Hr).
      rewrite forallb_forall in Htext. apply Htext.
      unfold dict_cell. destruct (lookup k (instance_dict r)) eqn:El.
      - apply lookup_In in El. eapply in_combine_r, El.
      - apply lookup_None in El. rewrite instance_dict_keys in El.
        contradiction. }
    rewrite Hcols. f_equal. rewrite map_map. apply map_ext. intros r.
    rewrite map_map. simpl. unfold instance_dict.
    apply dict_cell_combine;
      [apply fieldnames_NoDup | symmetry; apply field_values_length].
  - apply fieldnames_NoDup.
  - destruct records; [contradiction | discriminate].
  - apply Forall_map, Forall_forall. intros r _. apply instance_dict_keys.
Qed.

Lemma from_pandas_to_pandas_text (records : list T) :
  Forall (fun r => forallb is_text_or_none (field_values r) = true)
         records ->
  from_pandas T (to_pandas records) = Ok records.
Proof.
  intros Htext. destruct records as [|r0 records0] eqn:Er; [reflexivity|].
  rewrite <- Er in *. rewrite to_pandas_text; [| subst; discriminate | exact Htext].
  unfold from_pandas, iterrows. simpl columns. simpl rows.
  rewrite common_dtype_objects
    by (rewrite map_map; simpl; apply Forall_map, Forall_forall; reflexivity).
  rewrite map_map, mapM_map.
  rewrite (mapM_ext _ (fun r => Ok ((fun r => r) r))).
  - rewrite mapM_Ok, map_id. reflexivity.
  - intros r _. rewrite map_map; simpl. rewrite map_id, map_id.
    apply init_instance_dict.
Qed.

End TableRoundTrip.

(** ** What the table methods return *)

(** C4, as the code and pandas have it: for each record kind, a sequence of
    records whose fields hold texts or [None], which is what [from_csv]
    returns, comes back from the table equal, with the same length and in
    the same order; the empty sequence too. *)
Theorem C4_table_round_trip_of_text_records :
  forall (k : Kind) (records : list (record k)),
    Forall (fun r => forallb is_text_or_none (field_values r) = true)
           records ->
    from_pandas (record k) (to_pandas records) = Ok records.
Proof.
  intros k records. apply from_pandas_to_pandas_text.
Qed.

(** C4 at two media records read from files. *)
Lemma C4_media_records_come_back :
  from_pandas (record KMedia)
    (to_pandas [media_two_lines_read; media_short_read])
  = Ok [media_two_lines_read; media_short_read].
Proof.
  apply (C4_table_round_trip_of_text_records KMedia
           [media_two_lines_read; media_short_read]).
  repeat constructor.
Defined.

(** C4 fails as stated: of two deployments, one without and one with a
    coordinate uncertainty, the first comes back with NaN in the place of
    [None], the column having become float64. *)
Lemma C4_None_comes_back_as_NaN :
  from_pandas Deployment.t (to_pandas [deployment_plain; deployment_uncertain])
  = Ok [deployment_plain_back; deployment_uncertain]
  /\ Deployment.coordinateUncertainty deployment_plain = PyNone
  /\ Deployment.coordinateUncertainty deployment_plain_back = PyFloat nan
  /\ deployment_plain_back <> deployment_plain.
Proof.
  repeat split; try (vm_compute; reflexivity). discriminate.
Qed.

(** C8, as the code has it: [from_pandas] never raises a FormatError.  On a
    table that has a row and no column for some field of the class, required
    or optional, the constructor raises a TypeError; a table without rows
    gives the empty list whatever its columns. *)
Theorem C8_from_pandas_missing_column_TypeError :
  forall (k : Kind) (df : DataFrame),
    from_pandas (record k) df <> Raise FormatError
    /\ (forall name,
          In name (fieldnames (record k)) ->
          ~ In name (map fst (columns df)) ->
          rows df <> [] ->
          from_pandas (record k) df = Raise TypeError)
    /\ (rows df = [] -> from_pandas (record k) df = Ok []).
Proof.
  intros k df. split; [|split].
  - intros He. apply from_pandas_only_TypeError in He. discriminate He.
  - intros name. apply from_pandas_missing_column.
  - apply from_pandas_no_rows.
Qed.

(** C8 fails as stated: a table without the column of the required field
    [mediaID] is refused with a TypeError when it has a row, and accepted
    when it has none. *)
Lemma C8_missing_column_is_TypeError :
  from_pandas Media.t media_frame_without_id = Raise TypeError
  /\ from_pandas Media.t media_frame_without_id_empty = Ok []
  /\ mem (u "mediaID") (map fst (columns media_frame_without_id)) = false
  /\ mem (u "mediaID")
       (map fst (columns media_frame_without_id_empty)) = false.
Proof.
  repeat split; vm_compute; reflexivity.
Qed.

(** ** The package root *)

(** The two root methods never return: a call that passes no argument
    raises NotImplementedError, any other call raises a TypeError before
    the body runs. *)
Lemma root_methods_always_raise (rcv : Root.Receiver) (args : list PyVal) :
  (Root.passed rcv args = 0%nat ->
   Root.from_csv rcv args = Raise NotImplementedError
   /\ Root.to_csv rcv args = Raise NotImplementedError)
  /\ (Root.passed rcv args <> 0%nat ->
      Root.from_csv rcv args = Raise TypeError
      /\ Root.to_csv rcv args = Raise TypeError)
  /\ (forall rs, Root.from_csv rcv args <> Ok rs)
  /\ (forall text, Root.to_csv rcv args <> Ok text).
Proof.
  unfold Root.from_csv, Root.to_csv, Root.call_nullary.
  destruct (Root.passed rcv args) as [|n].
  - split; [intros _; split; reflexivity|].
    split; [intros H; exfalso; apply H; reflexivity|].
    split; intros x; discriminate.
  - split; [discriminate|].
    split; [intros _; split; reflexivity|].
    split; intros x; discriminate.
Qed.

(** C10 on the code: the root class repeats the schema of deployments.py
    with [habitatType] for [habitat], and its two methods never read or
    write; they raise NotImplementedError when called on the class without
    argument, but a call that passes the path of a file, or a call on an
    instance, is a TypeError. *)
Theorem C10_root_deployment_methods :
  Root.fields = map rename_habitat Deployment.fields
  /\ Root.from_csv Root.OnClass [] = Raise NotImplementedError
  /\ Root.to_csv Root.OnClass [] = Raise NotImplementedError
  /\ Root.from_csv Root.OnClass [PyStr (u "deployments.csv")]
     = Raise TypeError
  /\ Root.to_csv Root.OnClass [PyNone; PyStr (u "deployments.csv")]
     = Raise TypeError
  /\ Root.from_csv Root.OnInstance [] = Raise TypeError
  /\ Root.to_csv Root.OnInstance [] = Raise TypeError.
Proof.
  repeat split; reflexivity.
Qed.

(** ** The reader over the lines of a text and over its characters *)

Lemma feed_app (a b : pystr) (r : ReaderObj) :
  feed r (a ++ b) = (q <- feed r a ;; feed q b).
Proof.
  revert r; induction a as [|c a IH]; intros r; simpl; [reflexivity|].
  destruct (parse_process_char r (Some c)); simpl; [apply IH | reflexivity].
Qed.

Lemma parse_line_feed (line : pystr) (r : ReaderObj) :
  parse_line r line = (q <- feed r line ;; parse_process_char q None).
Proof.
  revert r; induction line as [|c line IH]; intros r; simpl; [reflexivity|].
  destruct (parse_process_char r (Some c)); simpl; [apply IH | reflexivity].
Qed.

Lemma readlines_from_first (t cur : pystr) :
  cur <> [] \/ t <> [] ->
  exists x rest, readlines_from cur t = (cur ++ x) :: rest.
Proof.
  revert cur; induction t as [|c t IH]; intros cur Hne; simpl.
  - destruct Hne as [Hne | Hne]; [|contradiction].
    destruct cur; [contradiction|]. exists [], [].
    rewrite app_nil_r; reflexivity.
  - destruct (c =? LF).
    + exists [c]. eexists; reflexivity.
    + destruct (IH (cur ++ [c])) as (x & rest & E).
      * left. intros E; apply app_eq_nil in E as [_ E]; discriminate.
      * exists (c :: x), rest. rewrite E, <- app_assoc; reflexivity.
Qed.

Lemma reader_rows_feed_error (r : ReaderObj) (cur t : pystr) (e : PyExn) :
  feed r cur = Raise e ->
  reader_rows r (readlines_from cur t) = ([], Some e).
Proof.
  intros Hf.
  destruct (readlines_from_first t cur) as (x & rest & E).
  - left. intros ->. discriminate Hf.
  - rewrite E. simpl. rewrite parse_line_feed, feed_app, Hf. reflexivity.
Qed.

Lemma ends_lines_tail (c : pychar) (t : pystr) :
  ends_lines (c :: t) -> ends_lines t.
Proof.
  intros [E | (a & E)]; [discriminate|].
  destruct t as [|d t]; [left; reflexivity|]. right.
  destruct a as [|x a]; [discriminate|].
  injection E as _ E. exists a; exact E.
Qed.

Lemma ends_lines_last (c : pychar) : ends_lines [c] -> c = LF.
Proof.
  intros [E | (a & E)]; [discriminate|].
  destruct a as [|x [|y a]]; simpl in E; try discriminate.
  injection E as ->; reflexivity.
Qed.

(** Cutting a text into lines and reading the lines is reading the
    characters. *)
Lemma reader_rows_stream (t : pystr) :
  forall (r : ReaderObj) (cur : pystr) (q : ReaderObj),
    feed r cur = Ok q ->
    ends_lines t ->
    (t = [] -> cur = []) ->
    reader_rows r (readlines_from cur t) = stream q t.
Proof.
  induction t as [|c t IH]; intros r cur q Hf Hends Hcur.
  - rewrite (Hcur eq_refl) in *. injection Hf as <-. reflexivity.
  - cbn [readlines_from stream].
    assert (Hstep : feed r (cur ++ [c]) = parse_process_char q (Some c)).
    { rewrite feed_app, Hf. simpl.
      destruct (parse_process_char q (Some c)); reflexivity. }
    pose proof (ends_lines_tail c t Hends) as Hends'.
    destruct (c =? LF) eqn:Ec.
    + cbn [reader_rows]. rewrite parse_line_feed, Hstep.
      destruct (parse_process_char q (Some c)) as [r1|e]; cbn [bind];
        [|reflexivity].
      destruct (parse_process_char r1 None) as [r2|e]; [|reflexivity].
      destruct (state_eqb (state r2) START_RECORD).
      * rewrite (IH parse_reset [] parse_reset); auto.
      * apply IH; auto.
    + destruct (parse_process_char q (Some c)) as [r1|e] eqn:Ep.
      * apply IH; [exact Hstep | exact Hends' |].
        intros ->. apply ends_lines_last in Hends. subst c.
        discriminate Ec.
      * apply reader_rows_feed_error, Hstep.
Qed.

Lemma csv_reader_stream (t : pystr) :
  ends_lines t -> csv_reader (readlines t) = stream parse_reset t.
Proof.
  intros Hends. unfold csv_reader, readlines.
  apply reader_rows_stream; auto.
Qed.

(** ** Reading back what the writer wrote *)

Lemma special_false (c : pychar) :
  special c = false ->
  (c =? COMMA) = false /\ (c =? DQUOTE) = false
  /\ (c =? CR) = false /\ (c =? LF) = false.
Proof.
  unfold special. rewrite !orb_false_iff. tauto.
Qed.

Lemma room_for_one (pre s : pystr) (c : pychar) :
  fits (pre ++ c :: s) = true ->
  (field_limit <=? N.of_nat (length pre)) = false.
Proof.
  unfold fits. rewrite length_app. simpl length.
  generalize field_limit. intros lim H.
  apply N.leb_le in H. apply N.leb_gt. lia.
Qed.

Lemma step_start_field_plain (fs : list pystr) (c : pychar) :
  special c = false ->
  parse_process_char (mkReader START_FIELD fs []) (Some c)
  = Ok (mkReader IN_FIELD fs [c]).
Proof.
  intros Hc. apply special_false in Hc as (Hcomma & Hq & Hcr & Hlf).
  unfold parse_process_char, is_newline; simpl.
  rewrite Hlf, Hcr, Hq, Hcomma. reflexivity.
Qed.

Lemma step_in_field_plain (fs : list pystr) (pre : pystr) (c : pychar) :
  special c = false ->
  (field_limit <=? N.of_nat (length pre)) = false ->
  parse_process_char (mkReader IN_FIELD fs pre) (Some c)
  = Ok (mkReader IN_FIELD fs (pre ++ [c])).
Proof.
  intros Hc Hroom. apply special_false in Hc as (Hcomma & Hq & Hcr & Hlf).
  unfold parse_process_char, parse_add_char, is_newline; simpl.
  rewrite Hlf, Hcr, Hcomma, Hroom. reflexivity.
Qed.

Lemma step_in_quoted_char (fs : list pystr) (pre : pystr) (c : pychar) :
  (c =? DQUOTE) = false ->
  (field_limit <=? N.of_nat (length pre)) = false ->
  parse_process_char (mkReader IN_QUOTED_FIELD fs pre) (Some c)
  = Ok (mkReader IN_QUOTED_FIELD fs (pre ++ [c])).
Proof.
  intros Hq Hroom.
  unfold parse_process_char, parse_add_char; simpl.
  rewrite Hq, Hroom. reflexivity.
Qed.

Lemma step_quote_quote (fs : list pystr) (pre : pystr) :
  (field_limit <=? N.of_nat (length pre)) = false ->
  parse_process_char (mkReader QUOTE_IN_QUOTED_FIELD fs pre) (Some DQUOTE)
  = Ok (mkReader IN_QUOTED_FIELD fs (pre ++ [DQUOTE])).
Proof.
  intros Hroom. unfold parse_process_char, parse_add_char; simpl.
  rewrite Hroom. reflexivity.
Qed.

(** Inside an unquoted field. *)
Lemma stream_in_field (s : pystr) :
  forall (fs : list pystr) (pre t : pystr),
    needs_quotes s = false ->
    fits (pre ++ s) = true ->
    stream (mkReader IN_FIELD fs pre) (s ++ t)
    = stream (mkReader IN_FIELD fs (pre ++ s)) t.
Proof.
  induction s as [|c s IH]; intros fs pre t Hplain Hfits.
  - rewrite app_nil_r; reflexivity.
  - unfold needs_quotes in Hplain. simpl in Hplain.
    apply orb_false_iff in Hplain as [Hc Hs].
    cbn [stream app].
    rewrite (step_in_field_plain fs pre c Hc (room_for_one pre s c Hfits)).
    apply special_false in Hc as (_ & _ & _ & ->).
    replace (pre ++ c :: s) with ((pre ++ [c]) ++ s) in *
      by (rewrite <- app_assoc; reflexivity).
    apply IH; assumption.
Qed.

(** Inside a quoted field. *)
Lemma stream_in_quoted (s : pystr) :
  forall (fs : list pystr) (pre t : pystr),
    fits (pre ++ s) = true ->
    stream (mkReader IN_QUOTED_FIELD fs pre) (double_quotes s ++ t)
    = stream (mkReader IN_QUOTED_FIELD fs (pre ++ s)) t.
Proof.
  induction s as [|c s IH]; intros fs pre t Hfits.
  - rewrite app_nil_r; reflexivity.
  - pose proof (room_for_one pre s c Hfits) as Hroom.
    replace (pre ++ c :: s) with ((pre ++ [c]) ++ s) in *
      by (rewrite <- app_assoc; reflexivity).
    unfold double_quotes. cbn [flat_map].
    fold (double_quotes s).
    destruct (c =? DQUOTE) eqn:Eq.
    + apply N.eqb_eq in Eq; subst c.
      cbn [stream app]. cbn [parse_process_char state].
      change (DQUOTE =? DQUOTE) with true. cbn iota.
      change (DQUOTE =? LF) with false. cbn iota.
      change (set_state (mkReader IN_QUOTED_FIELD fs pre)
                QUOTE_IN_QUOTED_FIELD)
        with (mkReader QUOTE_IN_QUOTED_FIELD fs pre).
      rewrite (step_quote_quote fs pre Hroom).
      apply IH; assumption.
    + cbn [stream app].
      rewrite (step_in_quoted_char fs pre c Eq Hroom).
      destruct (c =? LF) eqn:El.
      * change (parse_process_char
                  (mkReader IN_QUOTED_FIELD fs (pre ++ [c])) None)
          with (Ok (mkReader IN_QUOTED_FIELD fs (pre ++ [c]))).
        cbn iota. change (state_eqb (state
          (mkReader IN_QUOTED_FIELD fs (pre ++ [c]))) START_RECORD)
          with false. cbn iota.
        apply IH; assumption.
      * apply IH; assumption.
Qed.

(** A written cell followed by the delimiter: one more field. *)
Lemma stream_cell_comma (fs : list pystr) (cell t : pystr) :
  fits cell = true ->
  stream (mkReader START_FIELD fs []) (join_append cell ++ COMMA :: t)
  = stream (mkReader START_FIELD (fs ++ [cell]) []) t.
Proof.
  intros Hfits. unfold join_append.
  destruct (needs_quotes cell) eqn:Hq.
  - cbn [app]. rewrite <- app_assoc. cbn [stream].
    change (parse_process_char (mkReader START_FIELD fs []) (Some DQUOTE))
      with (Ok (mkReader IN_QUOTED_FIELD fs [])).
    change (DQUOTE =? LF) with false. cbn iota.
    rewrite (stream_in_quoted cell fs [] _ Hfits). reflexivity.
  - destruct cell as [|c s]; [reflexivity|].
    unfold needs_quotes in Hq. simpl in Hq.
    apply orb_false_iff in Hq as [Hc Hs].
    cbn [stream app]. rewrite (step_start_field_plain fs c Hc).
    apply special_false in Hc as (_ & _ & _ & ->).
    rewrite (stream_in_field s fs [c] _ Hs Hfits). reflexivity.
Qed.

(** A written cell followed by the end of the line: the record is
    complete. *)
Lemma stream_cell_newline (fs : list pystr) (cell t : pystr) :
  fits cell = true ->
  stream (mkReader START_FIELD fs []) (join_append cell ++ LF :: t)
  = (let '(rows, e) := stream parse_reset t in ((fs ++ [cell]) :: rows, e)).
Proof.
  intros Hfits. unfold join_append.
  destruct (needs_quotes cell) eqn:Hq.
  - cbn [app]. rewrite <- app_assoc. cbn [stream].
    change (parse_process_char (mkReader START_FIELD fs []) (Some DQUOTE))
      with (Ok (mkReader IN_QUOTED_FIELD fs [])).
    change (DQUOTE =? LF) with false. cbn iota.
    rewrite (stream_in_quoted cell fs [] _ Hfits). reflexivity.
  - destruct cell as [|c s]; [reflexivity|].
    unfold needs_quotes in Hq. simpl in Hq.
    apply orb_false_iff in Hq as [Hc Hs].
    cbn [stream app]. rewrite (step_start_field_plain fs c Hc).
    apply special_false in Hc as (_ & _ & _ & ->).
    rewrite (stream_in_field s fs [c] _ Hs Hfits). reflexivity.
Qed.

Lemma read_row_cons (a b : pystr) (cells : list pystr) (t : pystr) :
  read_row (a :: b :: cells) ++ t
  = join_append a ++ COMMA :: (read_row (b :: cells) ++ t).
Proof.
  unfold read_row. cbn [map]. rewrite join_cons2.
  rewrite <- !app_assoc. reflexivity.
Qed.

Lemma read_row_one (a t : pystr) :
  read_row [a] ++ t = join_append a ++ LF :: t.
Proof.
  unfold read_row. simpl. rewrite <- app_assoc. reflexivity.
Qed.

(** The cells of a row, the first of them too, read from a field start. *)
Lemma stream_cells (cells : list pystr) :
  forall (fs : list pystr) (cell t : pystr),
    forallb fits (cell :: cells) = true ->
    stream (mkReader START_FIELD fs []) (read_row (cell :: cells) ++ t)
    = (let '(rows, e) := stream parse_reset t in
       ((fs ++ cell :: cells) :: rows, e)).
Proof.
  induction cells as [|cell' cells IH]; intros fs cell t Hfits;
    simpl in Hfits; apply andb_true_iff in Hfits as [Hcell Hrest].
  - rewrite read_row_one. apply stream_cell_newline, Hcell.
  - rewrite read_row_cons, (stream_cell_comma fs cell _ Hcell).
    rewrite (IH (fs ++ [cell]) cell' t Hrest).
    rewrite <- app_assoc. reflexivity.
Qed.

(** The first character of a row of two cells or more is no newline, so
    the record starts as a field does. *)
Lemma stream_row_start (a b : pystr) (cells : list pystr) (t : pystr) :
  stream parse_reset (read_row (a :: b :: cells) ++ t)
  = stream (mkReader START_FIELD [] []) (read_row (a :: b :: cells) ++ t).
Proof.
  rewrite read_row_cons.
  unfold join_append at 1 2. destruct (needs_quotes a) eqn:Hq.
  - reflexivity.
  - destruct a as [|c s]; [reflexivity|].
    unfold needs_quotes in Hq. simpl in Hq.
    apply orb_false_iff in Hq as [Hc _].
    apply special_false in Hc as (Hcomma & Hdq & Hcr & Hlf).
    cbn [app stream]. unfold parse_process_char, parse_reset, is_newline.
    cbn [state set_state]. rewrite Hlf, Hcr. reflexivity.
Qed.

(** Rows of two cells or more, each cell within the field limit: the
    reader yields them, and raises nothing. *)
Lemma stream_rows (rows : list (list pystr)) :
  Forall (fun cells => (2 <= length cells)%nat
                       /\ forallb fits cells = true) rows ->
  stream parse_reset (concat (map read_row rows)) = (rows, None).
Proof.
  induction 1 as [|cells rows [Hlen Hfits] _ IH]; [reflexivity|].
  cbn [map concat].
  destruct cells as [|a [|b cells]]; simpl in Hlen; try lia.
  rewrite stream_row_start, (stream_cells _ _ _ _ Hfits), IH. reflexivity.
Qed.

(** ** Universal newlines on a written file *)

Lemma universal_newlines_no_cr (s t : pystr) :
  no_cr s = true -> universal_newlines (s ++ t) = s ++ universal_newlines t.
Proof.
  induction s as [|c s IH]; simpl; intros Hs; [reflexivity|].
  apply andb_true_iff in Hs as [Hc Hs]. apply negb_true_iff in Hc.
  rewrite Hc, (IH Hs). reflexivity.
Qed.

Lemma no_cr_app (a b : pystr) : no_cr (a ++ b) = no_cr a && no_cr b.
Proof. apply forallb_app. Qed.

Lemma no_cr_double_quotes (s : pystr) :
  no_cr s = true -> no_cr (double_quotes s) = true.
Proof.
  induction s as [|c s IH]; simpl; intros Hs; [reflexivity|].
  apply andb_true_iff in Hs as [Hc Hs].
  fold (double_quotes s). rewrite no_cr_app, (IH Hs), andb_true_r.
  destruct (c =? DQUOTE); simpl; [reflexivity|]. rewrite Hc; reflexivity.
Qed.

Lemma no_cr_join_append (s : pystr) :
  no_cr s = true -> no_cr (join_append s) = true.
Proof.
  intros Hs. unfold join_append. destruct (needs_quotes s); [|exact Hs].
  change (DQUOTE :: double_quotes s ++ [DQUOTE])
    with ([DQUOTE] ++ double_quotes s ++ [DQUOTE]).
  rewrite !no_cr_app, (no_cr_double_quotes s Hs). reflexivity.
Qed.

Lemma no_cr_join (parts : list pystr) :
  forallb no_cr parts = true -> no_cr (join [COMMA] parts) = true.
Proof.
  induction parts as [|p parts IH]; [reflexivity|]. intros Hp.
  cbn [forallb] in Hp. apply andb_true_iff in Hp as [Hp Hrest].
  destruct parts as [|q parts]; [exact Hp|].
  rewrite join_cons2, !no_cr_app, Hp, (IH Hrest). reflexivity.
Qed.

(** A written row whose cells hold no carriage return, as it is read: the
    CR LF that ends it is a LF. *)
Lemma universal_newlines_row (cells : list pystr) (t : pystr) :
  forallb no_cr cells = true ->
  universal_newlines (written_row (map join_append cells) ++ t)
  = read_row cells ++ universal_newlines t.
Proof.
  intros Hcells. unfold written_row, read_row, lineterminator.
  rewrite <- !app_assoc. rewrite universal_newlines_no_cr.
  - reflexivity.
  - apply no_cr_join. rewrite forallb_forall in *. intros s Hs.
    apply in_map_iff in Hs as (cell & <- & Hcell).
    apply no_cr_join_append, Hcells, Hcell.
Qed.

Lemma universal_newlines_rows (rows : list (list pystr)) :
  Forall (fun cells => forallb no_cr cells = true) rows ->
  universal_newlines
    (concat (map (fun cells => written_row (map join_append cells)) rows))
  = concat (map read_row rows).
Proof.
  induction 1 as [|cells rows Hcells _ IH]; [reflexivity|].
  cbn [map concat]. rewrite (universal_newlines_row _ _ Hcells), IH.
  reflexivity.
Qed.

Lemma ends_lines_rows (rows : list (list pystr)) :
  ends_lines (concat (map read_row rows)).
Proof.
  induction rows as [|cells rows IH]; [left; reflexivity|].
  right. cbn [map concat]. unfold read_row at 1.
  destruct IH as [-> | (a & ->)].
  - rewrite app_nil_r. eexists; reflexivity.
  - exists ((join [COMMA] (map join_append cells) ++ [LF]) ++ a).
    rewrite <- !app_assoc. reflexivity.
Qed.

(** The rows of a written file whose first character is no byte-order
    mark. *)
Lemma file_rows_written (rows : list (list pystr)) :
  let file :=
    concat (map (fun cells => written_row (map join_append cells)) rows) in
  decode_utf8_sig file = file ->
  Forall (fun cells => (2 <= length cells)%nat
                       /\ forallb cell_ok cells = true) rows ->
  file_rows file = (rows, None).
Proof.
  intros file Hbom Hrows. unfold file_rows. rewrite Hbom. unfold file.
  rewrite universal_newlines_rows.
  - rewrite csv_reader_stream by apply ends_lines_rows.
    apply stream_rows. eapply Forall_impl; [|exact Hrows].
    intros cells [Hlen Hok]. split; [exact Hlen|].
    rewrite forallb_forall in *. intros s Hs.
    specialize (Hok s Hs). unfold cell_ok in Hok.
    apply andb_true_iff in Hok as [_ Hok]; exact Hok.
  - eapply Forall_impl; [|exact Hrows].
    intros cells [_ Hok]. rewrite forallb_forall in *. intros s Hs.
    specialize (Hok s Hs). unfold cell_ok in Hok.
    apply andb_true_iff in Hok as [Hok _]; exact Hok.
Qed.

(** ** Writing, reading, and writing again *)

Lemma Forall2_map_eq {A B C} (f : A -> C) (g : B -> C)
    (l : list A) (l' : list B) :
  Forall2 (fun a b => f a = g b) l l' -> map f l = map g l'.
Proof.
  induction 1 as [|a b l l' Hab _ IH]; simpl; [reflexivity|].
  rewrite Hab, IH; reflexivity.
Qed.

Lemma Forall2_map_l {A B C} (R : C -> B -> Prop) (f : A -> C)
    (l : list A) (l' : list B) :
  Forall2 R (map f l) l' <-> Forall2 (fun a b => R (f a) b) l l'.
Proof.
  split.
  - revert l'; induction l as [|a l IH]; intros l' H; inversion H; subst;
      constructor; auto.
  - induction 1; simpl; constructor; auto.
Qed.

(** The texts of a record that can be written, and the record of these
    texts. *)
Lemma writable_cell_texts {T : Type} `{D : Dataclass T} (r : T) :
  writable r = true -> forallb encodable (cell_texts r) = true.
Proof.
  intros Hw. apply (csv_fields_writable (field_values r) Hw).
Qed.

Lemma writable_texts {T : Type} `{D : Dataclass T} (r : T)
    (cells : list pystr) :
  field_values r = map PyStr cells ->
  forallb encodable cells = true ->
  writable r = true /\ cell_texts r = cells.
Proof.
  intros Hv He. unfold writable, cell_texts. rewrite Hv. split.
  - rewrite forallb_forall in *. intros v Hin.
    apply in_map_iff in Hin as (s & <- & Hs). apply (He s Hs).
  - rewrite map_map. apply map_id.
Qed.

Section RoundTrip.

Context {T : Type} `{D : Dataclass T}.

Hypothesis two_fields : (2 <= length (fieldnames T))%nat.
Hypothesis plain_names :
  forallb (fun n => negb (needs_quotes n)) (fieldnames T) = true.
Hypothesis names_encodable : forallb encodable (fieldnames T) = true.
Hypothesis names_ok : forallb cell_ok (fieldnames T) = true.
Hypothesis no_bom :
  forall t, decode_utf8_sig (written_row (fieldnames T) ++ t)
            = written_row (fieldnames T) ++ t.

Lemma decode_written_file (rows : list (list pystr)) :
  let file :=
    concat (map (fun cells => written_row (map join_append cells))
                (fieldnames T :: rows)) in
  decode_utf8_sig file = file.
Proof.
  cbn [map concat]. rewrite (plain_names_unquoted plain_names).
  apply no_bom.
Qed.

Lemma to_csv_as_rows (records : list T) :
  Forall (fun r => writable r = true) records ->
  to_csv records
  = Ok (concat (map (fun cells => written_row (map join_append cells))
                    (fieldnames T :: map (cell_texts) records))).
Proof.
  intros Hw.
  rewrite (to_csv_rows two_fields plain_names names_encodable records Hw).
  cbn [map concat]. rewrite (plain_names_unquoted plain_names), map_map.
  do 3 f_equal. apply map_ext. intros r.
  unfold cell_texts, written_cell. rewrite map_map. reflexivity.
Qed.

(** A record whose fields are the texts of [row]. *)
Lemma cells_under_names_values (row : list pystr) (r : T) :
  length row = length (fieldnames T) ->
  cells_under_names (fieldnames T) row r ->
  field_values r = map PyStr row.
Proof.
  intros Hlen Hcells. apply nth_error_ext. intros i.
  destruct (nth_error (fieldnames T) i) as [name|] eqn:Ename.
  - specialize (Hcells i name Ename).
    unfold getattr, instance_dict in Hcells.
    rewrite (lookup_nth (fieldnames T) (field_values r) i name) in Hcells;
      [| apply fieldnames_NoDup | apply field_values_length | exact Ename].
    rewrite Hcells, nth_error_map.
    destruct (nth_error row i) eqn:Erow; [reflexivity|].
    apply nth_error_None in Erow.
    assert (i < length (fieldnames T))%nat
      by (apply nth_error_Some; rewrite Ename; discriminate).
    lia.
  - apply nth_error_None in Ename.
    transitivity (@None PyVal); [|symmetry]; apply nth_error_None.
    + rewrite field_values_length; exact Ename.
    + rewrite length_map, Hlen; exact Ename.
Qed.

(** Records whose cell texts hold no carriage return and fit the field
    limit: [from_csv] reads the written file back as records of these
    texts, and [to_csv] writes the same file for them. *)
Lemma to_csv_from_csv_to_csv (records : list T) :
  Forall (fun r => writable r = true) records ->
  Forall (fun r => forallb cell_ok (cell_texts r) = true)
         records ->
  exists file rs,
    to_csv records = Ok file
    /\ from_csv T file = Ok rs
    /\ to_csv rs = Ok file
    /\ Forall2 (fun r r' => field_values r'
                            = map PyStr (cell_texts r))
               records rs.
Proof.
  intros Hw Hok.
  set (rows := map (cell_texts) records).
  set (file := concat (map (fun cells => written_row (map join_append cells))
                           (fieldnames T :: rows))).
  assert (Hlen : forall cells, In cells rows ->
                               length cells = length (fieldnames T)).
  { intros cells Hc. apply in_map_iff in Hc as (r & <- & _).
    unfold cell_texts. rewrite length_map. apply field_values_length. }
  assert (Hrows : file_rows file = (fieldnames T :: rows, None)).
  { apply file_rows_written.
    - apply decode_written_file.
    - constructor; [split; assumption|].
      apply Forall_forall. intros cells Hc. split.
      + rewrite (Hlen cells Hc). exact two_fields.
      + apply in_map_iff in Hc as (r & <- & Hr).
        rewrite Forall_forall in Hok. apply Hok, Hr. }
  destruct (from_csv_rows_accepted file (fieldnames T) rows Hrows)
    as (rs & Hrs & Hall).
  - apply fieldnames_NoDup.
  - intros name; reflexivity.
  - apply Forall_forall. intros cells Hc. rewrite (Hlen cells Hc). lia.
  - assert (Hnb : nonblank rows = rows).
    { apply (nonblank_full (length (fieldnames T) - 1)).
      apply Forall_forall. intros cells Hc. rewrite (Hlen cells Hc). lia. }
    rewrite Hnb in Hall.
    assert (Hvals : Forall2 (fun r r' =>
              field_values r' = map PyStr (cell_texts r))
              records rs).
    { unfold rows in Hall.
      apply (proj1 (Forall2_map_l _ (cell_texts) records rs))
        in Hall.
      eapply Forall2_impl; [|exact Hall]. intros r r' Hc.
      apply cells_under_names_values; [|exact Hc].
      unfold cell_texts. rewrite length_map. apply field_values_length. }
    exists file, rs. split; [apply to_csv_as_rows, Hw|].
    split; [exact Hrs|]. split; [|exact Hvals].
    assert (Hback : Forall2 (fun r r' =>
              writable r' = true /\ cell_texts r' = cell_texts r)
              records rs).
    { clear - Hw Hvals. induction Hvals as [|r r' rest rest' Hr _ IH].
      - constructor.
      - inversion Hw as [|? ? Hwr Hwrest]; subst. constructor.
        + apply (writable_texts r' (cell_texts r) Hr).
          apply writable_cell_texts, Hwr.
        + apply IH, Hwrest. }
    assert (Hmap : map (cell_texts) records
                   = map (cell_texts) rs).
    { apply Forall2_map_eq.
      eapply Forall2_impl; [|exact Hback]. intros r r' [_ Hr].
      symmetry. exact Hr. }
    assert (Hws : Forall (fun r => writable r = true) rs).
    { clear - Hback. induction Hback as [|r r' rest rest' [Hr _] _ IH];
        constructor; assumption. }
    rewrite (to_csv_as_rows rs Hws), <- Hmap. reflexivity.
Qed.

End RoundTrip.

Lemma kind_names_ok (k : Kind) :
  forallb cell_ok (fieldnames (record k)) = true.
Proof. destruct k; vm_compute; reflexivity. Qed.

Lemma kind_no_bom (k : Kind) (t : pystr) :
  decode_utf8_sig (written_row (fieldnames (record k)) ++ t)
  = written_row (fieldnames (record k)) ++ t.
Proof. destruct k; reflexivity. Qed.

(** C1, as the code has it by design: for each record kind, any file that
    [to_csv] has written for records whose cell texts hold no carriage
    return and are no longer than the reader's field limit is read by
    [from_csv] without error, into one record per record written, holding
    the cell texts, and [to_csv] of the records read is the same file,
    character for character, header and line endings included. *)
Theorem C1_csv_round_trip_without_carriage_return :
  forall (k : Kind) (records : list (record k)) (file : pystr),
    to_csv records = Ok file ->
    Forall (fun r => forallb cell_ok (cell_texts r) = true)
           records ->
    exists rs,
      from_csv (record k) file = Ok rs
      /\ to_csv rs = Ok file
      /\ Forall2 (fun r r' => field_values r'
                              = map PyStr (cell_texts r))
                 records rs.
Proof.
  intros k records file Hfile Hok.
  pose proof (to_csv_Ok_inv (kind_two_fields k) (kind_plain_names k)
                (kind_names_encodable k) records file Hfile) as Hw.
  destruct (to_csv_from_csv_to_csv
              (kind_two_fields k) (kind_plain_names k)
              (kind_names_encodable k) (kind_names_ok k) (kind_no_bom k)
              records Hw Hok)
    as (file' & rs & Hfile' & Hread & Hwrite & Hvals).
  rewrite Hfile in Hfile'. injection Hfile' as <-.
  exists rs. split; [exact Hread|]. split; [exact Hwrite | exact Hvals].
Qed.

(** C1 at the media record with typed fields. *)
Lemma C1_csv_round_trip_of_media_typed :
  to_csv [media_typed] = Ok media_typed_file
  /\ exists rs,
      from_csv (record KMedia) media_typed_file = Ok rs
      /\ to_csv rs = Ok media_typed_file
      /\ Forall2 (fun r r' => field_values r'
                              = map PyStr (cell_texts r))
                 [media_typed] rs.
Proof.
  split; [reflexivity|].
  apply (C1_csv_round_trip_without_carriage_return KMedia
           [media_typed] media_typed_file).
  - reflexivity.
  - repeat constructor.
Defined.

(** ** A cell beyond the field limit *)

Lemma needs_quotes_false_no_cr (s : pystr) :
  needs_quotes s = false -> no_cr s = true.
Proof.
  unfold needs_quotes, no_cr. induction s as [|c s IH]; simpl;
    [reflexivity|].
  intros H. apply orb_false_iff in H as [Hc Hs].
  apply special_false in Hc as (_ & _ & -> & _). simpl. apply IH, Hs.
Qed.

Lemma needs_quotes_app (a b : pystr) :
  needs_quotes (a ++ b) = needs_quotes a || needs_quotes b.
Proof. apply existsb_app. Qed.

(** A row of two cells or more from the start of a record. *)
Lemma stream_row (cells : list pystr) (t : pystr) :
  (2 <= length cells)%nat ->
  forallb fits cells = true ->
  stream parse_reset (read_row cells ++ t)
  = (let '(rows, e) := stream parse_reset t in (cells :: rows, e)).
Proof.
  intros Hlen Hfits. destruct cells as [|a [|b cells]]; simpl in Hlen;
    try lia.
  rewrite stream_row_start. apply (stream_cells _ [] a t Hfits).
Qed.

(** An unquoted cell of one character more than the limit. *)
Lemma stream_cell_over_limit (fs : list pystr) (pre : pystr) (c : pychar)
    (t : pystr) :
  needs_quotes (pre ++ [c]) = false ->
  N.of_nat (length pre) = field_limit ->
  stream (mkReader START_FIELD fs []) (join_append (pre ++ [c]) ++ t)
  = ([], Some CsvError).
Proof.
  intros Hq Hlen. unfold join_append. rewrite Hq.
  rewrite needs_quotes_app in Hq. apply orb_false_iff in Hq as [Hpre Hc].
  unfold needs_quotes in Hc. simpl in Hc. rewrite orb_false_r in Hc.
  destruct pre as [|p pre]; [discriminate Hlen|].
  unfold needs_quotes in Hpre. simpl in Hpre.
  apply orb_false_iff in Hpre as [Hp Hpre].
  rewrite <- app_assoc. cbn [stream app].
  rewrite (step_start_field_plain fs p Hp).
  pose proof (special_false p Hp) as (_ & _ & _ & Hlf). rewrite Hlf.
  rewrite (stream_in_field pre fs [p] _ Hpre)
    by (unfold fits; apply N.leb_le; simpl app; rewrite Hlen; lia).
  cbn [stream app].
  apply special_false in Hc as (Hcomma & _ & Hcr & Hclf).
  unfold parse_process_char, parse_add_char, is_newline.
  cbn [state field]. rewrite Hclf, Hcr, Hcomma. cbn [orb].
  simpl app. rewrite Hlen, N.leb_refl. reflexivity.
Qed.

(** A row whose last cell is beyond the limit, read from a field start. *)
Lemma stream_cells_over_limit (before : list pystr) :
  forall (fs : list pystr) (pre : pystr) (c : pychar) (t : pystr),
    forallb fits before = true ->
    needs_quotes (pre ++ [c]) = false ->
    N.of_nat (length pre) = field_limit ->
    stream (mkReader START_FIELD fs [])
           (read_row (before ++ [pre ++ [c]]) ++ t)
    = ([], Some CsvError).
Proof.
  induction before as [|b before IH]; intros fs pre c t Hfits Hq Hlen.
  - cbn [app]. rewrite read_row_one.
    apply stream_cell_over_limit; assumption.
  - cbn [forallb] in Hfits. apply andb_true_iff in Hfits as [Hb Hrest].
    specialize (IH (fs ++ [b]) pre c t Hrest Hq Hlen).
    destruct (before ++ [pre ++ [c]]) as [|x l] eqn:E.
    + destruct before; discriminate E.
    + cbn [app]. rewrite E, read_row_cons, (stream_cell_comma fs b _ Hb).
      exact IH.
Qed.

Section OverLimit.

Context {T : Type} `{D : Dataclass T}.

Hypothesis two_fields : (2 <= length (fieldnames T))%nat.
Hypothesis plain_names :
  forallb (fun n => negb (needs_quotes n)) (fieldnames T) = true.
Hypothesis names_encodable : forallb encodable (fieldnames T) = true.
Hypothesis names_ok : forallb cell_ok (fieldnames T) = true.
Hypothesis no_bom :
  forall t, decode_utf8_sig (written_row (fieldnames T) ++ t)
            = written_row (fieldnames T) ++ t.

(** A record that can be written, whose last cell text is one character
    beyond the field limit, the cells before it being in order: reading the
    file written for it raises the reader's error. *)
Lemma to_csv_then_from_csv_over_limit (r : T) (before : list pystr)
    (pre : pystr) (c : pychar) :
  writable r = true ->
  cell_texts r = before ++ [pre ++ [c]] ->
  before <> [] ->
  forallb cell_ok before = true ->
  needs_quotes (pre ++ [c]) = false ->
  N.of_nat (length pre) = field_limit ->
  (file <- to_csv [r] ;; from_csv T file) = Raise CsvError.
Proof.
  intros Hw Hcells Hne Hbefore Hq Hlen.
  rewrite (to_csv_as_rows two_fields plain_names names_encodable [r])
    by (constructor; [exact Hw | constructor]).
  cbn [bind].
  assert (Hrows : map (cell_texts) [r]
                  = [before ++ [pre ++ [c]]])
    by (cbn [map]; rewrite Hcells; reflexivity).
  rewrite Hrows. unfold from_csv, file_rows.
  rewrite (decode_written_file plain_names no_bom).
  rewrite (universal_newlines_rows [fieldnames T; before ++ [pre ++ [c]]]).
  - rewrite csv_reader_stream by apply ends_lines_rows.
    cbn [map concat]. rewrite stream_row.
    + destruct before as [|a before]; [contradiction|].
      destruct ((a :: before) ++ [pre ++ [c]]) as [|x [|y l]] eqn:E;
        try (destruct before; discriminate E).
      rewrite stream_row_start, <- E.
      rewrite (stream_cells_over_limit (a :: before)); [reflexivity | | |];
        try assumption.
      rewrite forallb_forall in *. intros s Hs.
      specialize (Hbefore s Hs). unfold cell_ok in Hbefore.
      apply andb_true_iff in Hbefore as [_ Hf]; exact Hf.
    + exact two_fields.
    + rewrite forallb_forall in *. intros s Hs.
      specialize (names_ok s Hs). unfold cell_ok in names_ok.
      apply andb_true_iff in names_ok as [_ Hf]; exact Hf.
  - constructor; [|constructor; [|constructor]].
    + rewrite forallb_forall in *. intros s Hs.
      specialize (names_ok s Hs). unfold cell_ok in names_ok.
      apply andb_true_iff in names_ok as [Hn _]; exact Hn.
    + rewrite forallb_app. apply andb_true_iff. split.
      * rewrite forallb_forall in *. intros s Hs.
        specialize (Hbefore s Hs). unfold cell_ok in Hbefore.
        apply andb_true_iff in Hbefore as [Hn _]; exact Hn.
      * simpl. rewrite (needs_quotes_false_no_cr _ Hq). reflexivity.
Qed.

End OverLimit.

(** C1 fails as stated, in two ways.  A cell with a carriage return in it
    comes back with a LF in its place, so the file written from the records
    read differs from the first file.  And the file written for a record
    with a cell of 131073 characters cannot be read back: the reader raises
    its error at the field limit. *)
Lemma C1_round_trip_fails_on_carriage_return_and_long_cell :
  to_csv [media_two_lines] = Ok media_two_lines_file
  /\ from_csv Media.t media_two_lines_file = Ok [media_two_lines_read]
  /\ to_csv [media_two_lines_read] = Ok media_two_lines_rewritten
  /\ media_two_lines_rewritten <> media_two_lines_file
  /\ (file <- to_csv [media_long_comment] ;;
      from_csv Media.t file) = Raise CsvError.
Proof.
  destruct round_trip_loses_carriage_return as (H1 & H2 & H3 & H4).
  split; [exact H1|]. split; [exact H2|]. split; [exact H3|].
  split; [exact H4|].
  apply (to_csv_then_from_csv_over_limit
           (kind_two_fields KMedia) (kind_plain_names KMedia)
           (kind_names_encodable KMedia)
           (kind_names_ok KMedia) (kind_no_bom KMedia)
           media_long_comment
           [u "m1"; u "d1"; u "timeLapse"; u "2020-07-01T10:00:00Z";
            u "m1.jpg"; u "true"; []; u "image/jpeg"; []; []]
           long_text_prefix 122).
  - vm_compute; reflexivity.
  - reflexivity.
  - discriminate.
  - vm_compute; reflexivity.
  - vm_compute; reflexivity.
  - unfold long_text_prefix. rewrite repeat_length. apply N2Nat.id.
Qed.

(** ** Line breaks inside cells *)

(** Induction along the way [universal_newlines] reads a text. *)
Lemma universal_newlines_cases (P : pystr -> Prop) :
  P [] ->
  (forall (c : pychar) (s : pystr), (c =? CR) = false -> P s -> P (c :: s)) ->
  P [CR] ->
  (forall s, P s -> P (CR :: LF :: s)) ->
  (forall (d : pychar) (s : pystr),
      (d =? LF) = false -> P (d :: s) -> P (CR :: d :: s)) ->
  forall s, P s.
Proof.
  intros Hnil Hchar Hcr Hcrlf Hcrd s.
  assert (H : forall n s, (length s <= n)%nat -> P s).
  { clear s. induction n as [|n IH]; intros s Hn.
    - destruct s; [exact Hnil | simpl in Hn; lia].
    - destruct s as [|c s]; [exact Hnil|]. simpl in Hn.
      destruct (c =? CR) eqn:Ec.
      + apply N.eqb_eq in Ec; subst c.
        destruct s as [|d s]; [exact Hcr|]. simpl in Hn.
        destruct (d =? LF) eqn:Ed.
        * apply N.eqb_eq in Ed; subst d. apply Hcrlf, IH. lia.
        * apply Hcrd; [exact Ed|]. apply IH. simpl; lia.
      + apply Hchar; [exact Ec|]. apply IH. lia. }
  apply (H (length s)). lia.
Qed.

Lemma universal_newlines_char (c : pychar) (s : pystr) :
  (c =? CR) = false ->
  universal_newlines (c :: s) = c :: universal_newlines s.
Proof. intros Ec. cbn [universal_newlines]. rewrite Ec. reflexivity. Qed.

Lemma universal_newlines_cr_lf (s : pystr) :
  universal_newlines (CR :: LF :: s) = LF :: universal_newlines s.
Proof. reflexivity. Qed.

Lemma universal_newlines_cr (d : pychar) (s : pystr) :
  (d =? LF) = false ->
  universal_newlines (CR :: d :: s) = LF :: universal_newlines (d :: s).
Proof.
  intros Ed. cbn [universal_newlines]. change (CR =? CR) with true.
  cbv iota. rewrite Ed. reflexivity.
Qed.

Lemma universal_newlines_length (s : pystr) :
  (length (universal_newlines s) <= length s)%nat.
Proof.
  induction s as [| c s Ec IH | | s IH | d s Ed IH]
    using universal_newlines_cases.
  - simpl; lia.
  - rewrite universal_newlines_char by exact Ec. simpl; lia.
  - simpl; lia.
  - rewrite universal_newlines_cr_lf. simpl; lia.
  - rewrite universal_newlines_cr by exact Ed. simpl in *; lia.
Qed.

(** A text read with universal newlines holds no carriage return, and
    reading it again changes nothing. *)
Lemma universal_newlines_no_cr_out (s : pystr) :
  no_cr (universal_newlines s) = true.
Proof.
  induction s as [| c s Ec IH | | s IH | d s Ed IH]
    using universal_newlines_cases.
  - reflexivity.
  - rewrite universal_newlines_char by exact Ec.
    change (negb (c =? CR) && no_cr (universal_newlines s) = true).
    rewrite Ec, IH. reflexivity.
  - reflexivity.
  - rewrite universal_newlines_cr_lf. exact IH.
  - rewrite universal_newlines_cr by exact Ed. exact IH.
Qed.

Lemma universal_newlines_fixed (s : pystr) :
  no_cr s = true -> universal_newlines s = s.
Proof.
  intros Hs. rewrite <- (app_nil_r s) at 1.
  rewrite universal_newlines_no_cr by exact Hs. apply app_nil_r.
Qed.

Lemma universal_newlines_idempotent (s : pystr) :
  universal_newlines (universal_newlines s) = universal_newlines s.
Proof. apply universal_newlines_fixed, universal_newlines_no_cr_out. Qed.

Lemma needs_quotes_universal_newlines (s : pystr) :
  needs_quotes (universal_newlines s) = needs_quotes s.
Proof.
  unfold needs_quotes.
  induction s as [| c s Ec IH | | s IH | d s Ed IH]
    using universal_newlines_cases.
  - reflexivity.
  - rewrite universal_newlines_char by exact Ec. simpl. rewrite IH.
    reflexivity.
  - reflexivity.
  - rewrite universal_newlines_cr_lf. reflexivity.
  - rewrite universal_newlines_cr by exact Ed.
    change (special LF || existsb special (universal_newlines (d :: s))
            = special CR || existsb special (d :: s)).
    rewrite IH. reflexivity.
Qed.

Lemma double_quotes_cons (c : pychar) (s : pystr) :
  (c =? DQUOTE) = false -> double_quotes (c :: s) = c :: double_quotes s.
Proof. intros Ec. unfold double_quotes. simpl. rewrite Ec. reflexivity. Qed.

(** Universal newlines inside a quoted cell: the closing quote keeps what
    follows the cell apart. *)
Lemma universal_newlines_double_quotes (s : pystr) :
  forall t,
    universal_newlines (double_quotes s ++ DQUOTE :: t)
    = double_quotes (universal_newlines s)
      ++ DQUOTE :: universal_newlines t.
Proof.
  induction s as [| c s Ec IH | | s IH | d s Ed IH]
    using universal_newlines_cases; intros t.
  - reflexivity.
  - rewrite (universal_newlines_char c s Ec).
    destruct (c =? DQUOTE) eqn:Eq.
    + apply N.eqb_eq in Eq; subst c.
      change (double_quotes (DQUOTE :: s))
        with (DQUOTE :: DQUOTE :: double_quotes s).
      change (double_quotes (DQUOTE :: universal_newlines s))
        with (DQUOTE :: DQUOTE :: double_quotes (universal_newlines s)).
      cbn [app]. rewrite !(universal_newlines_char DQUOTE) by reflexivity.
      rewrite IH. reflexivity.
    + rewrite !double_quotes_cons by exact Eq. cbn [app].
      rewrite universal_newlines_char by exact Ec. rewrite IH. reflexivity.
  - reflexivity.
  - change (double_quotes (CR :: LF :: s))
      with (CR :: LF :: double_quotes s).
    cbn [app]. rewrite !universal_newlines_cr_lf.
    change (double_quotes (LF :: universal_newlines s))
      with (LF :: double_quotes (universal_newlines s)).
    rewrite IH. reflexivity.
  - rewrite (universal_newlines_cr d s Ed).
    change (double_quotes (CR :: d :: s))
      with (CR :: double_quotes (d :: s)).
    change (double_quotes (LF :: universal_newlines (d :: s)))
      with (LF :: double_quotes (universal_newlines (d :: s))).
    cbn [app]. rewrite <- IH.
    destruct (d =? DQUOTE) eqn:Eq.
    + apply N.eqb_eq in Eq; subst d.
      change (double_quotes (DQUOTE :: s))
        with (DQUOTE :: DQUOTE :: double_quotes s).
      cbn [app]. rewrite universal_newlines_cr by reflexivity. reflexivity.
    + rewrite double_quotes_cons by exact Eq. cbn [app].
      rewrite universal_newlines_cr by exact Ed. reflexivity.
Qed.

(** A written cell, read with universal newlines: the cell with its line
    breaks turned into LF, written the same way. *)
Lemma universal_newlines_join_append (cell t : pystr) :
  universal_newlines (join_append cell ++ t)
  = join_append (universal_newlines cell) ++ universal_newlines t.
Proof.
  unfold join_append. rewrite needs_quotes_universal_newlines.
  destruct (needs_quotes cell) eqn:Eq.
  - cbn [app]. rewrite universal_newlines_char by reflexivity.
    rewrite <- !app_assoc. cbn [app].
    rewrite universal_newlines_double_quotes. reflexivity.
  - apply needs_quotes_false_no_cr in Eq.
    rewrite (universal_newlines_no_cr cell t Eq).
    rewrite (universal_newlines_fixed cell Eq). reflexivity.
Qed.

Lemma universal_newlines_written_row (cells : list pystr) (t : pystr) :
  universal_newlines (written_row (map join_append cells) ++ t)
  = read_row (map universal_newlines cells) ++ universal_newlines t.
Proof.
  unfold written_row, read_row, lineterminator.
  induction cells as [|a cells IH]; [reflexivity|].
  destruct cells as [|b cells].
  - cbn [map join]. rewrite <- !app_assoc.
    rewrite universal_newlines_join_append. reflexivity.
  - cbn [map] in *. rewrite !join_cons2. rewrite <- !app_assoc.
    rewrite universal_newlines_join_append. cbn [app].
    rewrite universal_newlines_char by reflexivity.
    rewrite <- !app_assoc in IH. cbn [app] in IH. rewrite IH. reflexivity.
Qed.

Lemma universal_newlines_written_rows (rows : list (list pystr)) :
  universal_newlines
    (concat (map (fun cells => written_row (map join_append cells)) rows))
  = concat (map read_row (map (map universal_newlines) rows)).
Proof.
  induction rows as [|cells rows IH]; [reflexivity|].
  cbn [map concat]. rewrite universal_newlines_written_row, IH.
  reflexivity.
Qed.

(** ** Reading back what was written, whatever the cells hold *)

Lemma file_rows_written_any (rows : list (list pystr)) :
  let file :=
    concat (map (fun cells => written_row (map join_append cells)) rows) in
  decode_utf8_sig file = file ->
  Forall (fun cells => (2 <= length cells)%nat
                       /\ forallb (fun c => fits (read_back c)) cells = true)
         rows ->
  file_rows file = (map (map read_back) rows, None).
Proof.
  intros file Hbom Hrows. unfold file_rows. rewrite Hbom. unfold file.
  rewrite universal_newlines_written_rows.
  rewrite csv_reader_stream by apply ends_lines_rows.
  apply stream_rows. apply Forall_map.
  eapply Forall_impl; [|exact Hrows].
  intros cells [Hlen Hok]. rewrite length_map. split; [exact Hlen|].
  rewrite forallb_forall in *. intros s Hs.
  apply in_map_iff in Hs as (c & <- & Hc). apply Hok, Hc.
Qed.

Section ReadingBack.

Context {T : Type} `{D : Dataclass T}.

Hypothesis two_fields : (2 <= length (fieldnames T))%nat.
Hypothesis plain_names :
  forallb (fun n => negb (needs_quotes n)) (fieldnames T) = true.
Hypothesis names_encodable : forallb encodable (fieldnames T) = true.
Hypothesis names_ok : forallb cell_ok (fieldnames T) = true.
Hypothesis no_bom :
  forall t, decode_utf8_sig (written_row (fieldnames T) ++ t)
            = written_row (fieldnames T) ++ t.

Lemma read_back_names : map read_back (fieldnames T) = fieldnames T.
Proof.
  transitivity (map (fun n : pystr => n) (fieldnames T)); [|apply map_id].
  apply map_ext_in. intros n Hn. apply universal_newlines_fixed.
  rewrite forallb_forall in names_ok. specialize (names_ok n Hn).
  unfold cell_ok in names_ok.
  apply andb_true_iff in names_ok as [Hcr _]. exact Hcr.
Qed.

Lemma to_csv_then_from_csv (records : list T) :
  Forall (fun r => writable r = true) records ->
  Forall (fun r => forallb (fun c => fits (read_back c)) (cell_texts r)
                   = true) records ->
  exists file rs,
    to_csv records = Ok file
    /\ from_csv T file = Ok rs
    /\ Forall2 (fun r r' => field_values r'
                            = map PyStr (map read_back (cell_texts r)))
               records rs.
Proof.
  intros Hw Hok.
  set (rows := map cell_texts records).
  set (file := concat (map (fun cells => written_row (map join_append cells))
                           (fieldnames T :: rows))).
  assert (Hlen : forall cells, In cells rows ->
                               length cells = length (fieldnames T)).
  { intros cells Hc. apply in_map_iff in Hc as (r & <- & _).
    unfold cell_texts. rewrite length_map. apply field_values_length. }
  assert (Hrows : file_rows file
                  = (fieldnames T :: map (map read_back) rows, None)).
  { rewrite <- read_back_names at 1.
    apply (file_rows_written_any (fieldnames T :: rows)).
    - apply (decode_written_file plain_names no_bom).
    - constructor.
      + split; [exact two_fields|].
        rewrite forallb_forall in *. intros n Hn.
        specialize (names_ok n Hn). unfold cell_ok in names_ok.
        apply andb_true_iff in names_ok as [Hcr Hfit].
        unfold read_back. rewrite universal_newlines_fixed by exact Hcr.
        exact Hfit.
      + apply Forall_forall. intros cells Hc. split.
        * rewrite (Hlen cells Hc). exact two_fields.
        * apply in_map_iff in Hc as (r & <- & Hr).
          rewrite Forall_forall in Hok. apply Hok, Hr. }
  assert (Hlen' : forall cells, In cells (map (map read_back) rows) ->
                                length cells = length (fieldnames T)).
  { intros cells Hc. apply in_map_iff in Hc as (c0 & <- & Hc0).
    rewrite length_map. apply Hlen, Hc0. }
  destruct (from_csv_rows_accepted file (fieldnames T)
              (map (map read_back) rows) Hrows)
    as (rs & Hrs & Hall).
  - apply fieldnames_NoDup.
  - intros name; reflexivity.
  - apply Forall_forall. intros cells Hc. rewrite (Hlen' cells Hc). lia.
  - assert (Hnb : nonblank (map (map read_back) rows)
                  = map (map read_back) rows).
    { apply (nonblank_full (length (fieldnames T) - 1)).
      apply Forall_forall. intros cells Hc. rewrite (Hlen' cells Hc). lia. }
    rewrite Hnb in Hall.
    exists file, rs.
    split; [apply (to_csv_as_rows two_fields plain_names names_encodable),
            Hw|].
    split; [exact Hrs|].
    unfold rows in Hall. rewrite map_map in Hall.
    apply (proj1 (Forall2_map_l _
             (fun r => map read_back (cell_texts r)) records rs)) in Hall.
    eapply Forall2_impl; [|exact Hall]. intros r r' Hc.
    apply (cells_under_names_values two_fields); [|exact Hc].
    unfold cell_texts. rewrite !length_map. apply field_values_length.
Qed.

End ReadingBack.

(** X1: for each record kind, a file that [to_csv] has written is read
    back by [from_csv] as one record per record written, in order, each
    field the [str] of the written cell with its line breaks turned into
    LF; this holds whenever every such text fits the reader's field
    limit. *)
Theorem to_csv_then_from_csv_turns_line_breaks_into_LF :
  forall (k : Kind) (records : list (record k)) (file : pystr),
    to_csv records = Ok file ->
    Forall (fun r => forallb (fun c => fits (read_back c)) (cell_texts r)
                     = true) records ->
    exists rs,
      from_csv (record k) file = Ok rs
      /\ Forall2 (fun r r' => field_values r'
                              = map PyStr (map read_back (cell_texts r)))
                 records rs.
Proof.
  intros k records file Hfile Hok.
  pose proof (to_csv_Ok_inv (kind_two_fields k) (kind_plain_names k)
                (kind_names_encodable k) records file Hfile) as Hw.
  destruct (to_csv_then_from_csv
              (kind_two_fields k) (kind_plain_names k)
              (kind_names_encodable k) (kind_names_ok k) (kind_no_bom k)
              records Hw Hok)
    as (file' & rs & Hfile' & Hread & Hvals).
  rewrite Hfile in Hfile'. injection Hfile' as <-.
  exists rs. split; [exact Hread | exact Hvals].
Qed.

Lemma carriage_return_of_media_comes_back_as_LF :
  to_csv [media_two_lines] = Ok media_two_lines_file
  /\ Forall (fun r => forallb (fun c => fits (read_back c)) (cell_texts r)
                      = true) [media_two_lines]
  /\ exists rs,
      from_csv (record KMedia) media_two_lines_file = Ok rs
      /\ Forall2 (fun r r' => field_values r'
                              = map PyStr (map read_back (cell_texts r)))
                 [media_two_lines] rs.
Proof.
  assert (Hfile : to_csv [media_two_lines] = Ok media_two_lines_file)
    by (vm_compute; reflexivity).
  assert (H : Forall (fun r : record KMedia =>
                        forallb (fun c => fits (read_back c)) (cell_texts r)
                        = true) [media_two_lines])
    by (constructor; [vm_compute; reflexivity | constructor]).
  split; [exact Hfile|]. split; [exact H|].
  exact (to_csv_then_from_csv_turns_line_breaks_into_LF KMedia
           [media_two_lines] media_two_lines_file Hfile H).
Defined.

(** ** Byte-order mark and line ends of the file read *)

Lemma decode_universal_newlines (file : pystr) :
  decode_utf8_sig (universal_newlines file)
  = universal_newlines (decode_utf8_sig file).
Proof.
  destruct file as [|c rest]; [reflexivity|].
  unfold decode_utf8_sig at 2.
  destruct (c =? BOM) eqn:Eb.
  - apply N.eqb_eq in Eb; subst c.
    rewrite universal_newlines_char by reflexivity. reflexivity.
  - destruct (c =? CR) eqn:Ec.
    + apply N.eqb_eq in Ec; subst c.
      destruct rest as [|d rest]; [reflexivity|].
      destruct (d =? LF) eqn:Ed.
      * apply N.eqb_eq in Ed; subst d. reflexivity.
      * rewrite universal_newlines_cr by exact Ed. reflexivity.
    + rewrite universal_newlines_char by exact Ec.
      unfold decode_utf8_sig. rewrite Eb. reflexivity.
Qed.

Lemma file_rows_universal_newlines (file : pystr) :
  file_rows (universal_newlines file) = file_rows file.
Proof.
  unfold file_rows.
  rewrite decode_universal_newlines, universal_newlines_idempotent.
  reflexivity.
Qed.

Lemma file_rows_signature (file : pystr) :
  starts_with_bom file = false -> file_rows (BOM :: file) = file_rows file.
Proof.
  intros Hb. unfold file_rows. f_equal. f_equal. f_equal.
  destruct file as [|c rest]; [reflexivity|].
  simpl in Hb. unfold decode_utf8_sig. rewrite Hb. reflexivity.
Qed.

(** X2: for each record kind, [from_csv] reads the same from a file and from
    the file with its line ends (CR LF, or a lone CR) turned into LF, and
    the same from a file with and without a leading byte-order mark. *)
Theorem from_csv_ignores_signature_and_line_ends :
  forall (k : Kind) (file : pystr),
    from_csv (record k) (universal_newlines file) = from_csv (record k) file
    /\ (starts_with_bom file = false ->
        from_csv (record k) (BOM :: file) = from_csv (record k) file).
Proof.
  intros k file. split.
  - unfold from_csv. rewrite file_rows_universal_newlines. reflexivity.
  - intros Hb. unfold from_csv. rewrite (file_rows_signature file Hb).
    reflexivity.
Qed.

(** ** The round-trip test *)

Lemma starts_with_bom_universal_newlines (file : pystr) :
  starts_with_bom (universal_newlines file) = starts_with_bom file.
Proof.
  destruct file as [|c rest]; [reflexivity|].
  destruct (c =? CR) eqn:Ec.
  - apply N.eqb_eq in Ec; subst c.
    destruct rest as [|d rest]; [reflexivity|].
    destruct (d =? LF) eqn:Ed.
    + apply N.eqb_eq in Ed; subst d. reflexivity.
    + rewrite universal_newlines_cr by exact Ed. reflexivity.
  - rewrite universal_newlines_char by exact Ec. reflexivity.
Qed.

Lemma decode_without_bom (file : pystr) :
  starts_with_bom file = false -> decode_utf8_sig file = file.
Proof.
  destruct file as [|c rest]; [reflexivity|]. simpl. intros Hb.
  unfold decode_utf8_sig. rewrite Hb. reflexivity.
Qed.

Lemma kind_header_without_bom (k : Kind) (t : pystr) :
  starts_with_bom (read_row (fieldnames (record k)) ++ t) = false.
Proof. destruct k; reflexivity. Qed.

Section RoundTripTest.

Context {T : Type} `{D : Dataclass T}.

Hypothesis two_fields : (2 <= length (fieldnames T))%nat.
Hypothesis plain_names :
  forallb (fun n => negb (needs_quotes n)) (fieldnames T) = true.
Hypothesis names_encodable : forallb encodable (fieldnames T) = true.
Hypothesis names_ok : forallb cell_ok (fieldnames T) = true.
Hypothesis no_bom :
  forall t, decode_utf8_sig (written_row (fieldnames T) ++ t)
            = written_row (fieldnames T) ++ t.

(** A fixture of plain rows is read, written again, and the file written
    reads as the fixture does. *)
Lemma fixture_written_again (fixture : pystr) (rows : list (list pystr)) :
  read_text fixture = concat (map read_row (fieldnames T :: rows)) ->
  Forall (fun cells => length cells = length (fieldnames T)
                       /\ forallb cell_ok cells = true
                       /\ forallb encodable cells = true) rows ->
  exists rs written,
    from_csv T fixture = Ok rs
    /\ to_csv rs = Ok written
    /\ decode_utf8_sig written = written
    /\ universal_newlines written = read_text fixture.
Proof.
  intros Htext Hrows.
  assert (Hfits : forall cells, forallb cell_ok cells = true ->
                                forallb fits cells = true).
  { intros cells Hc. rewrite forallb_forall in *. intros s Hs.
    specialize (Hc s Hs). unfold cell_ok in Hc.
    apply andb_true_iff in Hc as [_ Hc]; exact Hc. }
  assert (Hcr : forall cells, forallb cell_ok cells = true ->
                              forallb no_cr cells = true).
  { intros cells Hc. rewrite forallb_forall in *. intros s Hs.
    specialize (Hc s Hs). unfold cell_ok in Hc.
    apply andb_true_iff in Hc as [Hc _]; exact Hc. }
  assert (Hfile : file_rows fixture = (fieldnames T :: rows, None)).
  { unfold file_rows. fold (read_text fixture). rewrite Htext.
    rewrite csv_reader_stream by apply ends_lines_rows.
    apply stream_rows. constructor.
    - split; [exact two_fields | apply Hfits, names_ok].
    - eapply Forall_impl; [|exact Hrows]. intros cells (Hlen & Hok & _).
      split; [rewrite Hlen; exact two_fields | apply Hfits, Hok]. }
  destruct (from_csv_rows_accepted fixture (fieldnames T) rows Hfile)
    as (rs & Hrs & Hall).
  - apply fieldnames_NoDup.
  - intros name; reflexivity.
  - eapply Forall_impl; [|exact Hrows]. intros cells (Hlen & _). lia.
  - assert (Hnb : nonblank rows = rows).
    { apply (nonblank_full (length (fieldnames T) - 1)).
      eapply Forall_impl; [|exact Hrows]. intros cells (Hlen & _). lia. }
    rewrite Hnb in Hall.
    assert (Hcells : Forall (fun r => writable r = true) rs
                     /\ map cell_texts rs = rows).
    { clear Hfile Hrs Hnb Htext.
      induction Hall as [|row r rows' rs' Hr _ IH];
        [split; [constructor | reflexivity]|].
      inversion Hrows as [|? ? (Hlen & _ & Henc) Hrows']; subst.
      destruct (IH Hrows') as [IHw IHc].
      pose proof (cells_under_names_values two_fields row r Hlen Hr) as Hv.
      destruct (writable_texts r row Hv Henc) as [Hw Hc].
      split; [constructor; assumption|].
      cbn [map]. rewrite IHc, Hc. reflexivity. }
    destruct Hcells as [Hw Hcells].
    exists rs. eexists. split; [exact Hrs|].
    split; [apply (to_csv_as_rows two_fields plain_names names_encodable),
            Hw|].
    rewrite Hcells.
    split; [apply (decode_written_file plain_names no_bom)|].
    rewrite universal_newlines_rows; [symmetry; exact Htext|].
    constructor; [apply Hcr, names_ok|].
    eapply Forall_impl; [|exact Hrows]. intros cells (_ & Hok & _).
    apply Hcr, Hok.
Qed.

End RoundTripTest.

(** X3: [test_write_to_csv], with either way of opening the files, holds
    on every fixture whose text, read the way the test reads it (with
    utf-8-sig: signature dropped; line ends as LF), is a header row of the
    class's field names in declared order followed by rows of as many
    cells, quoted only where needed, each cell without carriage return,
    within the field limit and without lone surrogate. *)
Theorem test_write_to_csv_holds_on_plain_fixtures :
  forall (k : Kind) (encoding : Encoding) (fixture : pystr)
         (rows : list (list pystr)),
    open_read encoding fixture
    = concat (map read_row (fieldnames (record k) :: rows)) ->
    Forall (fun cells => length cells = length (fieldnames (record k))
                         /\ forallb cell_ok cells = true
                         /\ forallb encodable cells = true) rows ->
    test_write_to_csv (record k) encoding fixture = Ok true.
Proof.
  intros k encoding fixture rows Htext Hrows.
  assert (Hsig : read_text fixture = open_read encoding fixture).
  { destruct encoding; [reflexivity|]. cbn [open_read] in *.
    unfold read_text. rewrite decode_without_bom; [reflexivity|].
    rewrite <- starts_with_bom_universal_newlines, Htext.
    cbn [map concat]. apply kind_header_without_bom. }
  rewrite <- Hsig in Htext.
  destruct (fixture_written_again
              (kind_two_fields k) (kind_plain_names k)
              (kind_names_encodable k) (kind_names_ok k) (kind_no_bom k)
              fixture rows Htext Hrows)
    as (rs & written & Hrs & Hwritten & Hdec & Hsame).
  unfold test_write_to_csv. rewrite Hrs. cbn [bind].
  rewrite Hwritten. cbn [bind]. f_equal. apply pystr_eqb_eq.
  rewrite <- Hsig, <- Hsame.
  destruct encoding; cbn [open_read]; [|reflexivity].
  unfold read_text. rewrite Hdec. reflexivity.
Qed.

Lemma test_write_to_csv_holds_on_deployment_fixture :
  open_read utf_8_sig deployment_fixture
  = concat (map read_row
              (fieldnames (record KDeployment) :: deployment_fixture_rows))
  /\ Forall (fun cells =>
               length cells = length (fieldnames (record KDeployment))
               /\ forallb cell_ok cells = true
               /\ forallb encodable cells = true)
            deployment_fixture_rows
  /\ test_write_to_csv (record KDeployment) utf_8_sig deployment_fixture
     = Ok true.
Proof.
  assert (H1 : open_read utf_8_sig deployment_fixture
               = concat (map read_row
                           (fieldnames (record KDeployment)
                            :: deployment_fixture_rows)))
    by (vm_compute; reflexivity).
  assert (H2 : Forall (fun cells =>
                         length cells
                         = length (fieldnames (record KDeployment))
                         /\ forallb cell_ok cells = true
                         /\ forallb encodable cells = true)
                      deployment_fixture_rows)
    by (constructor;
        [split; [|split]; vm_compute; reflexivity | constructor]).
  split; [exact H1|]. split; [exact H2|].
  exact (test_write_to_csv_holds_on_plain_fixtures KDeployment utf_8_sig
           deployment_fixture deployment_fixture_rows H1 H2).
Defined.

Lemma kind_written_header_without_bom (k : Kind) (t : pystr) :
  starts_with_bom (written_row (fieldnames (record k)) ++ t) = false.
Proof. destruct k; reflexivity. Qed.

(** X15: [test_write_to_csv] with the files opened with the locale's
    encoding, as src/camtrapdp/test_media.py, test_deployment.py and
    test_observation.py have it, fails on every fixture that starts with a
    byte-order mark and that [from_csv] reads and [to_csv] writes again:
    the mark is read as the first character of the fixture, and the file
    written starts with the first field name. *)
Theorem test_write_to_csv_fails_on_a_signature :
  forall (k : Kind) (fixture : pystr) (rs : list (record k))
         (written : pystr),
    starts_with_bom fixture = true ->
    from_csv (record k) fixture = Ok rs ->
    to_csv rs = Ok written ->
    test_write_to_csv (record k) locale fixture = Ok false.
Proof.
  intros k fixture rs written Hbom Hread Hwritten.
  unfold test_write_to_csv. rewrite Hread. cbn [bind].
  rewrite Hwritten. cbn [bind open_read]. f_equal.
  pose proof (to_csv_Ok_inv (kind_two_fields k) (kind_plain_names k)
                (kind_names_encodable k) rs written Hwritten) as Hw.
  rewrite (to_csv_rows (kind_two_fields k) (kind_plain_names k)
             (kind_names_encodable k) rs Hw) in Hwritten.
  injection Hwritten as <-.
  destruct (pystr_eqb _ _) eqn:E; [|reflexivity].
  apply pystr_eqb_eq in E.
  apply (f_equal starts_with_bom) in E.
  rewrite !starts_with_bom_universal_newlines in E.
  rewrite Hbom, kind_written_header_without_bom in E. discriminate E.
Qed.

Lemma test_write_to_csv_fails_on_media_fixture :
  starts_with_bom media_fixture = true
  /\ from_csv (record KMedia) media_fixture = Ok [media_fixture_read]
  /\ to_csv [media_fixture_read] = Ok media_fixture_written
  /\ test_write_to_csv (record KMedia) locale media_fixture = Ok false.
Proof.
  assert (H1 : starts_with_bom media_fixture = true) by reflexivity.
  assert (H2 : from_csv (record KMedia) media_fixture
               = Ok [media_fixture_read]) by (vm_compute; reflexivity).
  assert (H3 : to_csv [media_fixture_read] = Ok media_fixture_written)
    by (vm_compute; reflexivity).
  split; [exact H1|]. split; [exact H2|]. split; [exact H3|].
  exact (test_write_to_csv_fails_on_a_signature KMedia media_fixture
           [media_fixture_read] media_fixture_written H1 H2 H3).
Defined.

(** ** camtrapdp/deployment.py against camtrapdp/deployments.py *)

Lemma append_rows_construct (header : list pystr) (err : option PyExn)
    (data : list (list pystr)) :
  forall deployments,
    deployment_py.append_rows deployments header data err
    = (rs <- construct_rows Deployment.t header data err ;;
       Ok (deployments ++ rs)).
Proof.
  induction data as [|row data IH]; intros acc; cbn [deployment_py.append_rows
    construct_rows].
  - destruct err; cbn [bind]; [reflexivity | rewrite app_nil_r; reflexivity].
  - destruct (is_blank row); [apply IH|].
    destruct (unpack (DictReader_row header row)) as [kw|e]; cbn [bind];
      [|reflexivity].
    destruct (init Deployment.t kw) as [d|e]; cbn [bind]; [|reflexivity].
    rewrite IH.
    destruct (construct_rows Deployment.t header data err) as [rs|e];
      cbn [bind]; [|reflexivity].
    rewrite <- app_assoc. reflexivity.
Qed.

Lemma append_series_mapM (series : list kwargs) :
  forall deployments,
    deployment_py.append_series deployments series
    = (rs <- mapM (init Deployment.t) series ;; Ok (deployments ++ rs)).
Proof.
  induction series as [|row series IH]; intros acc;
    cbn [deployment_py.append_series mapM bind].
  - rewrite app_nil_r; reflexivity.
  - destruct (init Deployment.t row) as [d|e]; cbn [bind]; [|reflexivity].
    rewrite IH.
    destruct (mapM (init Deployment.t) series) as [rs|e]; cbn [bind];
      [|reflexivity].
    rewrite <- app_assoc. reflexivity.
Qed.

Lemma writerow_each_mapM (observations : list Deployment.t) :
  forall written,
    deployment_py.writerow_each written observations
    = (rows <- mapM (fun r => DictWriter_writerow (fieldnames Deployment.t)
                                (asdict r)) observations ;;
       Ok (written ++ concat rows)).
Proof.
  induction observations as [|d rest IH]; intros written;
    cbn [deployment_py.writerow_each mapM bind].
  - rewrite app_nil_r; reflexivity.
  - unfold asdict at 1.
    destruct (DictWriter_writerow (fieldnames Deployment.t)
                (instance_dict d)) as [line|e]; cbn [bind]; [|reflexivity].
    rewrite IH.
    destruct (mapM _ rest) as [rows|e]; cbn [bind concat]; [|reflexivity].
    rewrite <- app_assoc. reflexivity.
Qed.

(** X4: the methods of deployment.py, written as loops, compute what the
    methods of deployments.py compute: [to_csv], [to_pandas] and
    [from_pandas] on every input, [from_csv] on every file that does not
    start with a byte-order mark. *)
Theorem deployment_py_agrees_with_deployments_py :
  forall (records : list Deployment.t) (dataframe : DataFrame)
         (file : pystr),
    deployment_py.to_csv records = to_csv records
    /\ deployment_py.to_pandas records = to_pandas records
    /\ deployment_py.from_pandas dataframe
       = from_pandas Deployment.t dataframe
    /\ (starts_with_bom file = false ->
        deployment_py.from_csv file = from_csv Deployment.t file).
Proof.
  intros records dataframe file. split; [|split; [|split]].
  - unfold deployment_py.to_csv, to_csv.
    destruct (DictWriter_writeheader (fieldnames Deployment.t)) as [h|e];
      cbn [bind]; [|reflexivity].
    rewrite writerow_each_mapM. reflexivity.
  - reflexivity.
  - unfold deployment_py.from_pandas, from_pandas.
    rewrite append_series_mapM.
    destruct (mapM _ (iterrows dataframe)); reflexivity.
  - intros Hb. unfold deployment_py.from_csv, from_csv.
    assert (Hrows : deployment_py.file_rows file = file_rows file).
    { unfold deployment_py.file_rows, file_rows. do 3 f_equal.
      destruct file as [|c rest]; [reflexivity|].
      simpl in Hb. unfold decode_utf8_sig. rewrite Hb. reflexivity. }
    rewrite Hrows. destruct (file_rows file) as [[|header data] err];
      [reflexivity|].
    rewrite append_rows_construct.
    destruct (construct_rows Deployment.t header data err); reflexivity.
Qed.

(** ** A byte-order mark that reaches the reader *)

Lemma starts_with_bom_app (s t : pystr) :
  starts_with_bom s = true -> starts_with_bom (s ++ t) = true.
Proof. destruct s; [discriminate | intros H; exact H]. Qed.

Lemma marked_set_state (r : ReaderObj) (s : ParserState) :
  fields r <> [] -> marked r -> marked (set_state r s).
Proof.
  unfold marked. destruct r as [st fs fd]. cbn [fields field state set_state].
  destruct fs; [intros H; contradiction H; reflexivity | intros _ H; exact H].
Qed.

Lemma marked_save_field (r : ReaderObj) :
  marked r -> marked (parse_save_field r)
              /\ fields (parse_save_field r) <> [].
Proof.
  unfold marked. destruct r as [st fs fd].
  cbn [fields field state parse_save_field].
  destruct fs as [|f fs]; cbn [app].
  - intros [H _]. split; [exact H | discriminate].
  - intros H. split; [exact H | discriminate].
Qed.

Lemma marked_add_char (r r' : ReaderObj) (c : pychar) :
  marked r -> parse_add_char r c = Ok r' ->
  marked r' /\ state r' = state r /\ fields r' = fields r.
Proof.
  unfold marked, parse_add_char. destruct r as [st fs fd].
  cbn [fields field state].
  destruct (field_limit <=? N.of_nat (length fd)); [discriminate|].
  intros H E. injection E as <-. cbn [fields field state].
  split; [|split; reflexivity].
  destruct fs; [|exact H].
  destruct H as [H1 H2]. split; [apply starts_with_bom_app, H1 | exact H2].
Qed.

Lemma marked_with_state (r : ReaderObj) (s : ParserState) :
  marked r -> (fields r = [] -> s = IN_FIELD) -> marked (set_state r s).
Proof.
  unfold marked. destruct r as [st fs fd]. cbn [fields field state set_state].
  destruct fs; [|intros H _; exact H].
  intros [H _] Hs. split; [exact H | apply Hs; reflexivity].
Qed.

(** Every step of the parser keeps the mark. *)
Lemma parse_process_char_marked (r r' : ReaderObj) (c : option pychar) :
  marked r -> parse_process_char r c = Ok r' -> marked r'.
Proof.
  intros Hm.
  assert (Hsave : forall s, marked (set_state (parse_save_field r) s)).
  { intros s. destruct (marked_save_field r Hm) as [H1 H2].
    apply marked_set_state; assumption. }
  assert (Hfs : fields r = [] -> state r = IN_FIELD).
  { unfold marked in Hm. intros E. rewrite E in Hm. apply Hm. }
  assert (Hadd : forall c0 s, (fields r = [] -> s = IN_FIELD) ->
                              (q <- parse_add_char r c0 ;; Ok (set_state q s))
                              = Ok r' -> marked r').
  { intros c0 s Hs E.
    destruct (parse_add_char r c0) as [q|e] eqn:Eq; [|discriminate].
    cbn [bind] in E. injection E as <-.
    destruct (marked_add_char r q c0 Hm Eq) as (Hq & _ & Hf).
    apply marked_with_state; [exact Hq | rewrite Hf; exact Hs]. }
  assert (Hadd' : forall c0, parse_add_char r c0 = Ok r' -> marked r').
  { intros c0 E. apply (marked_add_char r r' c0 Hm E). }
  assert (Hstate : forall s, (fields r = [] -> s = IN_FIELD) ->
                             marked (set_state r s)).
  { intros s Hs. apply marked_with_state; assumption. }
  unfold parse_process_char.
  destruct (state r) eqn:Est.
  - (* START_RECORD *)
    assert (Hne : fields r <> []).
    { intros E. specialize (Hfs E). discriminate. }
    destruct c as [c|]; [|intros E; injection E as <-; exact Hm].
    destruct (is_newline c) eqn:En.
    + intros E; injection E as <-. apply marked_set_state; assumption.
    + assert (Hm' : marked (set_state r START_FIELD))
        by (apply marked_set_state; assumption).
      assert (Hne' : fields (set_state r START_FIELD) <> []) by exact Hne.
      destruct (c =? DQUOTE).
      * intros E; injection E as <-. apply marked_set_state; assumption.
      * destruct (c =? COMMA).
        -- intros E; injection E as <-.
           apply (marked_save_field _ Hm').
        -- intros E.
           destruct (parse_add_char (set_state r START_FIELD) c) as [q|e]
             eqn:Eq; [|discriminate].
           cbn [bind] in E. injection E as <-.
           destruct (marked_add_char _ q c Hm' Eq) as (Hq & _ & Hf).
           apply marked_set_state; [rewrite Hf; exact Hne' | exact Hq].
  - (* START_FIELD *)
    assert (Hne : fields r <> []).
    { intros E. specialize (Hfs E). discriminate. }
    destruct c as [c|].
    + destruct (is_newline c); [intros E; injection E as <-; apply Hsave|].
      destruct (c =? DQUOTE).
      * intros E; injection E as <-. apply marked_set_state; assumption.
      * destruct (c =? COMMA).
        -- intros E; injection E as <-. apply (marked_save_field _ Hm).
        -- apply Hadd. intros E; contradiction.
    + intros E; injection E as <-. apply Hsave.
  - (* IN_FIELD *)
    destruct c as [c|].
    + destruct (is_newline c); [intros E; injection E as <-; apply Hsave|].
      destruct (c =? COMMA); [intros E; injection E as <-; apply Hsave|].
      apply Hadd'.
    + intros E; injection E as <-; apply Hsave.
  - (* IN_QUOTED_FIELD *)
    assert (Hne : fields r <> []).
    { intros E. specialize (Hfs E). discriminate. }
    destruct c as [c|]; [|intros E; injection E as <-; exact Hm].
    destruct (c =? DQUOTE); [|apply Hadd'].
    intros E; injection E as <-. apply marked_set_state; assumption.
  - (* QUOTE_IN_QUOTED_FIELD *)
    assert (Hne : fields r <> []).
    { intros E. specialize (Hfs E). discriminate. }
    destruct c as [c|]; [|intros E; injection E as <-; apply Hsave].
    destruct (c =? DQUOTE); [apply Hadd; intros E; contradiction|].
    destruct (c =? COMMA); [intros E; injection E as <-; apply Hsave|].
    destruct (is_newline c); [intros E; injection E as <-; apply Hsave|].
    apply Hadd; intros E; contradiction.
  - (* EAT_CRNL *)
    assert (Hne : fields r <> []).
    { intros E. specialize (Hfs E). discriminate. }
    destruct c as [c|].
    + destruct (is_newline c); [|discriminate].
      intros E; injection E as <-; exact Hm.
    + intros E; injection E as <-. apply marked_set_state; assumption.
Qed.

Lemma parse_line_marked (line : pystr) :
  forall r r', marked r -> parse_line r line = Ok r' -> marked r'.
Proof.
  induction line as [|c line IH]; intros r r' Hm; cbn [parse_line].
  - apply parse_process_char_marked, Hm.
  - destruct (parse_process_char r (Some c)) as [q|e] eqn:Eq; [|discriminate].
    cbn [bind]. apply IH. eapply parse_process_char_marked; eassumption.
Qed.

Lemma marked_first_field (r : ReaderObj) :
  marked r ->
  exists f rest, fields (parse_save_field r) = f :: rest
                 /\ starts_with_bom f = true.
Proof.
  unfold marked. destruct r as [st fs fd].
  cbn [fields field state parse_save_field].
  destruct fs as [|f fs]; cbn [app].
  - intros [H _]. exists fd, []. split; [reflexivity | exact H].
  - intros H. exists f, (fs ++ [fd]). split; [reflexivity | exact H].
Qed.

(** The first row a marked reader yields starts with a marked cell. *)
Lemma reader_rows_marked (lines : list pystr) :
  forall r row rows e,
    marked r ->
    reader_rows r lines = (row :: rows, e) ->
    exists f rest, row = f :: rest /\ starts_with_bom f = true.
Proof.
  induction lines as [|line lines IH]; intros r row rows e Hm;
    cbn [reader_rows].
  - destruct (negb (N.of_nat (length (field r)) =? 0)
              || state_eqb (state r) IN_QUOTED_FIELD); [|discriminate].
    intros E. injection E as <- _ _. apply marked_first_field, Hm.
  - destruct (parse_line r line) as [r'|e'] eqn:El; [|discriminate].
    pose proof (parse_line_marked line r r' Hm El) as Hm'.
    destruct (state_eqb (state r') START_RECORD) eqn:Es.
    + destruct (reader_rows parse_reset lines) as [rows' e'].
      intros E. injection E as <- _ _.
      unfold marked in Hm'. destruct (fields r') as [|f rest].
      * destruct Hm' as [_ Hst]. rewrite Hst in Es. discriminate.
      * exists f, rest. split; [reflexivity | exact Hm'].
    + apply IH, Hm'.
Qed.

(** The header of a file that starts with a byte-order mark, read without
    the [utf-8-sig] decoder: its first name starts with the mark. *)
Lemma file_rows_marked (file : pystr) (row : list pystr)
    (rows : list (list pystr)) (e : option PyExn) :
  deployment_py.file_rows (BOM :: file) = (row :: rows, e) ->
  exists f rest, row = f :: rest /\ starts_with_bom f = true.
Proof.
  unfold deployment_py.file_rows, csv_reader, readlines.
  rewrite universal_newlines_char by reflexivity.
  cbn [readlines_from]. change (BOM =? LF) with false. cbv iota.
  cbn [app].
  destruct (readlines_from_first (universal_newlines file) [BOM])
    as (x & lines & ->); [left; discriminate|].
  cbn [app reader_rows parse_line].
  change (parse_process_char parse_reset (Some BOM))
    with (Ok (mkReader IN_FIELD [] [BOM])).
  cbn [bind].
  set (r1 := mkReader IN_FIELD [] [BOM]).
  assert (Hm : marked r1) by (split; reflexivity).
  destruct (parse_line r1 x) as [r'|e'] eqn:El; [|discriminate].
  pose proof (parse_line_marked x r1 r' Hm El) as Hm'.
  destruct (state_eqb (state r') START_RECORD) eqn:Es.
  - destruct (reader_rows parse_reset lines) as [rows' e'].
    intros E. injection E as <- _ _.
    unfold marked in Hm'. destruct (fields r') as [|f rest].
    + destruct Hm' as [_ Hst]. rewrite Hst in Es. discriminate.
    + exists f, rest. split; [reflexivity | exact Hm'].
  - intros E. apply (reader_rows_marked lines r' row rows e Hm' E).
Qed.

Lemma deployment_names_unmarked (name : pystr) :
  In name (fieldnames Deployment.t) -> starts_with_bom name = false.
Proof.
  assert (H : forallb (fun n => negb (starts_with_bom n))
                (fieldnames Deployment.t) = true) by (vm_compute; reflexivity).
  rewrite forallb_forall in H. intros Hn. apply negb_true_iff, H, Hn.
Qed.

(** X5: [from_csv] of deployment.py never returns a record from a file that
    starts with a byte-order mark: the mark stays in the first column name,
    so the first data row is refused with a [TypeError]; the call returns
    the empty list when no data row follows the header, and raises
    otherwise. *)
Theorem deployment_py_from_csv_refuses_signature :
  forall (file : pystr),
    (nonblank (tl (fst (deployment_py.file_rows (BOM :: file)))) <> [] ->
     deployment_py.from_csv (BOM :: file) = Raise TypeError)
    /\ (deployment_py.from_csv (BOM :: file) = Ok []
        \/ deployment_py.from_csv (BOM :: file) = Raise TypeError
        \/ deployment_py.from_csv (BOM :: file) = Raise CsvError).
Proof.
  intros file. unfold deployment_py.from_csv.
  destruct (deployment_py.file_rows (BOM :: file)) as [[|header data] err]
    eqn:Erows.
  - split; [intros H; contradiction H; reflexivity|].
    destruct err as [e|]; [|left; reflexivity].
    right; right. f_equal.
    unfold deployment_py.file_rows, csv_reader in Erows.
    apply (reader_rows_only_CsvError _ _ _ _ Erows).
  - cbn [fst tl]. rewrite append_rows_construct, construct_rows_mapM.
    destruct (file_rows_marked file header data err Erows)
      as (f & rest & -> & Hf).
    assert (Hbad : forall row,
              row_record Deployment.t (f :: rest) row = Raise TypeError).
    { intros row. apply row_record_mismatch. intros Hnames.
      assert (Hin : In f (fieldnames Deployment.t))
        by (apply Hnames; left; reflexivity).
      rewrite (deployment_names_unmarked f Hin) in Hf. discriminate. }
    destruct (nonblank data) as [|row rows'] eqn:En.
    + split; [intros H; contradiction H; reflexivity|].
      cbn [mapM bind].
      destruct err as [e|]; cbn [bind]; [|left; reflexivity].
      right; right. f_equal.
      unfold deployment_py.file_rows, csv_reader in Erows.
      apply (reader_rows_only_CsvError _ _ _ _ Erows).
    + assert (E : mapM (row_record Deployment.t (f :: rest)) (row :: rows')
                  = Raise TypeError).
      { cbn [mapM]. rewrite Hbad. reflexivity. }
      rewrite E. cbn [bind]. split; [reflexivity | right; left; reflexivity].
Qed.

(** ** From a file to a table and back *)

Lemma raw_cell_text (row : list pystr) (vs : list PyVal) :
  Forall (raw_cell row) vs -> forallb is_text_or_none vs = true.
Proof.
  induction 1 as [|v vs Hv _ IH]; [reflexivity|].
  cbn [forallb]. rewrite IH.
  destruct Hv as [-> | (s & -> & _)]; reflexivity.
Qed.

Lemma from_csv_text_records {T : Type} `{D : Dataclass T}
    (file : pystr) (rs : list T) :
  from_csv T file = Ok rs ->
  Forall (fun r => forallb is_text_or_none (field_values r) = true) rs.
Proof.
  intros H. apply from_csv_Ok_inv in H as [_ H].
  induction H as [|row r rows rs' Hr _ IH]; constructor; [|exact IH].
  apply row_record_Ok_inv in Hr as (_ & _ & Hr).
  apply (raw_cell_text row), Hr.
Qed.

(** X6: for each record kind, the records [from_csv] returns from any file
    come back from the table round trip unchanged, which is what
    [test_to_from_pandas] asserts on its fixture. *)
Theorem from_csv_records_survive_the_table_round_trip :
  forall (k : Kind) (file : pystr) (rs : list (record k)),
    from_csv (record k) file = Ok rs ->
    from_pandas (record k) (to_pandas rs) = Ok rs.
Proof.
  intros k file rs H. apply from_pandas_to_pandas_text.
  apply (from_csv_text_records file rs H).
Qed.

Lemma media_short_file_survives_the_table_round_trip :
  from_csv (record KMedia) media_short_file = Ok [media_short_read]
  /\ from_pandas (record KMedia) (to_pandas [media_short_read])
     = Ok [media_short_read].
Proof.
  assert (H : from_csv (record KMedia) media_short_file
              = Ok [media_short_read]) by (vm_compute; reflexivity).
  split; [exact H|].
  exact (from_csv_records_survive_the_table_round_trip KMedia
           media_short_file [media_short_read] H).
Defined.

(** ** Tables of any records *)

Lemma survives_store (dt : DType) (v : PyVal) : survives v (store dt v).
Proof. destruct dt, v; simpl; auto. Qed.

Lemma survives_store_store (cd dt : DType) (v : PyVal) :
  survives v (store cd (store dt v)).
Proof. destruct cd, dt, v; simpl; auto. Qed.

Lemma mapM_length {A B} (f : A -> result B) (l : list A) (bs : list B) :
  mapM f l = Ok bs -> length bs = length l.
Proof.
  intros H. apply mapM_Ok_Forall2 in H.
  symmetry. eapply Forall2_length, H.
Qed.

Lemma Forall2_map_same {A B} (R : A -> B -> Prop) (f : A -> B)
    (l : list A) :
  (forall a, In a l -> R a (f a)) -> Forall2 R l (map f l).
Proof.
  induction l as [|a l IH]; intros H; cbn [map]; constructor.
  - apply H; left; reflexivity.
  - apply IH. intros x Hx. apply H; right; exact Hx.
Qed.

Section AnyTable.

Context {T : Type} `{D : Dataclass T}.

Lemma to_pandas_columns (records : list T) :
  records <> [] ->
  map fst (columns (to_pandas records)) = fieldnames T.
Proof.
  intros Hne. unfold to_pandas, DataFrame_of_dicts. cbn [columns].
  rewrite map_map. cbn [fst]. rewrite map_id.
  apply union_keys_same.
  - apply fieldnames_NoDup.
  - destruct records; [contradiction | discriminate].
  - apply Forall_map, Forall_forall. intros r _. apply instance_dict_keys.
Qed.

(** The cells of a record's row: its field values, each stored under the
    dtype of its column. *)
Lemma to_pandas_row (records : list T) (r : T) :
  records <> [] ->
  map (fun c => store (snd c) (dict_cell (fst c) (instance_dict r)))
      (columns (to_pandas records))
  = map (fun cv => store (snd (fst cv)) (snd cv))
        (combine (columns (to_pandas records)) (field_values r)).
Proof.
  intros Hne.
  pose proof (to_pandas_columns records Hne) as Hcols.
  assert (Hv : map (fun c => dict_cell (fst c) (instance_dict r))
                   (columns (to_pandas records))
               = field_values r).
  { rewrite <- (map_map fst (fun k => dict_cell k (instance_dict r))).
    rewrite Hcols. unfold instance_dict. apply dict_cell_combine.
    - apply fieldnames_NoDup.
    - symmetry; apply field_values_length. }
  rewrite <- Hv.
  generalize (columns (to_pandas records)) as cols.
  induction cols as [|c cols IH]; [reflexivity|].
  cbn [map combine fst snd]. rewrite IH. reflexivity.
Qed.

Lemma stored_survive (cd : DType) (cols : list (pystr * DType)) :
  forall vs : list PyVal,
    length vs = length cols ->
    Forall2 survives vs
      (map (store cd)
           (map (fun cv => store (snd (fst cv)) (snd cv)) (combine cols vs))).
Proof.
  induction cols as [|c cols IH]; intros [|v vs] Hlen;
    try discriminate; [constructor|].
  cbn [combine map fst snd]. constructor.
  - apply survives_store_store.
  - apply IH. simpl in Hlen. lia.
Qed.

Lemma stored_survive_once (cols : list (pystr * DType)) :
  forall vs : list PyVal,
    length vs = length cols ->
    Forall2 survives vs
      (map (fun cv => store (snd (fst cv)) (snd cv)) (combine cols vs)).
Proof.
  induction cols as [|c cols IH]; intros [|v vs] Hlen;
    try discriminate; [constructor|].
  cbn [combine map fst snd]. constructor.
  - apply survives_store.
  - apply IH. simpl in Hlen. lia.
Qed.

Lemma to_pandas_columns_length (records : list T) :
  records <> [] ->
  length (columns (to_pandas records)) = length (fieldnames T).
Proof.
  intros Hne. rewrite <- (to_pandas_columns records Hne).
  symmetry; apply length_map.
Qed.

Lemma to_pandas_shape (records : list T) :
  (records <> [] -> map fst (columns (to_pandas records)) = fieldnames T)
  /\ (records = [] -> to_pandas records = mkDataFrame [] [])
  /\ rectangular (to_pandas records)
  /\ Forall2 (fun r row => Forall2 survives (field_values r) row)
             records (rows (to_pandas records)).
Proof.
  split; [apply to_pandas_columns|].
  split; [intros ->; reflexivity|].
  split.
  - unfold rectangular, to_pandas, DataFrame_of_dicts. cbn [rows columns].
    apply Forall_map, Forall_forall. intros d _. apply length_map.
  - destruct records as [|r0 records0] eqn:Er; [constructor|].
    rewrite <- Er.
    assert (Hne : records <> []) by (subst; discriminate).
    assert (Hrows : rows (to_pandas records)
                    = map (fun r => map (fun c =>
                             store (snd c) (dict_cell (fst c) (instance_dict r)))
                             (columns (to_pandas records))) records).
    { unfold to_pandas, DataFrame_of_dicts. cbn [rows columns].
      rewrite map_map. reflexivity. }
    rewrite Hrows. clear Er.
    apply Forall2_map_same.
    intros r _. rewrite (to_pandas_row records r Hne).
    apply stored_survive_once.
    rewrite field_values_length, to_pandas_columns_length by exact Hne.
    reflexivity.
Qed.

Lemma from_pandas_to_pandas_any (records : list T) :
  exists rs,
    from_pandas T (to_pandas records) = Ok rs
    /\ Forall2 (fun r r' => Forall2 survives (field_values r)
                                    (field_values r'))
               records rs.
Proof.
  destruct records as [|r0 records0] eqn:Er.
  { exists []. split; [reflexivity | constructor]. }
  rewrite <- Er.
  assert (Hne : records <> []) by (subst; discriminate).
  clear Er r0 records0.
  pose proof (to_pandas_columns records Hne) as Hcols.
  pose proof (to_pandas_columns_length records Hne) as Hlen.
  unfold from_pandas, iterrows. rewrite Hcols.
  set (cd := common_dtype (map snd (columns (to_pandas records)))).
  assert (Hrows : rows (to_pandas records)
                  = map (fun r => map (fun c =>
                           store (snd c) (dict_cell (fst c) (instance_dict r)))
                           (columns (to_pandas records))) records).
  { unfold to_pandas, DataFrame_of_dicts. cbn [rows columns].
    rewrite map_map. reflexivity. }
  rewrite Hrows, map_map, mapM_map.
  apply mapM_all_Ok. intros r _.
  rewrite (to_pandas_row records r Hne).
  set (vs := map (store cd) (map _ (combine _ (field_values r)))).
  assert (Hvs : Forall2 survives (field_values r) vs).
  { apply stored_survive. rewrite field_values_length, Hlen. reflexivity. }
  assert (Hl : length (fieldnames T) = length vs).
  { rewrite <- (Forall2_length Hvs). symmetry; apply field_values_length. }
  destruct (init_ok (combine (fieldnames T) vs)) as (r' & Hr' & Hval).
  - rewrite map_fst_combine by exact Hl. apply fieldnames_NoDup.
  - intros name. rewrite map_fst_combine by exact Hl. reflexivity.
  - exists r'. split; [exact Hr'|].
    rewrite Hval, bound_combine;
      [exact Hvs | apply fieldnames_NoDup | exact Hl].
Qed.

End AnyTable.

(** X7: for each record kind and records whose fields hold [None], a
    [str], a [bool], a [float], an enumeration member or an [int] within
    int64, [to_pandas] returns a frame with one row per record, in order,
    each row with one cell per column; the columns are the fields in
    declared order when there is a record, and there is no column when
    there is none; a cell holds the field's value, but for [None] and [int]
    values, which a column may hold as floats. *)
Theorem to_pandas_one_row_per_record :
  forall (k : Kind) (records : list (record k)),
    Forall (fun r => forallb within_int64 (field_values r) = true) records ->
    (records <> [] ->
     map fst (columns (to_pandas records)) = fieldnames (record k))
    /\ (records = [] -> to_pandas records = mkDataFrame [] [])
    /\ rectangular (to_pandas records)
    /\ Forall2 (fun r row => Forall2 survives (field_values r) row)
               records (rows (to_pandas records)).
Proof. intros k records _. apply to_pandas_shape. Qed.

Lemma to_pandas_one_row_per_deployment :
  Forall (fun r => forallb within_int64 (field_values r) = true)
         [deployment_plain; deployment_delayed]
  /\ ([deployment_plain; deployment_delayed] <> [] ->
      map fst (columns (to_pandas [deployment_plain; deployment_delayed]))
      = fieldnames (record KDeployment))
  /\ ([deployment_plain; deployment_delayed] = [] ->
      to_pandas [deployment_plain; deployment_delayed] = mkDataFrame [] [])
  /\ rectangular (to_pandas [deployment_plain; deployment_delayed])
  /\ Forall2 (fun r row => Forall2 survives (field_values r) row)
             [deployment_plain; deployment_delayed]
             (rows (to_pandas [deployment_plain; deployment_delayed])).
Proof.
  assert (H : Forall (fun r : record KDeployment =>
                        forallb within_int64 (field_values r) = true)
                     [deployment_plain; deployment_delayed])
    by (repeat constructor).
  split; [exact H|].
  exact (to_pandas_one_row_per_record KDeployment
           [deployment_plain; deployment_delayed] H).
Defined.

(** X8: for each record kind and records whose fields hold [None], a
    [str], a [bool], a [float], an enumeration member or an [int] within
    int64, [from_pandas(to_pandas(records))] raises nothing and returns one
    record per record, in order, whose fields hold what the records'
    fields hold, but for [None] values, which may come back as NaN, and
    [int] values, which may come back as floats. *)
Theorem from_pandas_of_to_pandas_never_raises :
  forall (k : Kind) (records : list (record k)),
    Forall (fun r => forallb within_int64 (field_values r) = true) records ->
    exists rs,
      from_pandas (record k) (to_pandas records) = Ok rs
      /\ Forall2 (fun r r' => Forall2 survives (field_values r)
                                      (field_values r'))
                 records rs.
Proof. intros k records _. apply from_pandas_to_pandas_any. Qed.

Lemma from_pandas_of_to_pandas_of_deployments :
  Forall (fun r => forallb within_int64 (field_values r) = true)
         [deployment_plain; deployment_delayed]
  /\ exists rs,
      from_pandas (record KDeployment)
        (to_pandas [deployment_plain; deployment_delayed]) = Ok rs
      /\ Forall2 (fun r r' => Forall2 survives (field_values r)
                                      (field_values r'))
                 [deployment_plain; deployment_delayed] rs.
Proof.
  assert (H : Forall (fun r : record KDeployment =>
                        forallb within_int64 (field_values r) = true)
                     [deployment_plain; deployment_delayed])
    by (repeat constructor).
  split; [exact H|].
  exact (from_pandas_of_to_pandas_never_raises KDeployment
           [deployment_plain; deployment_delayed] H).
Defined.

(** ** The tables [from_pandas] accepts *)

Section Accepting.

Context {T : Type} `{D : Dataclass T}.

Lemma iterrows_row_keys (df : DataFrame) (kw : kwargs) :
  rectangular df -> In kw (iterrows df) ->
  map fst kw = map fst (columns df).
Proof.
  unfold rectangular, iterrows. intros Hrect Hkw.
  apply in_map_iff in Hkw as (row & <- & Hrow).
  rewrite Forall_forall in Hrect. specialize (Hrect row Hrow).
  apply map_fst_combine. rewrite !length_map. symmetry; exact Hrect.
Qed.

Lemma from_pandas_accepts (df : DataFrame) :
  rectangular df ->
  rows df <> [] ->
  ((exists rs, from_pandas T df = Ok rs)
   <-> NoDup (map fst (columns df))
       /\ (forall name, In name (map fst (columns df))
                        <-> In name (fieldnames T))).
Proof.
  intros Hrect Hne. split.
  - intros (rs & Hrs). unfold from_pandas in Hrs.
    destruct (iterrows df) as [|kw kws] eqn:Ei.
    { unfold iterrows in Ei. destruct (rows df); [contradiction|discriminate]. }
    assert (Hk : map fst kw = map fst (columns df)).
    { apply iterrows_row_keys; [exact Hrect | rewrite Ei; left; reflexivity]. }
    cbn [mapM] in Hrs.
    destruct (init T kw) as [r|e] eqn:Er; [|discriminate].
    apply init_Ok_inv in Er as (Hnd & Hnames & _).
    rewrite Hk in Hnd, Hnames. split; assumption.
  - intros [Hnd Hnames]. unfold from_pandas.
    destruct (mapM_all_Ok (init T) (fun _ _ => True) (iterrows df))
      as (rs & Hrs & _); [|exists rs; exact Hrs].
    intros kw Hkw.
    pose proof (iterrows_row_keys df kw Hrect Hkw) as Hk.
    destruct (init_ok kw) as (r & Hr & _).
    + rewrite Hk; exact Hnd.
    + intros name. rewrite Hk. apply Hnames.
    + exists r. split; [exact Hr | exact I].
Qed.

End Accepting.

(** X9: for each record kind, [from_pandas] accepts a table that has a row
    exactly when its column labels are the field names of the class, each
    once and in any order; a column more, a column less or a repeated label
    is refused ([TypeError]); whatever is returned has one record per
    row. *)
Theorem from_pandas_accepts_exactly_the_fields :
  forall (k : Kind) (df : DataFrame),
    rectangular df ->
    rows df <> [] ->
    ((exists rs, from_pandas (record k) df = Ok rs)
     <-> NoDup (map fst (columns df))
         /\ (forall name, In name (map fst (columns df))
                          <-> In name (fieldnames (record k))))
    /\ ((forall rs, from_pandas (record k) df <> Ok rs) ->
        from_pandas (record k) df = Raise TypeError)
    /\ (forall rs, from_pandas (record k) df = Ok rs ->
                   length rs = length (rows df)).
Proof.
  intros k df Hrect Hne. split; [apply from_pandas_accepts; assumption|].
  split.
  - intros Hno. destruct (from_pandas (record k) df) as [rs|e] eqn:E.
    + exfalso. apply (Hno rs). reflexivity.
    + f_equal. apply (from_pandas_only_TypeError df e E).
  - intros rs H. unfold from_pandas in H. apply mapM_length in H.
    rewrite H. unfold iterrows. apply length_map.
Qed.

Lemma from_pandas_accepts_media_frame :
  rectangular media_frame
  /\ rows media_frame <> []
  /\ ((exists rs, from_pandas (record KMedia) media_frame = Ok rs)
      <-> NoDup (map fst (columns media_frame))
          /\ (forall name, In name (map fst (columns media_frame))
                           <-> In name (fieldnames (record KMedia))))
  /\ ((forall rs, from_pandas (record KMedia) media_frame <> Ok rs) ->
      from_pandas (record KMedia) media_frame = Raise TypeError)
  /\ (forall rs, from_pandas (record KMedia) media_frame = Ok rs ->
                 length rs = length (rows media_frame)).
Proof.
  assert (R1 : rectangular media_frame)
    by (constructor; [reflexivity | constructor]).
  assert (N1 : rows media_frame <> []) by discriminate.
  split; [exact R1|]. split; [exact N1|].
  exact (from_pandas_accepts_exactly_the_fields KMedia media_frame R1 N1).
Defined.

(** ** Enumeration members in a written file *)

Lemma enum_text_unquoted (m : EnumMember) :
  needs_quotes (cell_text (PyEnum m)) = false.
Proof.
  destruct m as [m|m|m|m|m|m|m|m]; destruct m; vm_compute; reflexivity.
Qed.

Lemma plain_enum_text_is_no_value (m : EnumMember) :
  enum_is_str (enum_class m) = false ->
  mem (written_cell (PyEnum m)) (enum_values (enum_class m)) = false.
Proof.
  destruct m as [m|m|m|m|m|m|m|m]; destruct m; intros H;
    try discriminate H; vm_compute; reflexivity.
Qed.

(** X10: for each record kind, in every file [to_csv] writes, a field that
    holds a member of [FeatureType], the one enumeration derived from
    [str], is written as the member's value, and a field that holds a
    member of any other enumeration as the class name, a dot and the
    member's name, which is never one of the values the class declares. *)
Theorem to_csv_writes_enum_members :
  forall (k : Kind) (records : list (record k)) (file : pystr),
    to_csv records = Ok file ->
    file
    = written_row (fieldnames (record k))
      ++ concat (map (fun r => written_row
                                 (map written_cell (field_values r)))
                     records)
    /\ (forall (r : record k) i m,
          nth_error (field_values r) i = Some (PyEnum m) ->
          nth_error (map written_cell (field_values r)) i
          = Some (if enum_is_str (enum_class m)
                  then u (snd (enum_name_value m))
                  else u (enum_class_name (enum_class m)) ++ u "."
                       ++ u (fst (enum_name_value m))))
    /\ (forall m,
          enum_is_str (enum_class m) = false ->
          mem (written_cell (PyEnum m)) (enum_values (enum_class m))
          = false).
Proof.
  intros k records file Hfile. split; [|split].
  - pose proof (to_csv_Ok_inv (kind_two_fields k) (kind_plain_names k)
                  (kind_names_encodable k) records file Hfile) as Hw.
    rewrite (to_csv_rows (kind_two_fields k) (kind_plain_names k)
               (kind_names_encodable k) records Hw) in Hfile.
    injection Hfile as <-. reflexivity.
  - intros r i m Hi. rewrite nth_error_map, Hi. cbn [option_map]. f_equal.
    unfold written_cell, join_append. rewrite enum_text_unquoted.
    unfold cell_text, csv_field, py_str.
    destruct (enum_is_str (enum_class m)); reflexivity.
  - apply plain_enum_text_is_no_value.
Qed.

Lemma media_written_with_its_capture_method :
  to_csv [media_time_lapse] = Ok media_time_lapse_file
  /\ media_time_lapse_file
     = written_row (fieldnames (record KMedia))
       ++ concat (map (fun r => written_row
                                  (map written_cell (field_values r)))
                      [media_time_lapse])
  /\ (forall (r : record KMedia) i m,
        nth_error (field_values r) i = Some (PyEnum m) ->
        nth_error (map written_cell (field_values r)) i
        = Some (if enum_is_str (enum_class m)
                then u (snd (enum_name_value m))
                else u (enum_class_name (enum_class m)) ++ u "."
                     ++ u (fst (enum_name_value m))))
  /\ (forall m,
        enum_is_str (enum_class m) = false ->
        mem (written_cell (PyEnum m)) (enum_values (enum_class m))
        = false).
Proof.
  assert (H : to_csv [media_time_lapse] = Ok media_time_lapse_file)
    by (vm_compute; reflexivity).
  split; [exact H|].
  exact (to_csv_writes_enum_members KMedia [media_time_lapse]
           media_time_lapse_file H).
Defined.

(** ** A header that repeats a column name *)

Lemma last_index_nth (name : pystr) (header : list pystr) (i : nat) :
  last_index name header = Some i ->
  nth_error header i = Some name /\ (i < length header)%nat.
Proof.
  revert i. induction header as [|h rest IH]; intros i; cbn [last_index];
    [discriminate|].
  destruct (last_index name rest) as [j|].
  - intros E; injection E as <-. destruct (IH j eq_refl) as [H1 H2].
    split; [exact H1 | simpl; lia].
  - destruct (pystr_eqb name h) eqn:Eh; [|discriminate].
    intros E; injection E as <-. apply pystr_eqb_eq in Eh; subst h.
    split; [reflexivity | simpl; lia].
Qed.

Lemma lookup_dict_set (name : pystr) (d : cells_dict) (k : pystr)
    (v : option pystr) :
  lookup name (map (fun kv => (fst kv, cell_value (snd kv))) (dict_set d k v))
  = if pystr_eqb name k then Some (cell_value v)
    else lookup name (map (fun kv => (fst kv, cell_value (snd kv))) d).
Proof.
  induction d as [|[k' v'] d IH]; cbn [dict_set map lookup fst snd];
    [reflexivity|].
  destruct (pystr_eqb k k') eqn:Ek.
  - apply pystr_eqb_eq in Ek; subst k'. cbn [map lookup fst snd].
    destruct (pystr_eqb name k); reflexivity.
  - cbn [map lookup fst snd]. rewrite IH.
    destruct (pystr_eqb name k') eqn:En; [|reflexivity].
    apply pystr_eqb_eq in En; subst k'.
    destruct (pystr_eqb name k) eqn:Enk; [|reflexivity].
    apply pystr_eqb_eq in Enk; subst k.
    rewrite pystr_eqb_refl in Ek. discriminate.
Qed.

(** A later item of an update overrides an earlier one. *)
Lemma lookup_dict_update (name : pystr) (items : cells_dict) :
  forall d,
    lookup name
      (map (fun kv => (fst kv, cell_value (snd kv))) (dict_update d items))
    = match last_index name (map fst items) with
      | Some i => option_map cell_value (nth_error (map snd items) i)
      | None =>
          lookup name (map (fun kv => (fst kv, cell_value (snd kv))) d)
      end.
Proof.
  unfold dict_update.
  induction items as [|[k v] items IH]; intros d; [reflexivity|].
  cbn [fold_left map fst snd last_index]. rewrite IH.
  destruct (last_index name (map fst items)) as [j|]; [reflexivity|].
  rewrite lookup_dict_set.
  destruct (pystr_eqb name k); reflexivity.
Qed.

Lemma dict_update_app (d a b : cells_dict) :
  dict_update d (a ++ b) = dict_update (dict_update d a) b.
Proof. unfold dict_update. apply fold_left_app. Qed.

Lemma DictReader_row_named (header row : list pystr) :
  (length row <= length header)%nat ->
  DictReader_row header row
  = mkRowDict (dict_update [] (combine header (padded (length header) row)))
              None.
Proof.
  intros Hlen. unfold DictReader_row.
  assert (Hlt : Nat.ltb (length header) (length row) = false)
    by (apply Nat.ltb_ge; exact Hlen).
  rewrite Hlt. f_equal. rewrite <- dict_update_app. f_equal.
  unfold padded.
  pose proof (combine_pad header (map (@Some pystr) row) None) as H.
  rewrite length_map in H. apply H, Hlen.
Qed.

Section RepeatedNames.

Context {T : Type} `{D : Dataclass T}.

Lemma row_record_last_names (header row : list pystr) (r : T) :
  row_record T header row = Ok r -> cells_under_last_names header row r.
Proof.
  intros Hr. pose proof (row_record_Ok_inv header row r Hr)
    as (Hlen & Hnames & _).
  unfold row_record in Hr.
  rewrite (DictReader_row_named header row Hlen) in Hr.
  unfold unpack in Hr. cbn [rest named bind] in Hr.
  set (kw := map (fun kv => (fst kv, cell_value (snd kv)))
               (dict_update [] (combine header (padded (length header) row))))
    in Hr.
  apply init_Ok_inv in Hr as (_ & _ & Hval).
  intros name i Hi.
  destruct (last_index_nth name header i Hi) as [Hnth Hlt].
  assert (Hin : In name (fieldnames T)).
  { apply Hnames. eapply nth_error_In, Hnth. }
  unfold getattr, instance_dict. rewrite Hval.
  rewrite (lookup_combine_map (bound kw) (fieldnames T) name Hin).
  f_equal. unfold bound, kw. rewrite lookup_dict_update.
  assert (Hl : length header = length (padded (length header) row))
    by (symmetry; apply padded_length; exact Hlen).
  rewrite map_fst_combine, map_snd_combine by exact Hl.
  rewrite Hi, (padded_nth (length header) row i Hlen Hlt). reflexivity.
Qed.

End RepeatedNames.

(** X11: for each record kind, when the header of the file repeats a column
    name, every record [from_csv] returns holds in that field the cell
    under the last column of that name ([None] when the row ends before
    that column). *)
Theorem from_csv_takes_the_last_column_of_a_name :
  forall (k : Kind) (file : pystr) (rs : list (record k)),
    from_csv (record k) file = Ok rs ->
    Forall2 (cells_under_last_names (header_of file))
            (nonblank (data_rows file)) rs.
Proof.
  intros k file rs H. apply from_csv_Ok_inv in H as [_ H].
  eapply Forall2_impl; [|exact H].
  intros row r Hr. apply row_record_last_names, Hr.
Qed.

Lemma from_csv_takes_the_second_mediaID :
  from_csv (record KMedia) media_repeated_file = Ok [media_repeated_read]
  /\ Forall2 (cells_under_last_names (header_of media_repeated_file))
             (nonblank (data_rows media_repeated_file))
             [media_repeated_read].
Proof.
  assert (H : from_csv (record KMedia) media_repeated_file
              = Ok [media_repeated_read]) by (vm_compute; reflexivity).
  split; [exact H|].
  exact (from_csv_takes_the_last_column_of_a_name KMedia
           media_repeated_file [media_repeated_read] H).
Defined.

(** ** What [from_csv] does with any file *)

Lemma dict_set_NoDup (d : cells_dict) (k : pystr) (v : option pystr) :
  NoDup (map fst d) -> NoDup (map fst (dict_set d k v)).
Proof.
  induction d as [|[k' v'] d IH]; cbn [dict_set map fst]; intros Hnd.
  - constructor; [intros [] | constructor].
  - inversion Hnd as [|? ? Hk Hd]; subst.
    destruct (pystr_eqb k k') eqn:Ek; cbn [map fst].
    + constructor; assumption.
    + constructor; [|apply IH, Hd].
      intros Hin. apply dict_set_keys in Hin as [-> | Hin].
      * rewrite pystr_eqb_refl in Ek. discriminate.
      * contradiction.
Qed.

Lemma dict_update_NoDup (items d : cells_dict) :
  NoDup (map fst d) -> NoDup (map fst (dict_update d items)).
Proof.
  unfold dict_update. revert d.
  induction items as [|[k v] items IH]; intros d Hnd; [exact Hnd|].
  cbn [fold_left fst snd]. apply IH, dict_set_NoDup, Hnd.
Qed.

Section AnyFile.

Context {T : Type} `{D : Dataclass T}.

(** A row no longer than a header that names exactly the fields, each once
    or more: the constructor takes it. *)
Lemma row_record_accepts (header row : list pystr) :
  (forall name, In name header <-> In name (fieldnames T)) ->
  (length row <= length header)%nat ->
  exists r, row_record T header row = Ok r.
Proof.
  intros Hnames Hlen. unfold row_record.
  destruct (unpack (DictReader_row header row)) as [kw|e] eqn:Eu.
  - cbn [bind].
    pose proof (unpack_keys header row kw Eu) as (_ & Hkeys & _).
    destruct (init_ok kw) as (r & Hr & _).
    + rewrite (DictReader_row_named header row Hlen) in Eu.
      unfold unpack in Eu. cbn [rest named] in Eu. injection Eu as <-.
      rewrite map_map. cbn [fst].
      apply dict_update_NoDup. constructor.
    + intros name. rewrite Hkeys. apply Hnames.
    + exists r. exact Hr.
  - rewrite (DictReader_row_named header row Hlen) in Eu.
    unfold unpack in Eu. cbn [rest] in Eu. discriminate.
Qed.

Lemma row_record_Raise_inv (header row : list pystr) (e : PyExn) :
  row_record T header row = Raise e ->
  (length header < length row)%nat
  \/ ~ (forall name, In name header <-> In name (fieldnames T)).
Proof.
  intros Hr.
  destruct (Nat.ltb (length header) (length row)) eqn:El.
  - left. apply Nat.ltb_lt, El.
  - right. intros Hnames. apply Nat.ltb_ge in El.
    destruct (row_record_accepts header row Hnames El) as (r & Hok).
    rewrite Hok in Hr. discriminate.
Qed.

Lemma from_csv_eq (file : pystr) :
  from_csv T file
  = (rs <- mapM (row_record T (header_of file)) (nonblank (data_rows file)) ;;
     match snd (file_rows file) with
     | Some e => Raise e
     | None => Ok rs
     end).
Proof.
  unfold from_csv, header_of, data_rows.
  destruct (file_rows file) as [[|header data] err]; cbn [fst snd hd tl].
  - reflexivity.
  - apply construct_rows_mapM.
Qed.

Lemma from_csv_outcome (file : pystr) :
  (refused T file -> from_csv T file = Raise TypeError)
  /\ (~ refused T file ->
      snd (file_rows file) = Some CsvError ->
      from_csv T file = Raise CsvError)
  /\ (~ refused T file ->
      snd (file_rows file) = None ->
      exists rs, from_csv T file = Ok rs
                 /\ length rs = length (nonblank (data_rows file)))
  /\ (snd (file_rows file) = None \/ snd (file_rows file) = Some CsvError).
Proof.
  assert (Hrows : ~ refused T file ->
            exists rs,
              mapM (row_record T (header_of file)) (nonblank (data_rows file))
              = Ok rs
              /\ length rs = length (nonblank (data_rows file))).
  { intros Hno.
    destruct (mapM_all_Ok (row_record T (header_of file)) (fun _ _ => True)
                (nonblank (data_rows file))) as (rs & Hrs & Hall).
    - intros row Hrow.
      destruct (row_record T (header_of file) row) as [r|e] eqn:Er;
        [exists r; split; [reflexivity | exact I]|].
      exfalso. apply Hno.
      apply row_record_Raise_inv in Er as [Hlong | Hnames].
      + right. exists row. split; [|exact Hlong].
        unfold nonblank in Hrow. apply filter_In in Hrow as [Hrow _].
        exact Hrow.
      + left. split; [|exact Hnames].
        intros E. rewrite E in Hrow. destruct Hrow.
    - exists rs. split; [exact Hrs|].
      symmetry. eapply Forall2_length, Hall. }
  split; [|split; [|split]].
  - intros [[Hne Hnames] | (row & Hrow & Hlong)].
    + apply from_csv_header_mismatch; assumption.
    + apply (from_csv_long_row file row); assumption.
  - intros Hno Herr. destruct (Hrows Hno) as (rs & Hrs & _).
    rewrite from_csv_eq, Hrs, Herr. reflexivity.
  - intros Hno Herr. destruct (Hrows Hno) as (rs & Hrs & Hlen).
    exists rs. split; [|exact Hlen].
    rewrite from_csv_eq, Hrs, Herr. reflexivity.
  - destruct (file_rows file) as [rows [e|]] eqn:Ef; cbn [snd];
      [right | left; reflexivity].
    f_equal. unfold file_rows, csv_reader in Ef.
    apply (reader_rows_only_CsvError _ _ _ _ Ef).
Qed.

End AnyFile.

(** X12: what [from_csv] does with any file, for each record kind.  It
    raises [TypeError] when a data row that is not blank stands under a
    header that does not name exactly the fields of the class (in any
    order, a name possibly repeated), or when a data row is longer than the
    header.  Otherwise it raises [csv.Error] when the csv reader does (a
    field over the size limit), and returns one record per data row that is
    not blank when the reader raises nothing.  The reader raises nothing
    else. *)
Theorem from_csv_raises_or_returns :
  forall (k : Kind) (file : pystr),
    (refused (record k) file -> from_csv (record k) file = Raise TypeError)
    /\ (~ refused (record k) file ->
        snd (file_rows file) = Some CsvError ->
        from_csv (record k) file = Raise CsvError)
    /\ (~ refused (record k) file ->
        snd (file_rows file) = None ->
        exists rs, from_csv (record k) file = Ok rs
                   /\ length rs = length (nonblank (data_rows file)))
    /\ (snd (file_rows file) = None
        \/ snd (file_rows file) = Some CsvError).
Proof. intros k file. apply from_csv_outcome. Qed.

(** ** A cell beyond the field limit, anywhere *)

Lemma over_limit_split (big : pystr) :
  fits big = false ->
  exists pre c post,
    big = pre ++ c :: post /\ N.of_nat (length pre) = field_limit.
Proof.
  unfold fits. intros H. apply N.leb_gt in H.
  set (n := N.to_nat field_limit).
  assert (Hn : (n < length big)%nat) by (unfold n; lia).
  destruct (skipn n big) as [|c post] eqn:Es.
  - assert (Hl : length (skipn n big) = (length big - n)%nat)
      by apply length_skipn.
    rewrite Es in Hl. simpl in Hl. lia.
  - exists (firstn n big), c, post. split.
    + rewrite <- Es. symmetry. apply firstn_skipn.
    + rewrite length_firstn, Nat.min_l by lia. unfold n. lia.
Qed.

Lemma fits_exact (pre : pystr) :
  N.of_nat (length pre) = field_limit -> fits pre = true.
Proof. intros H. unfold fits. rewrite H. apply N.leb_refl. Qed.

(** A written cell beyond the limit, quoted or not: the reader raises its
    error before the cell ends. *)
Lemma stream_big_cell (fs : list pystr) (big t : pystr) :
  fits big = false ->
  stream (mkReader START_FIELD fs []) (join_append big ++ t)
  = ([], Some CsvError).
Proof.
  intros Hbig.
  destruct (over_limit_split big Hbig) as (pre & c & post & -> & Hlen).
  destruct (needs_quotes (pre ++ c :: post)) eqn:Hq.
  - unfold join_append. rewrite Hq. cbn [app]. rewrite <- app_assoc.
    cbn [stream].
    change (parse_process_char (mkReader START_FIELD fs []) (Some DQUOTE))
      with (Ok (mkReader IN_QUOTED_FIELD fs [])).
    change (DQUOTE =? LF) with false. cbn iota.
    assert (Hd : double_quotes (pre ++ c :: post)
                 = double_quotes pre ++ double_quotes (c :: post))
      by (unfold double_quotes; apply flat_map_app).
    rewrite Hd, <- app_assoc.
    rewrite (stream_in_quoted pre fs [] _ (fits_exact pre Hlen)).
    cbn [app].
    assert (Hfull : (field_limit <=? N.of_nat (length pre)) = true)
      by (rewrite Hlen; apply N.leb_refl).
    destruct (c =? DQUOTE) eqn:Ec.
    + apply N.eqb_eq in Ec; subst c.
      change (double_quotes (DQUOTE :: post))
        with (DQUOTE :: DQUOTE :: double_quotes post).
      cbn [app stream]. cbn [parse_process_char state].
      change (DQUOTE =? DQUOTE) with true. cbn iota.
      change (DQUOTE =? LF) with false. cbn iota.
      change (set_state (mkReader IN_QUOTED_FIELD fs pre)
                QUOTE_IN_QUOTED_FIELD)
        with (mkReader QUOTE_IN_QUOTED_FIELD fs pre).
      cbn [parse_process_char state].
      change (DQUOTE =? DQUOTE) with true. cbn iota.
      unfold parse_add_char. cbn [field].
      rewrite Hfull. reflexivity.
    + rewrite (double_quotes_cons c post Ec). cbn [app stream].
      cbn [parse_process_char state]. rewrite Ec.
      unfold parse_add_char. cbn [field]. rewrite Hfull. reflexivity.
  - replace (pre ++ c :: post) with ((pre ++ [c]) ++ post) in *
      by (rewrite <- app_assoc; reflexivity).
    assert (Hq' : needs_quotes (pre ++ [c]) = false).
    { rewrite needs_quotes_app in Hq. apply orb_false_iff in Hq as [Hq _].
      exact Hq. }
    unfold join_append. rewrite Hq. rewrite <- app_assoc.
    pose proof (stream_cell_over_limit fs pre c (post ++ t) Hq' Hlen) as H.
    unfold join_append in H. rewrite Hq' in H. exact H.
Qed.

(** A row with a cell beyond the limit, the cells before it within. *)
Lemma stream_cells_big (before : list pystr) :
  forall (fs : list pystr) (big : pystr) (after : list pystr) (t : pystr),
    forallb fits before = true ->
    fits big = false ->
    stream (mkReader START_FIELD fs [])
           (read_row (before ++ big :: after) ++ t)
    = ([], Some CsvError).
Proof.
  induction before as [|b before IH]; intros fs big after t Hfits Hbig.
  - cbn [app]. destruct after as [|a after].
    + rewrite read_row_one. apply stream_big_cell, Hbig.
    + rewrite read_row_cons. apply stream_big_cell, Hbig.
  - cbn [forallb] in Hfits. apply andb_true_iff in Hfits as [Hb Hrest].
    specialize (IH (fs ++ [b]) big after t Hrest Hbig).
    destruct (before ++ big :: after) as [|x l] eqn:E.
    + destruct before; discriminate E.
    + cbn [app]. rewrite E, read_row_cons, (stream_cell_comma fs b _ Hb).
      exact IH.
Qed.

Lemma stream_row_big (before : list pystr) (big : pystr)
    (after : list pystr) (t : pystr) :
  (2 <= length (before ++ big :: after))%nat ->
  forallb fits before = true ->
  fits big = false ->
  stream parse_reset (read_row (before ++ big :: after) ++ t)
  = ([], Some CsvError).
Proof.
  intros Hlen Hfits Hbig.
  destruct (before ++ big :: after) as [|x [|y l]] eqn:E;
    simpl in Hlen; try lia.
  rewrite stream_row_start, <- E.
  apply stream_cells_big; assumption.
Qed.

(** Rows within the limit, then whatever follows. *)
Lemma stream_rows_then (rows : list (list pystr)) (t : pystr) :
  Forall (fun cells => (2 <= length cells)%nat
                       /\ forallb fits cells = true) rows ->
  stream parse_reset (concat (map read_row rows) ++ t)
  = (let '(rows', e) := stream parse_reset t in (rows ++ rows', e)).
Proof.
  induction 1 as [|cells rows [Hlen Hfits] _ IH].
  - cbn [map concat app]. destruct (stream parse_reset t); reflexivity.
  - cbn [map concat]. rewrite <- app_assoc.
    rewrite (stream_row cells _ Hlen Hfits), IH.
    destruct (stream parse_reset t); reflexivity.
Qed.

Lemma first_that_fails {A} (f : A -> bool) (l : list A) :
  forallb f l = false ->
  exists before x after,
    l = before ++ x :: after /\ forallb f before = true /\ f x = false.
Proof.
  induction l as [|a l IH]; [discriminate|].
  cbn [forallb]. destruct (f a) eqn:Ea.
  - cbn [andb]. intros H. destruct (IH H) as (b & x & af & -> & Hb & Hx).
    exists (a :: b), x, af. cbn [forallb app]. rewrite Ea, Hb.
    repeat split; assumption.
  - intros _. exists [], a, l. repeat split; assumption.
Qed.

Lemma first_that_holds {A} (P : A -> Prop) (f : A -> bool) (l : list A) :
  (forall a, f a = false <-> P a) ->
  Exists P l ->
  exists before x after,
    l = before ++ x :: after /\ Forall (fun a => f a = true) before /\ P x.
Proof.
  intros Hdec Hex.
  assert (H : forallb f l = false).
  { apply not_true_is_false. intros Hall. rewrite forallb_forall in Hall.
    apply Exists_exists in Hex as (x & Hx & HP).
    apply Hdec in HP. rewrite (Hall x Hx) in HP. discriminate. }
  destruct (first_that_fails f l H) as (b & x & af & -> & Hb & Hx).
  exists b, x, af. repeat split.
  - apply Forall_forall. rewrite forallb_forall in Hb. exact Hb.
  - apply Hdec, Hx.
Qed.

Section LongCell.

Context {T : Type} `{D : Dataclass T}.

Hypothesis two_fields : (2 <= length (fieldnames T))%nat.
Hypothesis plain_names :
  forallb (fun n => negb (needs_quotes n)) (fieldnames T) = true.
Hypothesis names_encodable : forallb encodable (fieldnames T) = true.
Hypothesis names_ok : forallb cell_ok (fieldnames T) = true.
Hypothesis no_bom :
  forall t, decode_utf8_sig (written_row (fieldnames T) ++ t)
            = written_row (fieldnames T) ++ t.

Lemma to_csv_then_from_csv_long_cell (records : list T) :
  Forall (fun r => writable r = true) records ->
  Exists (fun r => forallb (fun c => fits (read_back c)) (cell_texts r)
                   = false) records ->
  exists file,
    to_csv records = Ok file /\ from_csv T file = Raise CsvError.
Proof.
  intros Hw Hex.
  destruct (first_that_holds
              (fun r : T => forallb (fun c => fits (read_back c))
                              (cell_texts r) = false)
              (fun r : T => forallb (fun c => fits (read_back c))
                              (cell_texts r))
              records (fun r => conj (fun H => H) (fun H => H)) Hex)
    as (good & r & rest_records & -> & Hgood & Hr).
  destruct (first_that_fails _ _ Hr)
    as (before & cell & after & Hcells & Hbefore & Hcell).
  set (file := concat (map (fun cells => written_row (map join_append cells))
                 (fieldnames T :: map cell_texts (good ++ r :: rest_records)))).
  exists file.
  split; [apply (to_csv_as_rows two_fields plain_names names_encodable),
          Hw|].
  set (head_rows := fieldnames T :: map (map read_back) (map cell_texts good)).
  assert (Hhead : Forall (fun cells => (2 <= length cells)%nat
                                       /\ forallb fits cells = true)
                         head_rows).
  { constructor.
    - split; [exact two_fields|].
      rewrite forallb_forall in *. intros n Hn.
      specialize (names_ok n Hn). unfold cell_ok in names_ok.
      apply andb_true_iff in names_ok as [_ Hf]; exact Hf.
    - apply Forall_map, Forall_map.
      eapply Forall_impl; [|exact Hgood]. intros g Hg. split.
      + unfold cell_texts. rewrite !length_map, field_values_length.
        exact two_fields.
      + rewrite forallb_forall in *. intros s Hs.
        apply in_map_iff in Hs as (c0 & <- & Hc0). apply Hg, Hc0. }
  assert (Hfile : file_rows file = (head_rows, Some CsvError)).
  { unfold file_rows, file.
    rewrite (decode_written_file plain_names no_bom).
    rewrite universal_newlines_written_rows.
    rewrite csv_reader_stream by apply ends_lines_rows.
    change (map universal_newlines) with (map read_back).
    assert (Hsplit :
      map (map read_back)
          (fieldnames T :: map cell_texts (good ++ r :: rest_records))
      = head_rows
        ++ (map read_back before ++ read_back cell :: map read_back after)
           :: map (map read_back) (map cell_texts rest_records)).
    { unfold head_rows. cbn [map]. rewrite (read_back_names names_ok).
      rewrite !map_app. cbn [map]. rewrite Hcells, map_app. reflexivity. }
    rewrite Hsplit, map_app, concat_app. cbn [map concat].
    rewrite (stream_rows_then head_rows _ Hhead).
    rewrite stream_row_big.
    - rewrite app_nil_r. reflexivity.
    - change (read_back cell :: map read_back after)
        with (map read_back (cell :: after)).
      rewrite <- (map_app read_back before (cell :: after)), <- Hcells.
      unfold cell_texts. rewrite !length_map, field_values_length.
      exact two_fields.
    - rewrite forallb_forall in *. intros s Hs.
      apply in_map_iff in Hs as (c0 & <- & Hc0). apply Hbefore, Hc0.
    - exact Hcell. }
  rewrite from_csv_eq. unfold header_of, data_rows. rewrite Hfile.
  cbn [fst snd hd tl head_rows].
  destruct (mapM_all_Ok (row_record T (fieldnames T)) (fun _ _ => True)
              (nonblank (map (map read_back) (map cell_texts good))))
    as (rs & Hrs & _).
  - intros row Hrow. unfold nonblank in Hrow.
    apply filter_In in Hrow as [Hrow _].
    apply in_map_iff in Hrow as (cells & <- & Hc).
    apply in_map_iff in Hc as (g & <- & _).
    destruct (row_record_accepts (fieldnames T)
                (map read_back (cell_texts g))) as (r' & Hr').
    + intros name; reflexivity.
    + unfold cell_texts. rewrite !length_map, field_values_length. lia.
    + exists r'. split; [exact Hr' | exact I].
  - rewrite Hrs. reflexivity.
Qed.

End LongCell.

(** X13: for each record kind, when [to_csv] has written a file and the
    text written for some field of some record, its line breaks read as LF,
    is longer than the reader's field limit of 131072 characters,
    [from_csv] raises [csv.Error] on the file, wherever the cell stands and
    whether it is quoted or not. *)
Theorem to_csv_then_from_csv_raises_on_a_long_cell :
  forall (k : Kind) (records : list (record k)) (file : pystr),
    to_csv records = Ok file ->
    Exists (fun r => forallb (fun c => fits (read_back c)) (cell_texts r)
                     = false) records ->
    from_csv (record k) file = Raise CsvError.
Proof.
  intros k records file Hfile Hex.
  pose proof (to_csv_Ok_inv (kind_two_fields k) (kind_plain_names k)
                (kind_names_encodable k) records file Hfile) as Hw.
  destruct (to_csv_then_from_csv_long_cell
              (kind_two_fields k) (kind_plain_names k)
              (kind_names_encodable k) (kind_names_ok k) (kind_no_bom k)
              records Hw Hex)
    as (file' & Hfile' & Hread).
  rewrite Hfile in Hfile'. injection Hfile' as <-. exact Hread.
Qed.

(** A result compared with a text by evaluation. *)
Lemma result_is_text (c : result pystr) (t : pystr) :
  match c with Ok f => pystr_eqb f t | Raise _ => false end = true ->
  c = Ok t.
Proof.
  destruct c as [f|e]; [|discriminate].
  intros H. apply pystr_eqb_eq in H. rewrite H. reflexivity.
Qed.

Lemma long_comment_of_media_is_not_read_back :
  to_csv [media_typed; media_long_comment] = Ok media_long_comment_file
  /\ Exists (fun r => forallb (fun c => fits (read_back c)) (cell_texts r)
                      = false) [media_typed; media_long_comment]
  /\ from_csv (record KMedia) media_long_comment_file = Raise CsvError.
Proof.
  assert (Hfile : to_csv [media_typed; media_long_comment]
                  = Ok media_long_comment_file)
    by (apply result_is_text; vm_compute; reflexivity).
  assert (H : Exists (fun r : record KMedia =>
                        forallb (fun c => fits (read_back c)) (cell_texts r)
                        = false) [media_typed; media_long_comment]).
  { apply Exists_cons_tl, Exists_cons_hd. vm_compute. reflexivity. }
  split; [exact Hfile|]. split; [exact H|].
  exact (to_csv_then_from_csv_raises_on_a_long_cell KMedia
           [media_typed; media_long_comment] media_long_comment_file
           Hfile H).
Defined.

(** ** The cells the reader yields *)

Lemma clean_set_state (r : ReaderObj) (s : ParserState) :
  clean r -> clean (set_state r s).
Proof. intros H. exact H. Qed.

Lemma clean_save_field (r : ReaderObj) : clean r -> clean (parse_save_field r).
Proof.
  intros [Hfs Hf]. split; cbn [fields field parse_save_field].
  - apply Forall_app. split; [exact Hfs | constructor; [exact Hf|constructor]].
  - reflexivity.
Qed.

Lemma clean_add_char (r q : ReaderObj) (c : pychar) :
  clean r -> (c =? CR) = false -> parse_add_char r c = Ok q -> clean q.
Proof.
  intros [Hfs Hf] Hc. unfold parse_add_char.
  destruct (field_limit <=? N.of_nat (length (field r))) eqn:El;
    [discriminate|].
  intros E; injection E as <-. split; cbn [fields field]; [exact Hfs|].
  unfold cell_ok in *. apply andb_true_iff in Hf as [Hcr Hfit].
  apply andb_true_iff. split.
  - rewrite no_cr_app, Hcr. cbn. rewrite Hc. reflexivity.
  - unfold fits in *. apply N.leb_gt in El. apply N.leb_le.
    rewrite length_app. cbn [length]. lia.
Qed.

Lemma parse_process_char_clean (r r' : ReaderObj) (c : option pychar) :
  clean r ->
  (forall c', c = Some c' -> (c' =? CR) = false) ->
  parse_process_char r c = Ok r' -> clean r'.
Proof.
  intros Hr Hc.
  assert (Hadd : forall q c', c = Some c' ->
                              parse_add_char r c' = Ok q -> clean q).
  { intros q c' E. apply (clean_add_char r q c' Hr (Hc c' E)). }
  assert (Hadd' : forall q c' s, c = Some c' ->
            parse_add_char (set_state r s) c' = Ok q -> clean q).
  { intros q c' s E.
    apply (clean_add_char (set_state r s) q c' (clean_set_state r s Hr)
             (Hc c' E)). }
  pose proof (clean_save_field r Hr) as Hsave.
  unfold parse_process_char.
  destruct (state r); destruct c as [c'|];
    repeat match goal with
      | |- Ok _ = Ok _ -> _ =>
          let E := fresh in intros E; injection E as <-
      | |- Raise _ = Ok _ -> _ => discriminate
      | |- (_ <- parse_add_char ?x ?y ;; _) = Ok _ -> _ =>
          let Eq := fresh "Eq" in
          destruct (parse_add_char x y) eqn:Eq; cbn [bind]
      | |- (if ?b then _ else _) = Ok _ -> _ => destruct b
      | |- parse_add_char _ _ = Ok _ -> _ => apply Hadd; reflexivity
      end;
    try exact Hr; try exact Hsave;
    try (apply clean_set_state; first
           [ exact Hr | exact Hsave
           | eapply Hadd; [reflexivity | eassumption]
           | eapply Hadd'; [reflexivity | eassumption] ]);
    try (apply clean_save_field, clean_set_state, Hr).
Qed.

Lemma parse_line_clean (line : pystr) :
  forall r r', clean r -> no_cr line = true ->
               parse_line r line = Ok r' -> clean r'.
Proof.
  induction line as [|c line IH]; intros r r' Hr Hline; cbn [parse_line].
  - apply parse_process_char_clean; [exact Hr | discriminate].
  - change (negb (c =? CR) && no_cr line = true) in Hline.
    apply andb_true_iff in Hline as [Hc Hline].
    apply negb_true_iff in Hc.
    destruct (parse_process_char r (Some c)) as [q|e] eqn:Eq; [|discriminate].
    cbn [bind]. apply IH; [|exact Hline].
    apply (parse_process_char_clean r q (Some c) Hr); [|exact Eq].
    intros c' E; injection E as <-; exact Hc.
Qed.

Lemma reader_rows_clean (lines : list pystr) :
  forall r,
    clean r ->
    Forall (fun line => no_cr line = true) lines ->
    Forall (Forall (fun s => cell_ok s = true)) (fst (reader_rows r lines)).
Proof.
  induction lines as [|line lines IH]; intros r Hr Hlines;
    cbn [reader_rows].
  - destruct (negb (N.of_nat (length (field r)) =? 0)
              || state_eqb (state r) IN_QUOTED_FIELD); cbn [fst];
      [|constructor].
    constructor; [|constructor]. apply (clean_save_field r Hr).
  - inversion Hlines as [|? ? Hline Hrest]; subst.
    destruct (parse_line r line) as [r'|e] eqn:El; [|constructor].
    pose proof (parse_line_clean line r r' Hr Hline El) as Hr'.
    destruct (state_eqb (state r') START_RECORD).
    + assert (H0 : clean parse_reset) by (split; [constructor|reflexivity]).
      specialize (IH parse_reset H0 Hrest).
      destruct (reader_rows parse_reset lines) as [rows e]. cbn [fst] in *.
      constructor; [apply Hr' | exact IH].
    + apply IH; assumption.
Qed.

Lemma readlines_from_no_cr (t : pystr) :
  forall cur,
    no_cr cur = true -> no_cr t = true ->
    Forall (fun line => no_cr line = true) (readlines_from cur t).
Proof.
  induction t as [|c t IH]; intros cur Hcur Ht; cbn [readlines_from].
  - destruct cur; constructor; [exact Hcur | constructor].
  - change (negb (c =? CR) && no_cr t = true) in Ht.
    apply andb_true_iff in Ht as [Hc Ht].
    assert (Hcc : no_cr (cur ++ [c]) = true).
    { rewrite no_cr_app, Hcur. cbn. rewrite Hc. reflexivity. }
    destruct (c =? LF).
    + constructor; [exact Hcc | apply IH; [reflexivity | exact Ht]].
    + apply IH; assumption.
Qed.

(** Every cell the reader yields from a file holds no carriage return and
    is within the field limit. *)
Lemma file_rows_clean (file : pystr) :
  Forall (Forall (fun s => cell_ok s = true)) (fst (file_rows file)).
Proof.
  unfold file_rows, csv_reader, readlines. apply reader_rows_clean.
  - split; [constructor | reflexivity].
  - apply readlines_from_no_cr; [reflexivity|].
    apply universal_newlines_no_cr_out.
Qed.

Lemma from_csv_cells_ok {T : Type} `{D : Dataclass T}
    (file : pystr) (rs : list T) :
  from_csv T file = Ok rs ->
  Forall (fun r => forallb cell_ok (cell_texts r) = true) rs.
Proof.
  intros H. apply from_csv_Ok_inv in H as [_ H].
  pose proof (file_rows_clean file) as Hclean.
  assert (Hdata : forall row, In row (nonblank (data_rows file)) ->
                              Forall (fun s => cell_ok s = true) row).
  { intros row Hrow. unfold nonblank in Hrow.
    apply filter_In in Hrow as [Hrow _]. unfold data_rows in Hrow.
    rewrite Forall_forall in Hclean. apply Hclean.
    destruct (fst (file_rows file)); [destruct Hrow | right; exact Hrow]. }
  induction H as [|row r rows rs' Hr _ IH]; constructor.
  - apply row_record_Ok_inv in Hr as (_ & _ & Hr).
    specialize (Hdata row (or_introl eq_refl)).
    rewrite Forall_forall in Hdata.
    unfold cell_texts. apply forallb_forall. intros s Hs.
    apply in_map_iff in Hs as (v & <- & Hv).
    rewrite Forall_forall in Hr.
    destruct (Hr v Hv) as [-> | (s & -> & Hin)]; [reflexivity|].
    apply Hdata, Hin.
  - apply IH. intros row' Hrow'. apply Hdata. right; exact Hrow'.
Qed.

(** ** The characters of the cells the reader yields *)

Lemma encodable_fields_set_state (r : ReaderObj) (s : ParserState) :
  encodable_fields r -> encodable_fields (set_state r s).
Proof. intros H. exact H. Qed.

Lemma encodable_fields_save_field (r : ReaderObj) :
  encodable_fields r -> encodable_fields (parse_save_field r).
Proof.
  intros [Hfs Hf]. split; cbn [fields field parse_save_field].
  - apply Forall_app. split; [exact Hfs | constructor; [exact Hf|constructor]].
  - reflexivity.
Qed.

Lemma encodable_fields_add_char (r q : ReaderObj) (c : pychar) :
  encodable_fields r -> is_surrogate c = false ->
  parse_add_char r c = Ok q -> encodable_fields q.
Proof.
  intros [Hfs Hf] Hc. unfold parse_add_char.
  destruct (field_limit <=? N.of_nat (length (field r))); [discriminate|].
  intros E; injection E as <-. split; cbn [fields field]; [exact Hfs|].
  rewrite encodable_app, Hf. unfold encodable. cbn [existsb].
  rewrite Hc. reflexivity.
Qed.

Lemma parse_process_char_encodable (r r' : ReaderObj) (c : option pychar) :
  encodable_fields r ->
  (forall c', c = Some c' -> is_surrogate c' = false) ->
  parse_process_char r c = Ok r' -> encodable_fields r'.
Proof.
  intros Hr Hc.
  assert (Hadd : forall q c', c = Some c' ->
                              parse_add_char r c' = Ok q ->
                              encodable_fields q).
  { intros q c' E. apply (encodable_fields_add_char r q c' Hr (Hc c' E)). }
  assert (Hadd' : forall q c' s, c = Some c' ->
            parse_add_char (set_state r s) c' = Ok q -> encodable_fields q).
  { intros q c' s E.
    apply (encodable_fields_add_char (set_state r s) q c'
             (encodable_fields_set_state r s Hr) (Hc c' E)). }
  pose proof (encodable_fields_save_field r Hr) as Hsave.
  unfold parse_process_char.
  destruct (state r); destruct c as [c'|];
    repeat match goal with
      | |- Ok _ = Ok _ -> _ =>
          let E := fresh in intros E; injection E as <-
      | |- Raise _ = Ok _ -> _ => discriminate
      | |- (_ <- parse_add_char ?x ?y ;; _) = Ok _ -> _ =>
          let Eq := fresh "Eq" in
          destruct (parse_add_char x y) eqn:Eq; cbn [bind]
      | |- (if ?b then _ else _) = Ok _ -> _ => destruct b
      | |- parse_add_char _ _ = Ok _ -> _ => apply Hadd; reflexivity
      end;
    try exact Hr; try exact Hsave;
    try (apply encodable_fields_set_state; first
           [ exact Hr | exact Hsave
           | eapply Hadd; [reflexivity | eassumption]
           | eapply Hadd'; [reflexivity | eassumption] ]);
    try (apply encodable_fields_save_field, encodable_fields_set_state, Hr).
Qed.

Lemma encodable_cons (c : pychar) (s : pystr) :
  encodable (c :: s) = negb (is_surrogate c) && encodable s.
Proof. unfold encodable. cbn [existsb]. apply negb_orb. Qed.

Lemma parse_line_encodable (line : pystr) :
  forall r r', encodable_fields r -> encodable line = true ->
               parse_line r line = Ok r' -> encodable_fields r'.
Proof.
  induction line as [|c line IH]; intros r r' Hr Hline; cbn [parse_line].
  - apply parse_process_char_encodable; [exact Hr | discriminate].
  - rewrite encodable_cons in Hline.
    apply andb_true_iff in Hline as [Hc Hline].
    apply negb_true_iff in Hc.
    destruct (parse_process_char r (Some c)) as [q|e] eqn:Eq; [|discriminate].
    cbn [bind]. apply IH; [|exact Hline].
    apply (parse_process_char_encodable r q (Some c) Hr); [|exact Eq].
    intros c' E; injection E as <-; exact Hc.
Qed.

Lemma reader_rows_encodable (lines : list pystr) :
  forall r,
    encodable_fields r ->
    Forall (fun line => encodable line = true) lines ->
    Forall (Forall (fun s => encodable s = true))
           (fst (reader_rows r lines)).
Proof.
  induction lines as [|line lines IH]; intros r Hr Hlines;
    cbn [reader_rows].
  - destruct (negb (N.of_nat (length (field r)) =? 0)
              || state_eqb (state r) IN_QUOTED_FIELD); cbn [fst];
      [|constructor].
    constructor; [|constructor]. apply (encodable_fields_save_field r Hr).
  - inversion Hlines as [|? ? Hline Hrest]; subst.
    destruct (parse_line r line) as [r'|e] eqn:El; [|constructor].
    pose proof (parse_line_encodable line r r' Hr Hline El) as Hr'.
    destruct (state_eqb (state r') START_RECORD).
    + assert (H0 : encodable_fields parse_reset)
        by (split; [constructor|reflexivity]).
      specialize (IH parse_reset H0 Hrest).
      destruct (reader_rows parse_reset lines) as [rows e]. cbn [fst] in *.
      constructor; [apply Hr' | exact IH].
    + apply IH; assumption.
Qed.

Lemma readlines_from_encodable (t : pystr) :
  forall cur,
    encodable cur = true -> encodable t = true ->
    Forall (fun line => encodable line = true) (readlines_from cur t).
Proof.
  induction t as [|c t IH]; intros cur Hcur Ht; cbn [readlines_from].
  - destruct cur; constructor; [exact Hcur | constructor].
  - rewrite encodable_cons in Ht.
    apply andb_true_iff in Ht as [Hc Ht].
    assert (Hcc : encodable (cur ++ [c]) = true).
    { rewrite encodable_app, Hcur, encodable_cons, Hc. reflexivity. }
    destruct (c =? LF).
    + constructor; [exact Hcc | apply IH; [reflexivity | exact Ht]].
    + apply IH; assumption.
Qed.

Lemma universal_newlines_encodable (s : pystr) :
  encodable s = true -> encodable (universal_newlines s) = true.
Proof.
  induction s as [| c s Ec IH | | s IH | d s Ed IH]
    using universal_newlines_cases.
  - intros _; reflexivity.
  - rewrite universal_newlines_char by exact Ec.
    rewrite !encodable_cons. intros H.
    apply andb_true_iff in H as [Hc Hs]. rewrite Hc, (IH Hs). reflexivity.
  - intros _; reflexivity.
  - rewrite universal_newlines_cr_lf. intros H.
    rewrite !encodable_cons in H.
    apply andb_true_iff in H as [_ H]. apply andb_true_iff in H as [_ H].
    rewrite encodable_cons, (IH H). reflexivity.
  - rewrite universal_newlines_cr by exact Ed. intros H.
    rewrite encodable_cons in H. apply andb_true_iff in H as [_ H].
    rewrite encodable_cons, (IH H). reflexivity.
Qed.

Lemma decode_utf8_sig_encodable (file : pystr) :
  encodable file = true -> encodable (decode_utf8_sig file) = true.
Proof.
  destruct file as [|c rest]; [intros _; reflexivity|].
  unfold decode_utf8_sig. destruct (c =? BOM); [|intros H; exact H].
  rewrite encodable_cons. intros H.
  apply andb_true_iff in H as [_ H]. exact H.
Qed.

(** Every cell the reader yields from a text without surrogate holds no
    surrogate. *)
Lemma file_rows_encodable (file : pystr) :
  encodable file = true ->
  Forall (Forall (fun s => encodable s = true)) (fst (file_rows file)).
Proof.
  intros Hfile. unfold file_rows, csv_reader, readlines.
  apply reader_rows_encodable.
  - split; [constructor | reflexivity].
  - apply readlines_from_encodable; [reflexivity|].
    apply universal_newlines_encodable, decode_utf8_sig_encodable, Hfile.
Qed.

Lemma from_csv_writable {T : Type} `{D : Dataclass T}
    (file : pystr) (rs : list T) :
  encodable file = true ->
  from_csv T file = Ok rs ->
  Forall (fun r => writable r = true) rs.
Proof.
  intros Hfile H. apply from_csv_Ok_inv in H as [_ H].
  pose proof (file_rows_encodable file Hfile) as Hrows.
  assert (Hdata : forall row, In row (nonblank (data_rows file)) ->
                              Forall (fun s => encodable s = true) row).
  { intros row Hrow. unfold nonblank in Hrow.
    apply filter_In in Hrow as [Hrow _]. unfold data_rows in Hrow.
    rewrite Forall_forall in Hrows. apply Hrows.
    destruct (fst (file_rows file)); [destruct Hrow | right; exact Hrow]. }
  induction H as [|row r rows rs' Hr _ IH]; constructor.
  - apply row_record_Ok_inv in Hr as (_ & _ & Hr).
    specialize (Hdata row (or_introl eq_refl)).
    rewrite Forall_forall in Hdata.
    unfold writable. apply forallb_forall. intros v Hv.
    rewrite Forall_forall in Hr.
    destruct (Hr v Hv) as [-> | (s & -> & Hin)]; [reflexivity|].
    apply (Hdata s Hin).
  - apply IH. intros row' Hrow'. apply Hdata. right; exact Hrow'.
Qed.

(** X14: for each record kind and every file [from_csv] accepts, a file
    being a text without lone surrogate, as every decoded file is: the file
    [to_csv] writes for the records read is a fixed point of reading and
    writing: [from_csv] reads it, and [to_csv] writes the same file again
    for the records read from it; those records are the first ones with
    the empty [str] in place of [None]. *)
Theorem from_csv_then_to_csv_gives_a_stable_file :
  forall (k : Kind) (file : pystr) (rs : list (record k)),
    encodable file = true ->
    from_csv (record k) file = Ok rs ->
    exists written rs',
      to_csv rs = Ok written
      /\ from_csv (record k) written = Ok rs'
      /\ to_csv rs' = Ok written
      /\ Forall2 (fun r r' => field_values r' = map PyStr (cell_texts r))
                 rs rs'.
Proof.
  intros k file rs Hfile H.
  apply (to_csv_from_csv_to_csv (kind_two_fields k) (kind_plain_names k)
           (kind_names_encodable k) (kind_names_ok k) (kind_no_bom k)).
  - apply (from_csv_writable file rs Hfile H).
  - apply (from_csv_cells_ok file rs H).
Qed.

Lemma media_short_file_gives_a_stable_file :
  encodable media_short_file = true
  /\ from_csv (record KMedia) media_short_file = Ok [media_short_read]
  /\ exists written rs',
      to_csv [media_short_read] = Ok written
      /\ from_csv (record KMedia) written = Ok rs'
      /\ to_csv rs' = Ok written
      /\ Forall2 (fun r r' => field_values r' = map PyStr (cell_texts r))
                 [media_short_read] rs'.
Proof.
  assert (He : encodable media_short_file = true) by reflexivity.
  assert (H : from_csv (record KMedia) media_short_file
              = Ok [media_short_read]) by (vm_compute; reflexivity).
  split; [exact He|]. split; [exact H|].
  exact (from_csv_then_to_csv_gives_a_stable_file KMedia media_short_file
           [media_short_read] He H).
Defined.
